(** * AgentTrace: the detection pipeline, embedded and verified

    A shallow embedding of the core of the AgentTrace command line tool:
    the permission and risk inference engine (inference/permissions.ts),
    the four detectors (detectors/mcp-config.ts, python.ts, typescript.ts
    and go.ts, with detectors/base.ts), the extension router
    (scanner/router.ts), the manifest generator (output/manifest.ts) and
    the steps of the scan command that join them (commands/scan.ts).
    Of the file walker (scanner/walker.ts) the tables of extensions are
    embedded; walking the directory, printing and writing files are left
    out: the scan starts from the list of files read.

    Conventions of the embedding.
    - A JavaScript string is a [string]: a sequence of characters with
      codes below 256. White space, word characters and the mapping of
      case are those of JavaScript on such characters.
    - The built-ins of the platform (methods of String, RegExp,
      JSON.parse, Object.entries, Array.prototype.sort) are modelled
      after ECMAScript. String.prototype.localeCompare depends on the
      platform's collation and is a parameter.
    - What the source mutates (the lastIndex of a RegExp, the fields of
      a detector, a result under construction) is threaded as explicit
      state.
    - Part I holds the definitions, Parts II and III the lemmas and
      theorems. *)

From Stdlib Require Import Ascii String NArith ZArith Lia Bool DecimalString.
From Stdlib Require Import Permutation Sorted.
From stdpp Require Import base option list gmap strings.

Set Warnings "-register-all".

(* String.append computes under simpl, as in the Standard Library. *)
#[local] Arguments String.append !s1 s2.

Local Open Scope Z_scope.
Local Open Scope nat_scope.
Local Open Scope list_scope.
Local Open Scope stdpp_scope.

(* ================================================================== *)
(** * Part I: the model *)
(* ================================================================== *)

(** ** Characters and the string built-ins the code uses *)

Module Js.

Definition code (c : ascii) : N := N_of_ascii c.

Definition in_range (lo hi : N) (c : ascii) : bool :=
  (lo <=? code c)%N && (code c <=? hi)%N.

(** [a-z] and [A-Z] *)
Definition is_lower (c : ascii) : bool := in_range 97 122 c.
Definition is_upper (c : ascii) : bool := in_range 65 90 c.
Definition is_digit (c : ascii) : bool := in_range 48 57 c.

(** \s on 8-bit text: TAB, LF, VT, FF, CR, SPACE and NBSP. *)
Definition is_space (c : ascii) : bool :=
  in_range 9 13 c || (code c =? 32)%N || (code c =? 160)%N.

(** \w is [A-Za-z0-9_]. *)
Definition is_word (c : ascii) : bool :=
  is_lower c || is_upper c || is_digit c || (code c =? 95)%N.

Definition chr (n : N) : ascii := ascii_of_N n.

Definition space : ascii := chr 32.
Definition dquote : ascii := chr 34.
Definition squote : ascii := chr 39.
Definition backquote : ascii := chr 96.
Definition backslash : ascii := chr 92.

(** Case mapping of one character. Besides the ASCII letters, the
    accented capitals 192..222 (without the sign 215) have their small
    forms 32 places higher. Three small letters have no capital below
    256 (181, 223 and 255): they are left as they are, and so differ
    from every capital, as their JavaScript capitals do. *)
Definition is_upper_latin (c : ascii) : bool :=
  is_upper c || (in_range 192 222 c && negb (code c =? 215)%N).
Definition is_lower_latin (c : ascii) : bool :=
  is_lower c || (in_range 224 254 c && negb (code c =? 247)%N).

Definition lower_char (c : ascii) : ascii :=
  if is_upper_latin c then chr (code c + 32) else c.
Definition upper_char (c : ascii) : ascii :=
  if is_lower_latin c then chr (code c - 32) else c.

Fixpoint map_chars (f : ascii -> ascii) (s : string) : string :=
  match s with
  | EmptyString => EmptyString
  | String c rest => String (f c) (map_chars f rest)
  end.

(** String.prototype.toLowerCase / toUpperCase *)
Definition toLowerCase (s : string) : string := map_chars lower_char s.
Definition toUpperCase (s : string) : string := map_chars upper_char s.

(** String.prototype.startsWith *)
Definition startsWith (s search : string) : bool := String.prefix search s.

(** String.prototype.endsWith: the last [length search] characters of
    [s] are compared with [search]; false when [search] is longer. *)
Definition endsWith (s search : string) : bool :=
  let ls := String.length s in
  let lk := String.length search in
  if (lk <=? ls)%nat then String.eqb (String.substring (ls - lk) lk s) search
  else false.

(** String.prototype.includes *)
Fixpoint includes (s search : string) : bool :=
  String.prefix search s ||
  match s with
  | EmptyString => false
  | String _ rest => includes rest search
  end.

(** A source literal written with single quotes where the text has
    double quotes: every single quote stands for a double quote. *)
Definition dq (s : string) : string :=
  map_chars (fun c => if Ascii.eqb c squote then dquote else c) s.

(** JavaScript truthiness of a string: only the empty string is falsy. *)
Definition nonempty (s : string) : bool :=
  match s with EmptyString => false | _ => true end.

(** s.replace(/([a-z])([A-Z])/g, '$1' + sep + '$2'): a small letter
    followed by a capital gets [sep] between the two; the scan resumes
    after the two characters of a match. *)
Fixpoint replace_lower_upper (sep : ascii) (s : string) : string :=
  match s with
  | EmptyString => EmptyString
  | String a t =>
      match t with
      | EmptyString => String a EmptyString
      | String b rest =>
          if is_lower a && is_upper b
          then String a (String sep (String b (replace_lower_upper sep rest)))
          else String a (replace_lower_upper sep t)
      end
  end.

(** s.substring(0, n) and s.substring(n) *)
Definition take (n : nat) (s : string) : string := String.substring 0 n s.

Fixpoint drop (n : nat) (s : string) : string :=
  match n, s with
  | S n', String _ rest => drop n' rest
  | _, _ => s
  end.

(** s.substring(i, i + n), clipped at the end of [s] *)
Definition slice (i n : nat) (s : string) : string := take n (drop i s).

(** The decimal text of a number, as a template literal prints it. *)
Definition of_nat (n : nat) : string :=
  DecimalString.NilZero.string_of_uint (Nat.to_uint n).

End Js.

(** ** The shared data model (types/index.ts) *)

Inductive Permission := READ | WRITE | DELETE | EXECUTE | OUTPUT | UNKNOWN.
Inductive RiskLevel := LOW | MEDIUM | HIGH.

Inductive Framework :=
| fw_mcp | fw_mcp_config | fw_langraph | fw_crewai | fw_autogen
| fw_fastmcp | fw_custom | fw_unknown.

Definition framework_name (f : Framework) : string :=
  match f with
  | fw_mcp => "mcp" | fw_mcp_config => "mcp-config"
  | fw_langraph => "langraph" | fw_crewai => "crewai"
  | fw_autogen => "autogen" | fw_fastmcp => "fastmcp"
  | fw_custom => "custom" | fw_unknown => "unknown"
  end.

Definition risk_name (r : RiskLevel) : string :=
  match r with LOW => "LOW" | MEDIUM => "MEDIUM" | HIGH => "HIGH" end.

Global Instance Permission_eq_dec : EqDecision Permission.
Proof. solve_decision. Defined.
Global Instance RiskLevel_eq_dec : EqDecision RiskLevel.
Proof. solve_decision. Defined.
Global Instance Framework_eq_dec : EqDecision Framework.
Proof. solve_decision. Defined.

(** ** The permission and risk inference engine (inference/permissions.ts) *)

Module Inference.

Definition READ_KEYWORDS : list string :=
  [ "get"; "read"; "fetch"; "list"; "search"; "query"; "find"; "lookup";
    "retrieve"; "show"; "display"; "view"; "describe"; "check"; "inspect";
    "count"; "exists"; "has"; "is"; "can"; "load"; "parse"; "extract";
    "select"; "filter"; "sort"; "browse"; "scan"; "analyze"; "validate" ].

Definition WRITE_KEYWORDS : list string :=
  [ "create"; "add"; "insert"; "write"; "update"; "set"; "put"; "post";
    "save"; "store"; "upload"; "push"; "modify"; "edit"; "change"; "patch";
    "append"; "register"; "submit"; "send"; "publish"; "configure"; "enable";
    "disable"; "toggle"; "assign"; "allocate"; "grant"; "revoke" ].

Definition DELETE_KEYWORDS : list string :=
  [ "delete"; "remove"; "drop"; "destroy"; "truncate"; "clear"; "purge";
    "wipe"; "erase"; "uninstall"; "terminate"; "kill"; "stop"; "abort";
    "cancel"; "revoke"; "reset"; "clean"; "flush"; "invalidate" ].

Definition EXECUTE_KEYWORDS : list string :=
  [ "execute"; "run"; "eval"; "shell"; "exec"; "spawn"; "invoke"; "call";
    "trigger"; "start"; "launch"; "deploy"; "install"; "migrate"; "apply";
    "process"; "perform"; "do"; "action"; "command"; "script"; "code" ].

Definition OUTPUT_KEYWORDS : list string :=
  [ "display"; "show"; "render"; "output"; "print"; "format"; "present";
    "visualize"; "chart"; "graph"; "report"; "export"; "download" ].

(** PERMISSION_RISK_MAP *)
Definition PERMISSION_RISK_MAP (p : Permission) : RiskLevel :=
  match p with
  | READ => LOW
  | OUTPUT => LOW
  | WRITE => MEDIUM
  | DELETE => HIGH
  | EXECUTE => HIGH
  | UNKNOWN => MEDIUM
  end.

(** text.replace(/([a-z])([A-Z])/g, '$1 $2') *)
Definition replace_camel (s : string) : string :=
  Js.replace_lower_upper Js.space s.

(** .replace(/[_-]/g, ' ') *)
Definition is_snake_or_kebab (c : ascii) : bool :=
  (Js.code c =? 95)%N || (Js.code c =? 45)%N.

Definition separator_to_space (c : ascii) : ascii :=
  if is_snake_or_kebab c then Js.space else c.

Definition replace_separators (s : string) : string :=
  Js.map_chars separator_to_space s.

(** .split(/\s+/): the pieces between the maximal runs of white space;
    a leading or trailing run leaves an empty first or last piece, and
    the empty string splits into one empty piece. [cur] is the piece
    being read, [in_sep] tells that the previous character was white
    space. *)
Fixpoint split_ws_go (cur : string) (in_sep : bool) (s : string)
  : list string :=
  match s with
  | EmptyString => [cur]
  | String c rest =>
      if Js.is_space c then
        if in_sep then split_ws_go cur true rest
        else cur :: split_ws_go EmptyString true rest
      else split_ws_go (cur +:+ String c EmptyString) false rest
  end.

Definition split_ws (s : string) : list string :=
  split_ws_go EmptyString false s.

(** tokenize *)
Definition tokenize (text : string) : list string :=
  List.filter Js.nonempty
    (split_ws (Js.toLowerCase (replace_separators (replace_camel text)))).

(** matchesKeywords *)
Definition matchesKeywords (tokens keywords : list string) : bool :=
  existsb (fun token =>
    existsb (fun keyword =>
      String.eqb token keyword
      || Js.startsWith token keyword
      || Js.endsWith token keyword) keywords) tokens.

(** inferPermission; an absent description is [None], and an empty one is
    falsy as well. *)
Definition inferPermission (name : string) (description : option string)
  : Permission :=
  let nameTokens := tokenize name in
  let descTokens :=
    match description with
    | Some d => if Js.nonempty d then tokenize d else []
    | None => []
    end in
  let allTokens := nameTokens ++ descTokens in
  if matchesKeywords allTokens DELETE_KEYWORDS then DELETE
  else if matchesKeywords allTokens EXECUTE_KEYWORDS then EXECUTE
  else if matchesKeywords allTokens WRITE_KEYWORDS then WRITE
  else if matchesKeywords allTokens OUTPUT_KEYWORDS then OUTPUT
  else if matchesKeywords allTokens READ_KEYWORDS then READ
  else UNKNOWN.

(** inferRisk *)
Definition inferRisk (permission : Permission) : RiskLevel :=
  PERMISSION_RISK_MAP permission.

(** inferPermissionAndRisk *)
Definition inferPermissionAndRisk (name : string) (description : option string)
  : Permission * RiskLevel :=
  let permission := inferPermission name description in
  (permission, inferRisk permission).

(** isHighRisk *)
Definition isHighRisk (permission : Permission) : bool :=
  bool_decide (permission = DELETE) || bool_decide (permission = EXECUTE).

(** getKeywordsForPermission *)
Definition getKeywordsForPermission (permission : Permission) : list string :=
  match permission with
  | READ => READ_KEYWORDS
  | WRITE => WRITE_KEYWORDS
  | DELETE => DELETE_KEYWORDS
  | EXECUTE => EXECUTE_KEYWORDS
  | OUTPUT => OUTPUT_KEYWORDS
  | UNKNOWN => []
  end.

End Inference.


(** ** Regular expressions (the RegExp built-in)

    The patterns of the source are written in an abstract syntax and run
    by a backtracking matcher with the priorities of ECMAScript: the left
    alternative first, greedy repetition longest first, lazy repetition
    shortest first. *)

Module Regex.

Inductive class_item :=
| CChar (c : ascii)            (* one character *)
| CRange (lo hi : N)           (* a range of codes, as in a-z *)
| CSpace                       (* \s *)
| CNotSpace                    (* \S *)
| CWord.                       (* \w *)

Inductive regex :=
| REmpty
| RChar (c : ascii)
| RAny                                   (* the dot: all but line ends *)
| RClass (negated : bool) (items : list class_item)
| RSeq (r1 r2 : regex)
| RAlt (r1 r2 : regex)
| RStar (greedy : bool) (r : regex)
| RGroup (n : nat) (r : regex)           (* the n-th capturing group *)
| RBoundary                              (* \b *)
| RNotAhead (r : regex)                  (* (?!r) *)
| REnd.                                  (* $ without the m flag *)

(** Canonicalize of the i flag. *)
Definition char_eq (ic : bool) (a b : ascii) : bool :=
  if ic then Ascii.eqb (Js.upper_char a) (Js.upper_char b) else Ascii.eqb a b.

Definition item_plain (it : class_item) (x : ascii) : bool :=
  match it with
  | CChar c => Ascii.eqb c x
  | CRange lo hi => Js.in_range lo hi x
  | CSpace => Js.is_space x
  | CNotSpace => negb (Js.is_space x)
  | CWord => Js.is_word x
  end.

Definition item_match (ic : bool) (it : class_item) (x : ascii) : bool :=
  item_plain it x
  || (ic && (item_plain it (Js.lower_char x) || item_plain it (Js.upper_char x))).

Definition class_match (ic : bool) (negated : bool) (items : list class_item)
  (x : ascii) : bool :=
  xorb negated (existsb (fun it => item_match ic it x) items).

Definition is_line_end (x : ascii) : bool :=
  (Js.code x =? 10)%N || (Js.code x =? 13)%N.

Definition is_word_at (c : option ascii) : bool :=
  match c with Some x => Js.is_word x | None => false end.

Definition head (s : string) : option ascii :=
  match s with String x _ => Some x | EmptyString => None end.

(** The captures made so far, the latest first. *)
Definition captures := list (nat * string).

(** A position in the text: the character before it and what follows. *)
Definition cont := option ascii -> string -> captures -> option (string * captures).

(** A repetition: [step] matches the repeated pattern once. Greedy, it
    tries one more turn before it continues with [k]; lazy, it tries
    [k] first. A turn that consumes nothing is not taken, so the turns
    are at most as many as the characters left, and [fuel] is one more
    than that. *)
Fixpoint repeat_match
  (step : option ascii -> string -> captures -> cont -> option (string * captures))
  (greedy : bool) (k : cont) (fuel : nat) (prev : option ascii) (s : string)
  (caps : captures) : option (string * captures) :=
  match fuel with
  | O => k prev s caps
  | S fuel' =>
      let again prev' s' caps' :=
        if (String.length s' <? String.length s)%nat
        then repeat_match step greedy k fuel' prev' s' caps' else None in
      if greedy then
        match step prev s caps again with
        | Some res => Some res
        | None => k prev s caps
        end
      else
        match k prev s caps with
        | Some res => Some res
        | None => step prev s caps again
        end
  end.

(** [run ic r prev s caps k]: match [r] at the head of [s], which
    follows the character [prev], then continue with [k] on what is
    left of [s]. *)
Fixpoint run (ic : bool) (r : regex) (prev : option ascii) (s : string)
  (caps : captures) (k : cont) {struct r} : option (string * captures) :=
  match r with
  | REmpty => k prev s caps
  | RChar c =>
      match s with
      | String x rest => if char_eq ic c x then k (Some x) rest caps else None
      | EmptyString => None
      end
  | RAny =>
      match s with
      | String x rest => if is_line_end x then None else k (Some x) rest caps
      | EmptyString => None
      end
  | RClass negated items =>
      match s with
      | String x rest =>
          if class_match ic negated items x then k (Some x) rest caps else None
      | EmptyString => None
      end
  | RSeq r1 r2 =>
      run ic r1 prev s caps (fun prev' s' caps' => run ic r2 prev' s' caps' k)
  | RAlt r1 r2 =>
      match run ic r1 prev s caps k with
      | Some res => Some res
      | None => run ic r2 prev s caps k
      end
  | RStar greedy r1 =>
      repeat_match (run ic r1) greedy k (S (String.length s)) prev s caps
  | RGroup n r1 =>
      run ic r1 prev s caps (fun prev' s' caps' =>
        k prev' s'
          ((n, Js.take (String.length s - String.length s') s) :: caps'))
  | RBoundary =>
      if xorb (is_word_at prev) (is_word_at (head s)) then k prev s caps
      else None
  | RNotAhead r1 =>
      match run ic r1 prev s caps (fun _ s' caps' => Some (s', caps')) with
      | Some _ => None
      | None => k prev s caps
      end
  | REnd =>
      match s with
      | EmptyString => k prev s caps
      | String _ _ => None
      end
  end.

(** Can the pattern match the empty text? (An over-approximation: a
    pattern for which this is false consumes a character in every
    match.) *)
Fixpoint nullable (r : regex) : bool :=
  match r with
  | REmpty | RBoundary | RNotAhead _ | REnd | RStar _ _ => true
  | RChar _ | RAny | RClass _ _ => false
  | RSeq r1 r2 => nullable r1 && nullable r2
  | RAlt r1 r2 => nullable r1 || nullable r2
  | RGroup _ r1 => nullable r1
  end.

(** A match: where it starts, where it ends, its text and its groups. *)
Record match_result := {
  index : nat;
  last : nat;
  matched : string;
  groups : captures
}.

(** The text of group [n], [None] when the group took no part. *)
Definition group (m : match_result) (n : nat) : option string :=
  snd <$> List.find (fun g => Nat.eqb (fst g) n) (groups m).

(** The leftmost match in [s], the text that starts at position [idx]
    after the character [prev]. *)
Fixpoint search (ic : bool) (r : regex) (prev : option ascii) (s : string)
  (idx : nat) : option match_result :=
  match run ic r prev s [] (fun _ s' caps' => Some (s', caps')) with
  | Some (s', caps') =>
      let len := String.length s - String.length s' in
      Some {| index := idx; last := idx + len;
              matched := Js.take len s; groups := caps' |}
  | None =>
      match s with
      | EmptyString => None
      | String x rest => search ic r (Some x) rest (S idx)
      end
  end.

(** A RegExp object: the pattern and its flags; [lastIndex] is its one
    mutable field and is threaded by the callers. *)
Record RegExp := {
  source : regex;
  global : bool;
  ignoreCase : bool
}.

(** RegExp.prototype.exec: returns the match and the new lastIndex. *)
Definition exec (re : RegExp) (lastIndex : nat) (s : string)
  : option match_result * nat :=
  let start := if global re then lastIndex else 0 in
  if (String.length s <? start)%nat then (None, 0)
  else
    match search (ignoreCase re) (source re)
            (match start with O => None | S i => String.get i s end)
            (Js.drop start s) start with
    | Some m => (Some m, if global re then last m else lastIndex)
    | None => (None, if global re then 0 else lastIndex)
    end.

(** RegExp.prototype.test *)
Definition test (re : RegExp) (lastIndex : nat) (s : string) : bool * nat :=
  let '(m, lastIndex') := exec re lastIndex s in
  (bool_decide (is_Some m), lastIndex').

(** new RegExp(re.source, flags): a fresh object, lastIndex 0. *)
Definition fresh (re : RegExp) (g i : bool) : RegExp :=
  {| source := source re; global := g; ignoreCase := i |}.

(** The loop [while ((match = regex.exec(content)) !== null)] on a
    fresh global [regex]: all matches, each search resuming where the
    previous match ended. The source loop does not end when a match is
    empty; [fuel] bounds the iterations, and one more than the length
    of [s] is enough for matches that are not empty. *)
Fixpoint exec_loop (fuel : nat) (re : RegExp) (lastIndex : nat) (s : string)
  : list match_result :=
  match fuel with
  | O => []
  | S fuel' =>
      match exec re lastIndex s with
      | (Some m, lastIndex') => m :: exec_loop fuel' re lastIndex' s
      | (None, _) => []
      end
  end.

Definition exec_all (re : RegExp) (s : string) : list match_result :=
  exec_loop (S (String.length s)) re 0 s.

(** String.prototype.match. With a global pattern: the texts of all the
    matches (an empty match moves the search on by one), [None] when
    there is none; the pattern's lastIndex is 0 before and after. With
    another pattern: the text of the first match followed by its groups,
    an unset group being [None]. *)
Fixpoint match_all_go (fuel : nat) (re : RegExp) (lastIndex : nat) (s : string)
  : list string :=
  match fuel with
  | O => []
  | S fuel' =>
      match exec re lastIndex s with
      | (Some m, lastIndex') =>
          matched m ::
          match_all_go fuel' re
            (if Nat.eqb (last m) (index m) then S lastIndex' else lastIndex') s
      | (None, _) => []
      end
  end.

Definition string_match (re : RegExp) (ngroups : nat) (s : string)
  : option (list (option string)) :=
  if global re then
    match match_all_go (S (String.length s)) re 0 s with
    | [] => None
    | ms => Some (Some <$> ms)
    end
  else
    match fst (exec re 0 s) with
    | Some m => Some (Some (matched m) :: (group m <$> seq 1 ngroups))
    | None => None
    end.

(** Pattern syntax helpers. *)
Fixpoint lit (s : string) : regex :=
  match s with
  | EmptyString => REmpty
  | String c EmptyString => RChar c
  | String c rest => RSeq (RChar c) (lit rest)
  end.

Fixpoint cat (rs : list regex) : regex :=
  match rs with
  | [] => REmpty
  | [r] => r
  | r :: rs' => RSeq r (cat rs')
  end.

Fixpoint alts (rs : list regex) : regex :=
  match rs with
  | [] => REmpty
  | [r] => r
  | r :: rs' => RAlt r (alts rs')
  end.

Definition star (r : regex) : regex := RStar true r.
Definition plus (r : regex) : regex := RSeq r (RStar true r).
Definition lazy_star (r : regex) : regex := RStar false r.
Definition opt (r : regex) : regex := RAlt r REmpty.
Definition ws : regex := RClass false [CSpace].          (* \s *)
Definition word : regex := RClass false [CWord].         (* \w *)
Definition one_of (cs : list ascii) : regex := RClass false (CChar <$> cs).
Definition none_of (cs : list ascii) : regex := RClass true (CChar <$> cs).

End Regex.

(** ** JSON values and JSON.parse *)

Module Json.

(** A number is kept as its decimal literal: sign, digits without the
    point, and the power of ten that scales them. The code only tests
    numbers for truthiness. *)
Record number := {
  negative : bool;
  mantissa : N;
  exp10 : Z
}.

Inductive json :=
| JNull
| JBool (b : bool)
| JNumber (n : number)
| JString (s : string)
| JArray (items : list json)
| JObject (fields : list (string * json)).

(** A number converts to the double 0 when its digits are all zero or
    when it is at most 2^-1075, half the least positive double. *)
Definition number_is_zero (n : number) : bool :=
  (mantissa n =? 0)%N
  || ((exp10 n <? 0)%Z
      && (Z.of_N (mantissa n) * 2 ^ 1075 <=? 10 ^ (- exp10 n))%Z).

(** ToBoolean on a value, [None] being undefined. *)
Definition truthy (v : option json) : bool :=
  match v with
  | None => false
  | Some JNull => false
  | Some (JBool b) => b
  | Some (JNumber n) => negb (number_is_zero n)
  | Some (JString s) => Js.nonempty s
  | Some (JArray _) => true
  | Some (JObject _) => true
  end.

(** typeof v === 'object', for a value that is not null *)
Definition is_object_type (v : json) : bool :=
  match v with
  | JNull | JArray _ | JObject _ => true
  | _ => false
  end.

(** Defining a property on an object under construction: an existing
    key keeps its place and takes the new value. *)
Fixpoint obj_set (fields : list (string * json)) (k : string) (v : json)
  : list (string * json) :=
  match fields with
  | [] => [(k, v)]
  | (k', v') :: rest =>
      if String.eqb k' k then (k', v) :: rest
      else (k', v') :: obj_set rest k v
  end.

(** Reading the property [k] of a value that is not null, for a key that
    no prototype defines (the code reads mcpServers, servers, command,
    args, env and url): an own property of an object, undefined on
    arrays, strings, numbers and booleans. *)
Definition get (v : json) (k : string) : option json :=
  match v with
  | JObject fields =>
      snd <$> List.find (fun kv => String.eqb (fst kv) k) fields
  | _ => None
  end.

(** *** The parser *)

Inductive presult (A : Type) :=
| POk (a : A) (wide : bool) (rest : string)
| PErr
| PFuel.
Arguments POk {A} a wide rest.
Arguments PErr {A}.
Arguments PFuel {A}.

Definition is_json_ws (c : ascii) : bool :=
  (Js.code c =? 32)%N || (Js.code c =? 9)%N
  || (Js.code c =? 10)%N || (Js.code c =? 13)%N.

Fixpoint skip_ws (s : string) : string :=
  match s with
  | String c rest => if is_json_ws c then skip_ws rest else s
  | EmptyString => s
  end.

Definition hex_value (c : ascii) : option N :=
  if Js.is_digit c then Some (Js.code c - 48)%N
  else if Js.in_range 97 102 c then Some (Js.code c - 87)%N
  else if Js.in_range 65 70 c then Some (Js.code c - 55)%N
  else None.

Definition hex4 (a b c d : ascii) : option N :=
  match hex_value a, hex_value b, hex_value c, hex_value d with
  | Some x, Some y, Some z, Some w => Some (((x * 16 + y) * 16 + z) * 16 + w)%N
  | _, _, _, _ => None
  end.

Definition snoc (s : string) (c : ascii) : string := s +:+ String c EmptyString.

(** The characters of a string literal after its opening quote. An
    escape above FF has no place in 8-bit text: it is read as a
    question mark and reported by the [wide] flag. *)
Fixpoint parse_string_body (s : string) (acc : string) (wide : bool)
  : presult string :=
  match s with
  | EmptyString => PErr
  | String c rest =>
      if Ascii.eqb c Js.dquote then POk acc wide rest
      else if Ascii.eqb c Js.backslash then
        match rest with
        | EmptyString => PErr
        | String e rest' =>
            if Ascii.eqb e Js.dquote then parse_string_body rest' (snoc acc Js.dquote) wide
            else if Ascii.eqb e Js.backslash then parse_string_body rest' (snoc acc Js.backslash) wide
            else if Ascii.eqb e "/" then parse_string_body rest' (snoc acc "/") wide
            else if Ascii.eqb e "b" then parse_string_body rest' (snoc acc (Js.chr 8)) wide
            else if Ascii.eqb e "f" then parse_string_body rest' (snoc acc (Js.chr 12)) wide
            else if Ascii.eqb e "n" then parse_string_body rest' (snoc acc (Js.chr 10)) wide
            else if Ascii.eqb e "r" then parse_string_body rest' (snoc acc (Js.chr 13)) wide
            else if Ascii.eqb e "t" then parse_string_body rest' (snoc acc (Js.chr 9)) wide
            else if Ascii.eqb e "u" then
              match rest' with
              | String h1 (String h2 (String h3 (String h4 rest''))) =>
                  match hex4 h1 h2 h3 h4 with
                  | Some n =>
                      if (n <? 256)%N
                      then parse_string_body rest'' (snoc acc (Js.chr n)) wide
                      else parse_string_body rest'' (snoc acc "?") true
                  | None => PErr
                  end
              | _ => PErr
              end
            else PErr
        end
      else if (Js.code c <? 32)%N then PErr
      else parse_string_body rest (snoc acc c) wide
  end.

(** A run of decimal digits: their value, how many, and what follows. *)
Fixpoint take_digits (s : string) (acc : N) (count : nat) : N * nat * string :=
  match s with
  | String c rest =>
      if Js.is_digit c
      then take_digits rest (acc * 10 + (Js.code c - 48))%N (S count)
      else (acc, count, s)
  | EmptyString => (acc, count, s)
  end.

(** [s] after its first character, when that is [c]. *)
Definition starts_with (c : ascii) (s : string) : option string :=
  match s with
  | String x rest => if Ascii.eqb x c then Some rest else None
  | EmptyString => None
  end.

(** The parts of a number literal: an optional minus; 0 or a run of
    digits that does not start with 0; an optional fraction, a point
    and digits, that extends the digits [n] read so far; an optional
    exponent, e or E, a sign and digits. *)
Definition parse_sign (s : string) : bool * string :=
  match starts_with "-" s with
  | Some rest => (true, rest)
  | None => (false, s)
  end.

Definition parse_int (s : string) : option (N * string) :=
  match starts_with "0" s with
  | Some rest => Some (0%N, rest)
  | None =>
      match s with
      | String c _ =>
          if Js.is_digit c then
            let '(n, _, rest) := take_digits s 0%N 0 in Some (n, rest)
          else None
      | EmptyString => None
      end
  end.

Definition parse_frac (n : N) (s : string) : option (N * nat * string) :=
  match starts_with "." s with
  | Some rest =>
      let '(m, count, rest') := take_digits rest n 0 in
      if Nat.eqb count 0 then None else Some (m, count, rest')
  | None => Some (n, 0, s)
  end.

Definition parse_exp (s : string) : option (Z * string) :=
  match s with
  | String e rest =>
      if Ascii.eqb e "e" || Ascii.eqb e "E" then
        let '(eneg, rest1) :=
          match starts_with "-" rest with
          | Some r => (true, r)
          | None =>
              match starts_with "+" rest with
              | Some r => (false, r)
              | None => (false, rest)
              end
          end in
        let '(x, count, rest2) := take_digits rest1 0%N 0 in
        if Nat.eqb count 0 then None
        else Some ((if eneg then - Z.of_N x else Z.of_N x)%Z, rest2)
      else Some (0%Z, s)
  | EmptyString => Some (0%Z, s)
  end.

Definition parse_number (s : string) : presult number :=
  let '(neg, s1) := parse_sign s in
  match parse_int s1 with
  | None => PErr
  | Some (n, s2) =>
      match parse_frac n s2 with
      | None => PErr
      | Some (m, fcount, s3) =>
          match parse_exp s3 with
          | None => PErr
          | Some (x, s4) =>
              POk {| negative := neg; mantissa := m;
                     exp10 := (x - Z.of_nat fcount)%Z |} false s4
          end
      end
  end.

Definition parse_keyword (word : string) (v : json) (s : string) : presult json :=
  if String.prefix word s then POk v false (Js.drop (String.length word) s)
  else PErr.

(** A value at the head of [s]; the members of an object after its
    brace, [s] being at a key; the elements of an array after its
    bracket, [s] being at a value. [fuel] bounds the recursion; more
    than twice the length of [s] is enough (Part II). *)
Fixpoint parse_value (fuel : nat) (s : string) {struct fuel} : presult json :=
  match fuel with
  | O => PFuel
  | S fuel' =>
      match s with
      | EmptyString => PErr
      | String c rest =>
          if Ascii.eqb c "{" then
            match starts_with "}" (skip_ws rest) with
            | Some rest' => POk (JObject []) false rest'
            | None => parse_members fuel' (skip_ws rest) [] false
            end
          else if Ascii.eqb c "[" then
            match starts_with "]" (skip_ws rest) with
            | Some rest' => POk (JArray []) false rest'
            | None => parse_elements fuel' (skip_ws rest) [] false
            end
          else if Ascii.eqb c Js.dquote then
            match parse_string_body rest EmptyString false with
            | POk str w rest' => POk (JString str) w rest'
            | PErr => PErr
            | PFuel => PFuel
            end
          else if Ascii.eqb c "t" then parse_keyword "true" (JBool true) s
          else if Ascii.eqb c "f" then parse_keyword "false" (JBool false) s
          else if Ascii.eqb c "n" then parse_keyword "null" JNull s
          else
            match parse_number s with
            | POk n w rest' => POk (JNumber n) w rest'
            | PErr => PErr
            | PFuel => PFuel
            end
      end
  end

with parse_members (fuel : nat) (s : string) (acc : list (string * json))
  (wide : bool) {struct fuel} : presult json :=
  match fuel with
  | O => PFuel
  | S fuel' =>
      match starts_with Js.dquote s with
      | None => PErr
      | Some rest =>
          match parse_string_body rest EmptyString false with
          | POk key w1 rest1 =>
              match starts_with ":" (skip_ws rest1) with
              | None => PErr
              | Some rest2 =>
                  match parse_value fuel' (skip_ws rest2) with
                  | POk v w2 rest3 =>
                      let acc' := obj_set acc key v in
                      let wide' := wide || w1 || w2 in
                      match starts_with "," (skip_ws rest3) with
                      | Some rest4 =>
                          parse_members fuel' (skip_ws rest4) acc' wide'
                      | None =>
                          match starts_with "}" (skip_ws rest3) with
                          | Some rest4 => POk (JObject acc') wide' rest4
                          | None => PErr
                          end
                      end
                  | PErr => PErr
                  | PFuel => PFuel
                  end
              end
          | PErr => PErr
          | PFuel => PFuel
          end
      end
  end

with parse_elements (fuel : nat) (s : string) (acc : list json)
  (wide : bool) {struct fuel} : presult json :=
  match fuel with
  | O => PFuel
  | S fuel' =>
      match parse_value fuel' s with
      | POk v w rest1 =>
          let acc' := acc ++ [v] in
          let wide' := wide || w in
          match starts_with "," (skip_ws rest1) with
          | Some rest2 => parse_elements fuel' (skip_ws rest2) acc' wide'
          | None =>
              match starts_with "]" (skip_ws rest1) with
              | Some rest2 => POk (JArray acc') wide' rest2
              | None => PErr
              end
          end
      | PErr => PErr
      | PFuel => PFuel
      end
  end.

(** What the bound on the recursion is enough for: with fuel above
    twice the length of the text the parse does not stop for lack of
    fuel, and what is left after a value is never longer than the
    text. *)
Definition enough_for_value (fuel : nat) : Prop :=
  forall s,
    (2 * String.length s < fuel -> parse_value fuel s <> PFuel)
    /\ forall a w rest, parse_value fuel s = POk a w rest ->
                        String.length rest <= String.length s.

Definition enough_for_members (fuel : nat) : Prop :=
  forall s acc wide,
    (2 * String.length s + 1 < fuel -> parse_members fuel s acc wide <> PFuel)
    /\ forall a w rest, parse_members fuel s acc wide = POk a w rest ->
                        String.length rest <= String.length s.

Definition enough_for_elements (fuel : nat) : Prop :=
  forall s acc wide,
    (2 * String.length s + 1 < fuel -> parse_elements fuel s acc wide <> PFuel)
    /\ forall a w rest, parse_elements fuel s acc wide = POk a w rest ->
                        String.length rest <= String.length s.

(** What JSON.parse does with a text: a value, a SyntaxError, or a
    value with a character that 8-bit text cannot hold. *)
Inductive parsed :=
| Value (v : json)
| SyntaxError
| BeyondLatin1.

Definition JSON_parse (text : string) : parsed :=
  match parse_value (2 * String.length text + 2) (skip_ws text) with
  | POk v wide rest =>
      match skip_ws rest with
      | EmptyString => if wide then BeyondLatin1 else Value v
      | String _ _ => SyntaxError
      end
  | PErr => SyntaxError
  | PFuel => SyntaxError
  end.

End Json.


(** ** Entities and detector results (types/index.ts, detectors/base.ts) *)

Record FileInfo := {
  path : string;
  relativePath : string;
  extension : string;
  content : string
}.

(** The type of a parameter is a type name, or, when the Go type is
    the name of a property that every object inherits, the inherited
    value found under that name. *)
Inductive schema_type :=
| TypeName (s : string)
| Inherited (property : string).

Record ParameterSchema := {
  type : schema_type;
  description : option string
}.

Module Tool.
Record t := {
  name : string;
  framework : Framework;
  source : string;
  line : nat;
  permission : Permission;
  risk : RiskLevel;
  description : option string;
  parameters : option (list (string * ParameterSchema));
  version : option string
}.
End Tool.

Module Agent.
Record t := {
  name : string;
  framework : Framework;
  source : string;
  line : nat;
  tools : list string;
  description : option string
}.
End Agent.

(** The command of a server is declared a string; it is whatever value
    the configuration holds, so it is kept as a JSON value, and so are
    args and env. *)
Module McpServer.
Record t := {
  name : string;
  command : Json.json;
  args : option Json.json;
  env : option Json.json;
  source : string
}.
End McpServer.

Record DetectorResult := {
  tools : list Tool.t;
  agents : list Agent.t;
  mcpServers : list McpServer.t
}.

Module Base.

(** BaseDetector.emptyResult *)
Definition emptyResult : DetectorResult :=
  {| tools := []; agents := []; mcpServers := [] |}.

Definition push_tool (r : DetectorResult) (x : Tool.t) : DetectorResult :=
  {| tools := tools r ++ [x]; agents := agents r; mcpServers := mcpServers r |}.
Definition push_agent (r : DetectorResult) (x : Agent.t) : DetectorResult :=
  {| tools := tools r; agents := agents r ++ [x]; mcpServers := mcpServers r |}.
Definition push_server (r : DetectorResult) (x : McpServer.t) : DetectorResult :=
  {| tools := tools r; agents := agents r; mcpServers := mcpServers r ++ [x] |}.

Fixpoint count_newlines (s : string) : nat :=
  match s with
  | EmptyString => 0
  | String c rest =>
      (if (Js.code c =? 10)%N then 1 else 0) + count_newlines rest
  end.

(** BaseDetector.getLineNumber *)
Definition getLineNumber (content : string) (index : nat) : nat :=
  let beforeMatch := Js.take index content in
  count_newlines beforeMatch + 1.

(** The argument of createTool: name, source and line are required, the
    other properties may be left out. *)
Record PartialTool := {
  p_name : string;
  p_source : string;
  p_line : nat;
  p_framework : option Framework;
  p_permission : option Permission;
  p_risk : option RiskLevel;
  p_description : option string;
  p_parameters : option (list (string * ParameterSchema));
  p_version : option string
}.

(** createTool: the defaults, overridden by what [partial] gives. *)
Definition createTool (partial : PartialTool) : Tool.t :=
  {| Tool.name := p_name partial;
     Tool.framework := default fw_unknown (p_framework partial);
     Tool.source := p_source partial;
     Tool.line := p_line partial;
     Tool.permission := default UNKNOWN (p_permission partial);
     Tool.risk := default MEDIUM (p_risk partial);
     Tool.description := p_description partial;
     Tool.parameters := p_parameters partial;
     Tool.version := p_version partial |}.

(** createAgent, with framework, tools and description always given or
    defaulted by the caller's literal. *)
Definition createAgent (name : string) (source : string) (line : nat)
  (framework : option Framework) (tools : option (list string))
  (description : option string) : Agent.t :=
  {| Agent.name := name;
     Agent.framework := default fw_unknown framework;
     Agent.source := source;
     Agent.line := line;
     Agent.tools := default [] tools;
     Agent.description := description |}.

(** createMcpServer *)
Definition createMcpServer (name : string) (command : Json.json)
  (args env : option Json.json) (source : string) : McpServer.t :=
  {| McpServer.name := name;
     McpServer.command := command;
     McpServer.args := args;
     McpServer.env := env;
     McpServer.source := source |}.

(** The template literal that locates an entity: path, colon, line. *)
Definition locator (file : FileInfo) (line : nat) : string :=
  relativePath file +:+ ":" +:+ Js.of_nat line.

End Base.

(** ** The MCP configuration detector (detectors/mcp-config.ts) *)

Module McpConfig.
Import Regex Json.

Definition MCP_CONFIG_FILES : list string :=
  [ "mcp_settings.json"; "mcp.json"; "claude_desktop_config.json" ].

Definition path_sep : regex := one_of [ "/"%char; Js.backslash ].

(** The three path patterns; none is global, so none keeps a state. *)
Definition MCP_PATH_PATTERNS : list RegExp :=
  [ {| source := cat [lit ".cursor"; path_sep; lit "mcp.json"; REnd];
       global := false; ignoreCase := false |};
    {| source := cat [lit "mcp"; opt (one_of ["_"%char; "-"%char]);
                      lit "settings.json"; REnd];
       global := false; ignoreCase := true |};
    {| source := cat [lit "mcp"; opt (one_of ["_"%char; "-"%char]);
                      lit "config.json"; REnd];
       global := false; ignoreCase := true |} ].

(** relativePath.split(/[/\\]/).pop() || '': what follows the last
    slash or backslash. *)
Fixpoint last_segment (cur : string) (s : string) : string :=
  match s with
  | EmptyString => cur
  | String c rest =>
      if Ascii.eqb c "/" || Ascii.eqb c Js.backslash
      then last_segment EmptyString rest
      else last_segment (cur +:+ String c EmptyString) rest
  end.

(** isMcpConfigFile *)
Definition isMcpConfigFile (file : FileInfo) : bool :=
  let filename := last_segment EmptyString (relativePath file) in
  if existsb (String.eqb filename) MCP_CONFIG_FILES then true
  else if existsb (fun pattern => fst (test pattern 0 (relativePath file)))
            MCP_PATH_PATTERNS then true
  else if Js.includes (content file) "mcpServers"
          || (Js.includes (content file) (Js.dq "'servers'")
              && Js.includes (content file) (Js.dq "'command'")) then true
  else false.

(** parseServerConfig *)
Definition parseServerConfig (name : string) (config : json) (file : FileInfo)
  : option McpServer.t :=
  if truthy (get config "command") then
    Some (Base.createMcpServer name (default JNull (get config "command"))
            (get config "args") (get config "env") (relativePath file))
  else if truthy (get config "url") then
    Some (Base.createMcpServer name (default JNull (get config "url"))
            None None (relativePath file))
  else None.

(** Is [k] an array index: the decimal text, without a leading zero, of
    a number below 2^32 - 1? Such keys come first in an object. *)
Definition array_index (k : string) : option N :=
  match k with
  | EmptyString => None
  | String c rest =>
      let '(n, _, others) := take_digits k 0%N 0 in
      if negb (Js.nonempty others)
         && (negb (Ascii.eqb c "0") || negb (Js.nonempty rest))
         && (n <? 4294967295)%N
      then Some n else None
  end.

Fixpoint insert_by_index (x : N * (string * json))
  (l : list (N * (string * json))) : list (N * (string * json)) :=
  match l with
  | [] => [x]
  | y :: rest =>
      if (fst x <? fst y)%N then x :: l else y :: insert_by_index x rest
  end.

(** The own properties of an object in the order of enumeration: array
    indices rising, then the other keys as they were created. *)
Definition own_properties (fields : list (string * json))
  : list (string * json) :=
  let indexed :=
    omap (fun kv => (fun n => (n, kv)) <$> array_index (fst kv)) fields in
  let named :=
    List.filter (fun kv => negb (bool_decide (is_Some (array_index (fst kv)))))
      fields in
  (snd <$> foldr insert_by_index [] indexed) ++ named.

Fixpoint chars_from (i : nat) (s : string) : list (string * json) :=
  match s with
  | EmptyString => []
  | String c rest =>
      (Js.of_nat i, JString (String c EmptyString)) :: chars_from (S i) rest
  end.

(** Object.entries of a value that is neither null nor undefined. *)
Definition Object_entries (v : json) : list (string * json) :=
  match v with
  | JObject fields => own_properties fields
  | JArray items => imap (fun i x => (Js.of_nat i, x)) items
  | JString s => chars_from 0 s
  | JNumber _ | JBool _ | JNull => []
  end.

Inductive error := SyntaxErr | TypeErr.

Inductive completion := Normal | Throw (e : error).

(** One turn of the loop over the entries. *)
Definition visit_entry (file : FileInfo) (result : DetectorResult)
  (entry : string * json) : DetectorResult :=
  let '(serverName, serverConfig) := entry in
  if negb (truthy (Some serverConfig)) || negb (is_object_type serverConfig)
  then result
  else
    match parseServerConfig serverName serverConfig file with
    | Some mcpServer => Base.push_server result mcpServer
    | None => result
    end.

(** What one entry adds: nothing, or the server that parseServerConfig
    makes of it. *)
Definition server_of_entry (file : FileInfo) (entry : string * json)
  : option McpServer.t :=
  if negb (truthy (Some (snd entry))) || negb (is_object_type (snd entry))
  then None
  else parseServerConfig (fst entry) (snd entry) file.

(** config.mcpServers || config.servers || {}, for a config that is
    not null *)
Definition server_map (config : json) : json :=
  if truthy (get config "mcpServers")
  then default JNull (get config "mcpServers")
  else if truthy (get config "servers")
  then default JNull (get config "servers")
  else JObject [].

(** The body of the try block: it works on [result] in place and ends
    normally or by a throw: JSON.parse throws a SyntaxError, reading a
    property of null throws a TypeError. [None]: the text holds a
    character outside the 8-bit alphabet of the model. *)
Definition try_block (file : FileInfo) (result : DetectorResult)
  : option (DetectorResult * completion) :=
  match JSON_parse (content file) with
  | BeyondLatin1 => None
  | SyntaxError => Some (result, Throw SyntaxErr)
  | Value JNull => Some (result, Throw TypeErr)
  | Value config =>
      let servers := server_map config in
      Some (fold_left (visit_entry file) (Object_entries servers) result,
            Normal)
  end.

(** detect: the catch clause is empty, so after a throw the result is
    returned as the try block left it. *)
Definition detect (file : FileInfo) : option DetectorResult :=
  let result := Base.emptyResult in
  if negb (isMcpConfigFile file) then Some result
  else
    match try_block file result with
    | Some (result', Normal) => Some result'
    | Some (result', Throw _) => Some result'
    | None => None
    end.

End McpConfig.


(** ** The TypeScript/JavaScript detector (detectors/typescript.ts) *)

Module TypeScript.
Import Regex.

Definition quote3 : regex := one_of [Js.dquote; Js.squote; Js.backquote].
Definition quote2 : regex := one_of [Js.dquote; Js.squote].
Definition quoted_name : regex :=
  cat [quote3; RGroup 1 (plus (none_of [Js.dquote; Js.squote; Js.backquote]));
       quote3].
Definition chr (c : ascii) : regex := RChar c.
Definition g (r : regex) : RegExp :=
  {| source := r; global := true; ignoreCase := false |}.

(** The module's table of patterns. Those with the g flag are objects
    shared by all calls. *)
Module PATTERNS.

Definition serverTool : RegExp :=
  g (cat [lit ".tool"; star ws; chr "("; star ws; quoted_name]).

Definition mcpServerClass : RegExp :=
  g (cat [opt (cat [lit "new"; plus ws]); lit "McpServer";
          opt (lit ".create"); star ws; chr "("; star ws; chr "{";
          RGroup 1 (star (none_of ["}"%char])); chr "}"]).

Definition mcpServerName : RegExp :=
  {| source := cat [lit "name"; star ws; chr ":"; star ws; quoted_name];
     global := false; ignoreCase := false |}.

Definition toolDescription : RegExp :=
  g (cat [lit "description"; star ws; chr ":"; star ws; quoted_name]).

Definition name_in_braces : regex :=
  cat [chr "{"; star (none_of ["}"%char]); lit "name"; star ws; chr ":";
       star ws; quoted_name].

Definition langchainTool : RegExp :=
  g (cat [alts [lit "DynamicTool"; lit "StructuredTool"; lit "Tool"];
          star ws; chr "("; star ws; name_in_braces]).

Definition langchainToolFunc : RegExp :=
  g (cat [lit "tool"; star ws; chr "("; star ws;
          opt (cat [lit "async"; star ws]);
          chr "("; star (none_of [")"%char]); chr ")"; star ws; lit "=>";
          star ws; chr "{"; star (none_of ["}"%char]); chr "}"; star ws;
          chr ","; star ws; name_in_braces]).

Definition mcpImport : RegExp :=
  g (RAlt (cat [lit "from"; plus ws; quote2; lit "@modelcontextprotocol/sdk";
                quote2])
          (cat [lit "from"; plus ws; quote2; lit "mcp"; quote2])).

Definition langchainImport : RegExp :=
  g (RAlt (cat [lit "from"; plus ws; quote2; lit "@langchain/";
                plus (none_of [Js.dquote; Js.squote]); quote2])
          (cat [lit "from"; plus ws; quote2; lit "langchain";
                star (none_of [Js.dquote; Js.squote]); quote2])).

Definition createTool : RegExp :=
  g (cat [alts [lit "createTool"; lit "defineTool"; lit "makeTool"];
          star ws; chr "("; star ws; name_in_braces]).

Definition jsdocTool : RegExp :=
  g (cat [lit "/**"; star (none_of ["*"%char]); lit "@tool";
          star (none_of ["*"%char]); lit "*/"; star ws;
          opt (cat [lit "export"; plus ws]);
          opt (cat [lit "async"; plus ws]);
          lit "function"; plus ws; RGroup 1 (plus word)]).

End PATTERNS.

(** What lives on between two calls of detect: the lastIndex of the two
    shared patterns that detectFramework runs with test, and the
    detector's field detectedFramework. *)
Record state := {
  mcpImport_lastIndex : nat;
  langchainImport_lastIndex : nat;
  detectedFramework : Framework
}.

(** A detector just created, the module just loaded. *)
Definition initial : state :=
  {| mcpImport_lastIndex := 0;
     langchainImport_lastIndex := 0;
     detectedFramework := fw_unknown |}.

(** detectFramework: the framework, and the patterns' state after it. *)
Definition detectFramework (st : state) (content : string)
  : Framework * state :=
  let '(found, i1) := test PATTERNS.mcpImport (mcpImport_lastIndex st) content in
  if found then
    (fw_mcp, {| mcpImport_lastIndex := i1;
                langchainImport_lastIndex := langchainImport_lastIndex st;
                detectedFramework := detectedFramework st |})
  else
    let '(found2, i2) :=
      test PATTERNS.langchainImport (langchainImport_lastIndex st) content in
    let st' := {| mcpImport_lastIndex := i1;
                  langchainImport_lastIndex := i2;
                  detectedFramework := detectedFramework st |} in
    if found2 then (fw_custom, st') else (fw_unknown, st').

(** createToolFromName *)
Definition createToolFromName (name : string) (file : FileInfo) (line : nat)
  (framework : Framework) (description : option string) : Tool.t :=
  let permission := Inference.inferPermission name description in
  let risk := Inference.inferRisk permission in
  Base.createTool
    {| Base.p_name := name;
       Base.p_source := Base.locator file line;
       Base.p_line := line;
       Base.p_framework := Some framework;
       Base.p_permission := Some permission;
       Base.p_risk := Some risk;
       Base.p_description := description;
       Base.p_parameters := None;
       Base.p_version := None |}.

(** match[1]; group 1 takes part in every match of these patterns. *)
Definition group1 (m : match_result) : string := default EmptyString (group m 1).

(** detectServerTools. The description pattern is global, so match
    returns the texts of its matches and descMatch[1] is the second. *)
Definition detectServerTools (content : string) (file : FileInfo)
  (result : DetectorResult) : DetectorResult :=
  fold_left (fun result m =>
    let toolName := group1 m in
    let line := Base.getLineNumber content (index m) in
    let nearbyContent := Js.slice (index m) 500 content in
    let descMatch := string_match PATTERNS.toolDescription 1 nearbyContent in
    let description :=
      match descMatch with
      | Some found => mjoin (found !! 1)
      | None => None
      end in
    Base.push_tool result
      (createToolFromName toolName file line fw_mcp description))
    (exec_all (fresh PATTERNS.serverTool true false) content) result.

(** detectMcpServers *)
Definition detectMcpServers (content : string) (file : FileInfo)
  (result : DetectorResult) : DetectorResult :=
  fold_left (fun result m =>
    let configContent := group1 m in
    let line := Base.getLineNumber content (index m) in
    let nameMatch := string_match PATTERNS.mcpServerName 1 configContent in
    let serverName :=
      match nameMatch with
      | Some found => default EmptyString (mjoin (found !! 1))
      | None => "mcp-server-" +:+ Js.of_nat line
      end in
    Base.push_server result
      (Base.createMcpServer serverName (Json.JString "typescript") None None
         (Base.locator file line)))
    (exec_all (fresh PATTERNS.mcpServerClass true false) content) result.

(** One loop of the shape shared by the remaining passes: every match
    of [pattern] gives a tool named by group 1. *)
Definition tools_of_matches (pattern : RegExp) (framework : Framework)
  (content : string) (file : FileInfo) (result : DetectorResult)
  : DetectorResult :=
  fold_left (fun result m =>
    let toolName := group1 m in
    let line := Base.getLineNumber content (index m) in
    Base.push_tool result
      (createToolFromName toolName file line framework None))
    (exec_all (fresh pattern true false) content) result.

(** detectLangChainTools *)
Definition detectLangChainTools (content : string) (file : FileInfo)
  (result : DetectorResult) : DetectorResult :=
  let result := tools_of_matches PATTERNS.langchainTool fw_custom content file result in
  tools_of_matches PATTERNS.langchainToolFunc fw_custom content file result.

(** detectCreateToolPatterns *)
Definition detectCreateToolPatterns (st : state) (content : string)
  (file : FileInfo) (result : DetectorResult) : DetectorResult :=
  tools_of_matches PATTERNS.createTool (detectedFramework st) content file result.

(** detectJsDocTools *)
Definition detectJsDocTools (st : state) (content : string)
  (file : FileInfo) (result : DetectorResult) : DetectorResult :=
  tools_of_matches PATTERNS.jsdocTool (detectedFramework st) content file result.

(** detect *)
Definition detect (st : state) (file : FileInfo) : DetectorResult * state :=
  let result := Base.emptyResult in
  let content := content file in
  let '(fw, st1) := detectFramework st content in
  let st2 := {| mcpImport_lastIndex := mcpImport_lastIndex st1;
                langchainImport_lastIndex := langchainImport_lastIndex st1;
                detectedFramework := fw |} in
  let result := detectServerTools content file result in
  let result := detectMcpServers content file result in
  let result := detectLangChainTools content file result in
  let result := detectCreateToolPatterns st2 content file result in
  let result := detectJsDocTools st2 content file result in
  (result, st2).

End TypeScript.


(** ** The Python detector (detectors/python.ts) *)

Module Python.
Import Regex.

Definition quote2 : regex := one_of [Js.dquote; Js.squote].
Definition quoted_name : regex :=
  cat [quote2; RGroup 1 (plus (none_of [Js.dquote; Js.squote])); quote2].
Definition chr (c : ascii) : regex := RChar c.
Definition any_char : regex := RClass false [CSpace; CNotSpace].
Definition g (r : regex) : RegExp :=
  {| source := r; global := true; ignoreCase := false |}.
Definition gi (r : regex) : RegExp :=
  {| source := r; global := true; ignoreCase := true |}.
Definition triple (c : ascii) : regex := cat [chr c; chr c; chr c].

(** What follows a decorator up to the opening parenthesis of the
    function: an optional async, def, and the name as group 1. *)
Definition def_name : regex :=
  cat [star ws; opt (cat [lit "async"; plus ws]); lit "def"; plus ws;
       RGroup 1 (plus word); star ws; chr "("].

Definition call_args : regex :=
  cat [star ws; chr "("; star (none_of [")"%char]); chr ")"].

(** from X[.\w]* import, or import X *)
Definition import_of (module : string) : regex :=
  RAlt (cat [lit "from"; plus ws; lit module;
             star (RClass false [CChar "."; CWord]); plus ws; lit "import"])
       (cat [lit "import"; plus ws; lit module]).

Module PATTERNS.

Definition toolDecorator : RegExp :=
  g (cat [lit "@tool"; opt call_args; def_name]).

Definition mcpToolDecorator : RegExp :=
  g (cat [chr "@"; opt (cat [plus word; chr "."]); opt (lit "mcp.");
          lit "tool"; call_args; def_name]).

Definition fastMcpInstance : RegExp :=
  g (cat [RGroup 1 (plus word); star ws; chr "="; star ws; lit "FastMCP";
          star ws; chr "("]).

Definition toolArray : RegExp :=
  gi (cat [alts [lit "TOOLS"; lit "LOCAL_TOOLS"; lit "AVAILABLE_TOOLS";
                 lit "tools"; lit "local_tools"];
           star ws; chr "="; star ws; chr "[";
           RGroup 1 (lazy_star any_char); chr "]"]).

Definition toolClass : RegExp :=
  g (cat [lit "Tool"; star ws; chr "("; star ws; lit "name"; star ws;
          chr "="; star ws; quoted_name]).

Definition toolCapability : RegExp :=
  g (cat [lit "ToolCapability"; star ws; chr "("; star ws; lit "name";
          star ws; chr "="; star ws; quoted_name]).

Definition langGraphNode : RegExp :=
  g (cat [lit ".add_node"; star ws; chr "("; star ws; quoted_name]).

Definition langGraphClass : RegExp :=
  g (cat [alts [lit "StateGraph"; lit "MessageGraph"; lit "Graph"];
          star ws; chr "("]).

Definition crewAiAgent : RegExp :=
  g (cat [lit "Agent"; star ws; chr "("; star (none_of [")"%char]);
          lit "role"; star ws; chr "="; star ws; quoted_name;
          star (none_of [")"%char]); chr ")"]).

Definition autoGenAgent : RegExp :=
  g (cat [alts [lit "AssistantAgent"; lit "UserProxyAgent";
                lit "ConversableAgent"];
          star ws; chr "("; star (none_of [")"%char]);
          lit "name"; star ws; chr "="; star ws; quoted_name]).

Definition funcWithDocstring : RegExp :=
  g (cat [opt (cat [lit "async"; plus ws]); lit "def"; plus ws;
          RGroup 1 (plus word); star ws; chr "(";
          star (none_of [")"%char]); chr ")"; star (none_of [":"%char]);
          chr ":"; star ws;
          RAlt (cat [triple Js.dquote; RGroup 2 (lazy_star any_char);
                     triple Js.dquote])
               (cat [triple Js.squote; RGroup 3 (lazy_star any_char);
                     triple Js.squote])]).

Definition langchainImport : RegExp := g (import_of "langchain").
Definition langGraphImport : RegExp := g (import_of "langgraph").
Definition crewAiImport : RegExp := g (import_of "crewai").
Definition autoGenImport : RegExp := g (import_of "autogen").
Definition mcpImport : RegExp :=
  g (RAlt (import_of "mcp")
          (cat [lit "from"; plus ws; lit "fastmcp"; plus ws; lit "import"])).

End PATTERNS.

(** The function names of a tool array: a word that starts with a
    letter or underscore and is not followed by = or an opening
    parenthesis. The literal is evaluated anew at each use. *)
Definition funcName_pattern : RegExp :=
  gi (cat [RBoundary;
           RGroup 1 (cat [RClass false [CRange 97 122; CChar "_"];
                          star (RClass false
                                  [CRange 97 122; CRange 48 57; CChar "_"])]);
           RBoundary;
           RNotAhead (cat [star ws; one_of ["="%char; "("%char]])]).

Definition agent_tools_pattern : RegExp :=
  {| source := cat [lit "tools"; star ws; chr "="; star ws; chr "[";
                    RGroup 1 (star (none_of ["]"%char])); chr "]"];
     global := false; ignoreCase := false |}.

(** What lives on between two calls of detect: the lastIndex of the six
    shared patterns run with test, and the detector's two fields. *)
Record state := {
  mcpImport_lastIndex : nat;
  langGraphImport_lastIndex : nat;
  crewAiImport_lastIndex : nat;
  autoGenImport_lastIndex : nat;
  langchainImport_lastIndex : nat;
  langGraphClass_lastIndex : nat;
  docstrings : gmap string string;
  detectedFramework : Framework
}.

Definition initial : state :=
  {| mcpImport_lastIndex := 0;
     langGraphImport_lastIndex := 0;
     crewAiImport_lastIndex := 0;
     autoGenImport_lastIndex := 0;
     langchainImport_lastIndex := 0;
     langGraphClass_lastIndex := 0;
     docstrings := ∅;
     detectedFramework := fw_unknown |}.

(** detectFramework: the tests run in turn until one succeeds; each one
    that runs leaves its pattern's lastIndex behind. *)
Definition detectFramework (st : state) (content : string)
  : Framework * state :=
  let '(mcp, i1) := test PATTERNS.mcpImport (mcpImport_lastIndex st) content in
  let st := {| mcpImport_lastIndex := i1;
    langGraphImport_lastIndex := langGraphImport_lastIndex st;
    crewAiImport_lastIndex := crewAiImport_lastIndex st;
    autoGenImport_lastIndex := autoGenImport_lastIndex st;
    langchainImport_lastIndex := langchainImport_lastIndex st;
    langGraphClass_lastIndex := langGraphClass_lastIndex st;
    docstrings := docstrings st; detectedFramework := detectedFramework st |} in
  if mcp then (fw_mcp, st) else
  let '(langgraph, i2) :=
    test PATTERNS.langGraphImport (langGraphImport_lastIndex st) content in
  let st := {| mcpImport_lastIndex := mcpImport_lastIndex st;
    langGraphImport_lastIndex := i2;
    crewAiImport_lastIndex := crewAiImport_lastIndex st;
    autoGenImport_lastIndex := autoGenImport_lastIndex st;
    langchainImport_lastIndex := langchainImport_lastIndex st;
    langGraphClass_lastIndex := langGraphClass_lastIndex st;
    docstrings := docstrings st; detectedFramework := detectedFramework st |} in
  if langgraph then (fw_langraph, st) else
  let '(crewai, i3) :=
    test PATTERNS.crewAiImport (crewAiImport_lastIndex st) content in
  let st := {| mcpImport_lastIndex := mcpImport_lastIndex st;
    langGraphImport_lastIndex := langGraphImport_lastIndex st;
    crewAiImport_lastIndex := i3;
    autoGenImport_lastIndex := autoGenImport_lastIndex st;
    langchainImport_lastIndex := langchainImport_lastIndex st;
    langGraphClass_lastIndex := langGraphClass_lastIndex st;
    docstrings := docstrings st; detectedFramework := detectedFramework st |} in
  if crewai then (fw_crewai, st) else
  let '(autogen, i4) :=
    test PATTERNS.autoGenImport (autoGenImport_lastIndex st) content in
  let st := {| mcpImport_lastIndex := mcpImport_lastIndex st;
    langGraphImport_lastIndex := langGraphImport_lastIndex st;
    crewAiImport_lastIndex := crewAiImport_lastIndex st;
    autoGenImport_lastIndex := i4;
    langchainImport_lastIndex := langchainImport_lastIndex st;
    langGraphClass_lastIndex := langGraphClass_lastIndex st;
    docstrings := docstrings st; detectedFramework := detectedFramework st |} in
  if autogen then (fw_autogen, st) else
  let '(langchain, i5) :=
    test PATTERNS.langchainImport (langchainImport_lastIndex st) content in
  let st := {| mcpImport_lastIndex := mcpImport_lastIndex st;
    langGraphImport_lastIndex := langGraphImport_lastIndex st;
    crewAiImport_lastIndex := crewAiImport_lastIndex st;
    autoGenImport_lastIndex := autoGenImport_lastIndex st;
    langchainImport_lastIndex := i5;
    langGraphClass_lastIndex := langGraphClass_lastIndex st;
    docstrings := docstrings st; detectedFramework := detectedFramework st |} in
  if langchain then (fw_custom, st) else (fw_unknown, st).

(** String.prototype.trim *)
Fixpoint trim_start (s : string) : string :=
  match s with
  | String c rest => if Js.is_space c then trim_start rest else s
  | EmptyString => s
  end.

Fixpoint trim_end (s : string) : string :=
  match s with
  | String c rest =>
      match trim_end rest with
      | EmptyString => if Js.is_space c then EmptyString else String c EmptyString
      | kept => String c kept
      end
  | EmptyString => s
  end.

Definition trim (s : string) : string := trim_end (trim_start s).

(** s.split(sep) for a separator of one character *)
Fixpoint split_char (sep : ascii) (cur : string) (s : string) : list string :=
  match s with
  | EmptyString => [cur]
  | String c rest =>
      if Ascii.eqb c sep then cur :: split_char sep EmptyString rest
      else split_char sep (cur +:+ String c EmptyString) rest
  end.

Fixpoint remove_chars (p : ascii -> bool) (s : string) : string :=
  match s with
  | EmptyString => EmptyString
  | String c rest =>
      if p c then remove_chars p rest else String c (remove_chars p rest)
  end.

Definition first_truthy (a b : option string) : string :=
  match a with
  | Some x => if Js.nonempty x then x else
                match b with
                | Some y => y
                | None => EmptyString
                end
  | None => match b with
            | Some y => y
            | None => EmptyString
            end
  end.

Definition group1 (m : match_result) : string := default EmptyString (group m 1).

(** extractDocstrings: the table is cleared, then filled *)
Definition extractDocstrings (content : string) : gmap string string :=
  fold_left (fun (table : gmap string string) m =>
    let funcName := group1 m in
    let docstring := trim (first_truthy (group m 2) (group m 3)) in
    if Js.nonempty docstring then
      let firstLine :=
        trim (default EmptyString
                (List.head (split_char (Js.chr 10) EmptyString docstring))) in
      <[funcName := firstLine]> table
    else table)
    (exec_all (fresh PATTERNS.funcWithDocstring true false) content) ∅.

(** createToolFromName *)
Definition createToolFromName (st : state) (name : string) (file : FileInfo)
  (line : nat) (framework : Framework) : Tool.t :=
  let description := docstrings st !! name in
  let permission := Inference.inferPermission name description in
  let risk := Inference.inferRisk permission in
  Base.createTool
    {| Base.p_name := name;
       Base.p_source := Base.locator file line;
       Base.p_line := line;
       Base.p_framework := Some framework;
       Base.p_permission := Some permission;
       Base.p_risk := Some risk;
       Base.p_description := description;
       Base.p_parameters := None;
       Base.p_version := None |}.

Definition tools_of_matches (st : state) (pattern : RegExp) (i : bool)
  (framework : Framework) (content : string) (file : FileInfo)
  (result : DetectorResult) : DetectorResult :=
  fold_left (fun result m =>
    let toolName := group1 m in
    let line := Base.getLineNumber content (index m) in
    Base.push_tool result (createToolFromName st toolName file line framework))
    (exec_all (fresh pattern true i) content) result.

(** detectToolDecorators *)
Definition detectToolDecorators (st : state) (content : string)
  (file : FileInfo) (result : DetectorResult) : DetectorResult :=
  let result :=
    tools_of_matches st PATTERNS.toolDecorator false fw_custom content file result in
  tools_of_matches st PATTERNS.mcpToolDecorator false fw_mcp content file result.

(** detectFastMcpTools: first the names bound to a FastMCP instance,
    then, for each, the functions decorated through that name. *)
Definition detectFastMcpTools (st : state) (content : string)
  (file : FileInfo) (result : DetectorResult) : DetectorResult :=
  let instances :=
    group1 <$> exec_all (fresh PATTERNS.fastMcpInstance true false) content in
  fold_left (fun result instance =>
    let toolPattern :=
      g (cat [chr "@"; lit instance; lit ".tool"; call_args; def_name]) in
    tools_of_matches st toolPattern false fw_fastmcp content file result)
    instances result.

Definition NOT_FUNCTIONS : list string :=
  [ "True"; "False"; "None"; "and"; "or"; "not"; "if"; "else" ].

(** detectToolCollections *)
Definition detectToolCollections (st : state) (content : string)
  (file : FileInfo) (result : DetectorResult) : DetectorResult :=
  let result :=
    fold_left (fun result m =>
      let arrayContent := group1 m in
      let line := Base.getLineNumber content (index m) in
      let funcNames :=
        match string_match funcName_pattern 1 arrayContent with
        | Some found => omap id found
        | None => []
        end in
      fold_left (fun result funcName =>
        if existsb (String.eqb funcName) NOT_FUNCTIONS then result
        else Base.push_tool result
               (createToolFromName st funcName file line (detectedFramework st)))
        funcNames result)
      (exec_all (fresh PATTERNS.toolArray true true) content) result in
  let result :=
    tools_of_matches st PATTERNS.toolCapability false (detectedFramework st)
      content file result in
  tools_of_matches st PATTERNS.toolClass false (detectedFramework st)
    content file result.

(** detectLangGraphNodes: the guard runs a shared pattern with test. *)
Definition detectLangGraphNodes (st : state) (content : string)
  (file : FileInfo) (result : DetectorResult) : DetectorResult * state :=
  let '(found, i) :=
    test PATTERNS.langGraphClass (langGraphClass_lastIndex st) content in
  let st' := {| mcpImport_lastIndex := mcpImport_lastIndex st;
    langGraphImport_lastIndex := langGraphImport_lastIndex st;
    crewAiImport_lastIndex := crewAiImport_lastIndex st;
    autoGenImport_lastIndex := autoGenImport_lastIndex st;
    langchainImport_lastIndex := langchainImport_lastIndex st;
    langGraphClass_lastIndex := i;
    docstrings := docstrings st; detectedFramework := detectedFramework st |} in
  if negb found then (result, st')
  else
    (fold_left (fun result m =>
       let nodeName := group1 m in
       let line := Base.getLineNumber content (index m) in
       Base.push_agent result
         (Base.createAgent nodeName (Base.locator file line) line
            (Some fw_langraph) None (Some "LangGraph node")))
       (exec_all (fresh PATTERNS.langGraphNode true false) content) result,
     st').

(** detectCrewAiAgents *)
Definition detectCrewAiAgents (content : string) (file : FileInfo)
  (result : DetectorResult) : DetectorResult :=
  fold_left (fun result m =>
    let roleName := group1 m in
    let line := Base.getLineNumber content (index m) in
    let agentBlock := Js.slice (index m) 500 content in
    let toolsMatch := string_match agent_tools_pattern 1 agentBlock in
    let tools :=
      match toolsMatch with
      | Some found =>
          List.filter Js.nonempty
            ((fun t => remove_chars
                         (fun c => Ascii.eqb c Js.squote || Ascii.eqb c Js.dquote)
                         (trim t))
             <$> split_char "," EmptyString
                   (default EmptyString (mjoin (found !! 1))))
      | None => []
      end in
    Base.push_agent result
      (Base.createAgent roleName (Base.locator file line) line
         (Some fw_crewai) (Some tools)
         (Some ("CrewAI agent with role: " +:+ roleName))))
    (exec_all (fresh PATTERNS.crewAiAgent true false) content) result.

(** detectAutoGenAgents *)
Definition detectAutoGenAgents (content : string) (file : FileInfo)
  (result : DetectorResult) : DetectorResult :=
  fold_left (fun result m =>
    let agentName := group1 m in
    let line := Base.getLineNumber content (index m) in
    Base.push_agent result
      (Base.createAgent agentName (Base.locator file line) line
         (Some fw_autogen) None (Some "AutoGen agent")))
    (exec_all (fresh PATTERNS.autoGenAgent true false) content) result.

(** detect *)
Definition detect (st : state) (file : FileInfo) : DetectorResult * state :=
  let result := Base.emptyResult in
  let content := content file in
  let '(fw, st) := detectFramework st content in
  let st := {| mcpImport_lastIndex := mcpImport_lastIndex st;
    langGraphImport_lastIndex := langGraphImport_lastIndex st;
    crewAiImport_lastIndex := crewAiImport_lastIndex st;
    autoGenImport_lastIndex := autoGenImport_lastIndex st;
    langchainImport_lastIndex := langchainImport_lastIndex st;
    langGraphClass_lastIndex := langGraphClass_lastIndex st;
    docstrings := extractDocstrings content; detectedFramework := fw |} in
  let result := detectToolDecorators st content file result in
  let result := detectFastMcpTools st content file result in
  let result := detectToolCollections st content file result in
  let '(result, st) := detectLangGraphNodes st content file result in
  let result := detectCrewAiAgents content file result in
  let result := detectAutoGenAgents content file result in
  (result, st).

End Python.


(** ** The Go detector (detectors/go.ts) *)

Module Go.
Import Regex.

Definition quote3 : regex := one_of [Js.dquote; Js.squote; Js.backquote].
Definition quote2 : regex := one_of [Js.dquote; Js.squote].
Definition chr (c : ascii) : regex := RChar c.
Definition g (r : regex) : RegExp :=
  {| source := r; global := true; ignoreCase := false |}.
Definition quoted (n : nat) : regex :=
  cat [quote3; RGroup n (plus (none_of [Js.dquote; Js.squote; Js.backquote]));
       quote3].

(** var PrefixKind [pkg.][capabilities.]Kind = 'value' *)
Definition declaration (kind : string) : regex :=
  cat [lit "var"; plus ws; RGroup 1 (plus word); lit kind; plus ws;
       opt (cat [plus word; chr "."]); opt (lit "capabilities."); lit kind;
       star ws; chr "="; star ws; quoted 2].

Module PATTERNS.

Definition capabilityType : RegExp := g (declaration "Type").
Definition capabilityVersion : RegExp := g (declaration "Version").

Definition inputStruct : RegExp :=
  g (cat [lit "type"; plus ws; RGroup 1 (plus word); lit "Input"; plus ws;
          lit "struct"; star ws; chr "{";
          RGroup 2 (star (none_of ["}"%char])); chr "}"]).

Definition structField : RegExp :=
  g (cat [RGroup 1 (plus word); plus ws; RGroup 2 (plus word); plus ws;
          chr Js.backquote; lit "json:"; chr Js.dquote;
          RGroup 3 (plus (none_of [Js.dquote])); chr Js.dquote]).

Definition toolRegister : RegExp :=
  g (cat [RAlt (lit "register") (lit "Register");
          opt (RAlt (lit "Tool") (lit "Capability"));
          star ws; chr "("; star ws; quoted 1]).

Definition toolFunction : RegExp :=
  g (cat [lit "func"; plus ws;
          RGroup 1 (cat [plus word;
                         alts [lit "Tool"; lit "Handler"; lit "Capability"]]);
          star ws; chr "("]).

Definition capabilitiesImport : RegExp :=
  g (cat [lit "import"; star ws; opt (cat [chr "("; star ws]);
          star (none_of [")"%char]); quote2; star RAny; lit "capabilities";
          quote2]).

End PATTERNS.

Record CapabilityInfo := {
  name : string;
  prefix : string;
  version : option string;
  inputFields : option (list (string * ParameterSchema));
  line : nat
}.

(** The one shared pattern run with test. *)
Record state := {
  capabilitiesImport_lastIndex : nat
}.

Definition initial : state := {| capabilitiesImport_lastIndex := 0 |}.

Definition group_or_empty (m : match_result) (n : nat) : string :=
  default EmptyString (group m n).

(** A Map with string keys, in the order of insertion: set replaces the
    value of a key that is there and adds a new key at the end. *)
Fixpoint map_set {A} (m : list (string * A)) (k : string) (v : A)
  : list (string * A) :=
  match m with
  | [] => [(k, v)]
  | (k', v') :: rest =>
      if String.eqb k' k then (k', v) :: rest
      else (k', v') :: map_set rest k v
  end.

(** The effect of changing, in place, the object stored under [k]. *)
Definition map_update {A} (m : list (string * A)) (k : string) (f : A -> A)
  : list (string * A) :=
  (fun kv => if String.eqb (fst kv) k then (fst kv, f (snd kv)) else kv) <$> m.

Definition typeMap : list (string * string) :=
  [ ("string", "string"); ("int", "integer"); ("int32", "integer");
    ("int64", "integer"); ("float32", "number"); ("float64", "number");
    ("bool", "boolean"); ("interface{}", "any");
    ("map[string]interface{}", "object"); ("[]string", "array");
    ("[]int", "array") ].

(** The properties every object inherits from Object.prototype; their
    values are functions or objects, hence truthy. *)
Definition OBJECT_PROTOTYPE : list string :=
  [ "constructor"; "__proto__"; "hasOwnProperty"; "isPrototypeOf";
    "propertyIsEnumerable"; "toLocaleString"; "toString"; "valueOf";
    "__defineGetter__"; "__defineSetter__"; "__lookupGetter__";
    "__lookupSetter__" ].

(** mapGoTypeToJsonType: typeMap[goType] || 'string' *)
Definition mapGoTypeToJsonType (goType : string) : schema_type :=
  match List.find (fun kv => String.eqb (fst kv) goType) typeMap with
  | Some (_, jsonType) => TypeName jsonType
  | None =>
      if existsb (String.eqb goType) OBJECT_PROTOTYPE then Inherited goType
      else TypeName "string"
  end.

(** parseStructFields: the own properties of the object it builds, in
    the order of their creation. Assigning to __proto__ creates no
    property. *)
Definition parseStructFields (structBody : string)
  : list (string * ParameterSchema) :=
  fold_left (fun fields m =>
    let fieldName := group_or_empty m 1 in
    let fieldType := group_or_empty m 2 in
    let jsonName := group_or_empty m 3 in
    if String.eqb jsonName "__proto__" then fields
    else map_set fields jsonName
           {| type := mapGoTypeToJsonType fieldType;
              description := Some fieldName |})
    (exec_all (fresh PATTERNS.structField true false) structBody) [].

Definition tool_of (name : string) (file : FileInfo) (line : nat)
  (version : option string)
  (parameters : option (list (string * ParameterSchema))) : Tool.t :=
  let permission := Inference.inferPermission name None in
  let risk := Inference.inferRisk permission in
  Base.createTool
    {| Base.p_name := name;
       Base.p_source := Base.locator file line;
       Base.p_line := line;
       Base.p_framework := Some fw_custom;
       Base.p_permission := Some permission;
       Base.p_risk := Some risk;
       Base.p_description := None;
       Base.p_parameters := parameters;
       Base.p_version := version |}.

(** detectCapabilities *)
Definition detectCapabilities (content : string) (file : FileInfo)
  (result : DetectorResult) : DetectorResult :=
  let capabilities : list (string * CapabilityInfo) :=
    fold_left (fun caps m =>
      let prefix := group_or_empty m 1 in
      let toolName := group_or_empty m 2 in
      let line := Base.getLineNumber content (index m) in
      map_set caps prefix
        {| name := toolName; prefix := prefix; version := None;
           inputFields := None; line := line |})
      (exec_all (fresh PATTERNS.capabilityType true false) content) [] in
  let capabilities :=
    fold_left (fun caps m =>
      let prefix := group_or_empty m 1 in
      let version := group_or_empty m 2 in
      map_update caps prefix (fun existing =>
        {| name := name existing; prefix := Go.prefix existing;
           version := Some version; inputFields := inputFields existing;
           line := line existing |}))
      (exec_all (fresh PATTERNS.capabilityVersion true false) content)
      capabilities in
  let capabilities :=
    fold_left (fun caps m =>
      let prefix := group_or_empty m 1 in
      let structBody := group_or_empty m 2 in
      map_update caps prefix (fun existing =>
        {| name := name existing; prefix := Go.prefix existing;
           version := version existing;
           inputFields := Some (parseStructFields structBody);
           line := line existing |}))
      (exec_all (fresh PATTERNS.inputStruct true false) content)
      capabilities in
  fold_left (fun result entry =>
    let capInfo := snd entry in
    Base.push_tool result
      (tool_of (name capInfo) file (line capInfo) (version capInfo)
         (inputFields capInfo)))
    capabilities result.

(** detectToolRegistrations *)
Definition detectToolRegistrations (content : string) (file : FileInfo)
  (result : DetectorResult) : DetectorResult :=
  fold_left (fun result m =>
    let toolName := group_or_empty m 1 in
    let line := Base.getLineNumber content (index m) in
    let alreadyDetected :=
      existsb (fun t => String.eqb (Tool.name t) toolName) (tools result) in
    if alreadyDetected then result
    else Base.push_tool result (tool_of toolName file line None None))
    (exec_all (fresh PATTERNS.toolRegister true false) content) result.

(** s.replace(/suffix$/, '') *)
Definition strip_suffix (suffix s : string) : string :=
  if Js.endsWith s suffix
  then Js.take (String.length s - String.length suffix) s
  else s.

(** detectToolFunctions *)
Definition detectToolFunctions (content : string) (file : FileInfo)
  (result : DetectorResult) : DetectorResult :=
  fold_left (fun result m =>
    let funcName := group_or_empty m 1 in
    let line := Base.getLineNumber content (index m) in
    let toolName :=
      Js.toLowerCase
        (Js.replace_lower_upper "_"
           (strip_suffix "Capability"
              (strip_suffix "Handler" (strip_suffix "Tool" funcName)))) in
    let alreadyDetected :=
      existsb (fun t => String.eqb (Tool.name t) toolName
                        || String.eqb (Tool.name t) funcName) (tools result) in
    if alreadyDetected then result
    else Base.push_tool result (tool_of toolName file line None None))
    (exec_all (fresh PATTERNS.toolFunction true false) content) result.

(** detect *)
Definition detect (st : state) (file : FileInfo) : DetectorResult * state :=
  let result := Base.emptyResult in
  let content := content file in
  let '(imported, i) :=
    test PATTERNS.capabilitiesImport (capabilitiesImport_lastIndex st) content in
  let usesCapabilities :=
    imported || Js.includes content "capabilities.Type"
    || Js.includes content "capabilities.Capability" in
  let result :=
    if usesCapabilities then detectCapabilities content file result
    else result in
  let result := detectToolRegistrations content file result in
  let result := detectToolFunctions content file result in
  (result, {| capabilitiesImport_lastIndex := i |}).

End Go.


(** ** The extension router (scanner/router.ts) *)

Module Router.

(** The state shared by the detectors' calls: the patterns of the three
    detector modules and the detectors' own fields. *)
Record world := {
  typescript : TypeScript.state;
  python : Python.state;
  go : Go.state
}.

Definition initial_world : world :=
  {| typescript := TypeScript.initial;
     python := Python.initial;
     go := Go.initial |}.

(** How a call of detect ends: with a result, with an exception, or
    on a text outside the 8-bit alphabet of the model. *)
Inductive detection :=
| Returned (r : DetectorResult)
| Threw
| OutsideModel.

(** The Detector interface (detectors/base.ts) *)
Record Detector := {
  name : string;
  extensions : list string;
  detect : world -> FileInfo -> detection * world
}.

Definition McpConfigDetector : Detector :=
  {| name := "mcp-config";
     extensions := [".json"];
     detect := fun w file =>
       match McpConfig.detect file with
       | Some r => (Returned r, w)
       | None => (OutsideModel, w)
       end |}.

Definition PythonDetector : Detector :=
  {| name := "python";
     extensions := [".py"];
     detect := fun w file =>
       let '(r, st) := Python.detect (python w) file in
       (Returned r, {| typescript := typescript w; python := st; go := go w |}) |}.

Definition TypeScriptDetector : Detector :=
  {| name := "typescript";
     extensions := [".ts"; ".tsx"; ".js"; ".jsx"; ".mjs"];
     detect := fun w file =>
       let '(r, st) := TypeScript.detect (typescript w) file in
       (Returned r, {| typescript := st; python := python w; go := go w |}) |}.

Definition GoDetector : Detector :=
  {| name := "go";
     extensions := [".go"];
     detect := fun w file =>
       let '(r, st) := Go.detect (go w) file in
       (Returned r, {| typescript := typescript w; python := python w; go := st |}) |}.

(** ExtensionRouter *)
Record ExtensionRouter := {
  detectors : gmap string (list Detector);
  globalDetectors : list Detector
}.

Definition empty_router : ExtensionRouter :=
  {| detectors := ∅; globalDetectors := [] |}.

(** register *)
Definition register (router : ExtensionRouter) (detector : Detector)
  (extensions : list string) : ExtensionRouter :=
  fold_left (fun router ext =>
    let normalizedExt := if Js.startsWith ext "." then ext else "." +:+ ext in
    let existing := default [] (detectors router !! normalizedExt) in
    {| detectors := <[normalizedExt := existing ++ [detector]]> (detectors router);
       globalDetectors := globalDetectors router |})
    extensions router.

(** registerGlobal *)
Definition registerGlobal (router : ExtensionRouter) (detector : Detector)
  : ExtensionRouter :=
  {| detectors := detectors router;
     globalDetectors := globalDetectors router ++ [detector] |}.

(** getDetectorsForFile *)
Definition getDetectorsForFile (router : ExtensionRouter) (file : FileInfo)
  : list Detector :=
  let extensionDetectors := default [] (detectors router !! extension file) in
  globalDetectors router ++ extensionDetectors.

Definition merge (result r : DetectorResult) : DetectorResult :=
  {| tools := tools result ++ tools r;
     agents := agents result ++ agents r;
     mcpServers := mcpServers result ++ mcpServers r |}.

(** processFile: a detector that throws is logged and passed over. *)
Definition processFile (router : ExtensionRouter) (w : world) (file : FileInfo)
  : option (DetectorResult * world) :=
  fold_left (fun acc detector =>
    match acc with
    | None => None
    | Some (result, w) =>
        match detect detector w file with
        | (Returned detectorResult, w') => Some (merge result detectorResult, w')
        | (Threw, w') => Some (result, w')
        | (OutsideModel, _) => None
        end
    end)
    (getDetectorsForFile router file) (Some (Base.emptyResult, w)).

(** processFiles *)
Definition processFiles (router : ExtensionRouter) (w : world)
  (files : list FileInfo) : option (DetectorResult * world) :=
  fold_left (fun acc file =>
    match acc with
    | None => None
    | Some (result, w) =>
        match processFile router w file with
        | Some (fileResult, w') => Some (merge result fileResult, w')
        | None => None
        end
    end)
    files (Some (Base.emptyResult, w)).

End Router.

(** ** The tables of the file walker (scanner/walker.ts)

    The walk itself reads the file system and is left out; its tables
    of extensions and the functions over them are these. *)

Module Walker.

(** EXTENSION_MAP, in the order of its keys *)
Definition EXTENSION_MAP : list (string * list string) :=
  [ ("json", [".json"]);
    ("python", [".py"]);
    ("typescript", [".ts"; ".tsx"; ".js"; ".jsx"; ".mjs"]);
    ("go", [".go"]) ].

(** ALL_EXTENSIONS: Object.values(EXTENSION_MAP).flat() *)
Definition ALL_EXTENSIONS : list string :=
  concat (snd <$> EXTENSION_MAP).

Definition DEFAULT_IGNORE : list string :=
  [ "**/node_modules/**"; "**/.git/**"; "**/dist/**"; "**/build/**";
    "**/__pycache__/**"; "**/.venv/**"; "**/venv/**"; "**/.env/**";
    "**/env/**"; "**/*.min.js"; "**/*.bundle.js"; "**/coverage/**";
    "**/.next/**"; "**/.nuxt/**"; "**/vendor/**" ].

(** What EXTENSION_MAP[language] || [] evaluates to: the extensions of
    a language of the table, the empty array for a name the table does
    not have, and, for the name of a property that every object
    inherits, the inherited value, which is no array. *)
Inductive extensions_value :=
| Extensions (extensions : list string)
| InheritedValue (property : string).

(** getExtensionsForLanguage *)
Definition getExtensionsForLanguage (language : string) : extensions_value :=
  match List.find (fun kv => String.eqb (fst kv) language) EXTENSION_MAP with
  | Some (_, extensions) => Extensions extensions
  | None =>
      if existsb (String.eqb language) Go.OBJECT_PROTOTYPE
      then InheritedValue language
      else Extensions []
  end.

(** getSupportedExtensions *)
Definition getSupportedExtensions : list string := ALL_EXTENSIONS.

(** filterByLanguage. On an inherited value the callback of filter
    calls includes, which that value does not have: a TypeError, [None],
    unless there is no file to call it for. *)
Definition filterByLanguage (files : list FileInfo) (language : string)
  : option (list FileInfo) :=
  match getExtensionsForLanguage language with
  | Extensions extensions =>
      Some (List.filter
              (fun f => existsb (String.eqb (extension f)) extensions) files)
  | InheritedValue _ =>
      match files with
      | [] => Some []
      | _ :: _ => None
      end
  end.

(** The glob patterns that walkDirectory builds from the extensions. *)
Definition extensionPatterns (extensions : list string) : list string :=
  (fun ext => if Js.startsWith ext "." then "**/*" +:+ ext
              else "**/*." +:+ ext) <$> extensions.

End Walker.

(** ** The manifest generator (output/manifest.ts) *)

Record ScanSummary := {
  total_tools : nat;
  total_agents : nat;
  total_mcp_servers : nat;
  files_scanned : nat;
  by_framework : gmap string nat;
  by_permission : gmap string nat;
  by_risk : gmap string nat
}.

Record Manifest := {
  version : string;
  scanned_at : string;
  scanned_path : string;
  scan_duration_ms : Z;
  summary : ScanSummary;
  manifest_tools : list Tool.t;
  manifest_agents : list Agent.t;
  mcp_servers : list McpServer.t
}.

Definition permission_name (p : Permission) : string :=
  match p with
  | READ => "READ" | WRITE => "WRITE" | DELETE => "DELETE"
  | EXECUTE => "EXECUTE" | OUTPUT => "OUTPUT" | UNKNOWN => "UNKNOWN"
  end.

Module Manifest.

Definition MANIFEST_VERSION : string := "1.0.0".

(** counts[key] = (counts[key] || 0) + 1, and counts[key]++ on a key
    that is there *)
Definition bump (counts : gmap string nat) (key : string) : gmap string nat :=
  <[key := default 0 (counts !! key) + 1]> counts.

(** The sum of the buckets of a table of counts. *)
Definition total (counts : gmap string nat) : nat :=
  map_fold (fun _ n acc => n + acc) 0 counts.

(** createSummary *)
Definition createSummary (result : DetectorResult) (filesScanned : nat)
  : ScanSummary :=
  let byFramework :=
    fold_left (fun counts tool => bump counts (framework_name (Tool.framework tool)))
      (tools result) ∅ in
  let byPermission :=
    fold_left (fun counts tool => bump counts (permission_name (Tool.permission tool)))
      (tools result)
      (<["READ" := 0]> (<["WRITE" := 0]> (<["DELETE" := 0]>
         (<["EXECUTE" := 0]> (<["OUTPUT" := 0]> (<["UNKNOWN" := 0]> ∅)))))) in
  let byRisk :=
    fold_left (fun counts tool => bump counts (risk_name (Tool.risk tool)))
      (tools result)
      (<["LOW" := 0]> (<["MEDIUM" := 0]> (<["HIGH" := 0]> ∅))) in
  {| total_tools := length (tools result);
     total_agents := length (agents result);
     total_mcp_servers := length (mcpServers result);
     files_scanned := filesScanned;
     by_framework := byFramework;
     by_permission := byPermission;
     by_risk := byRisk |}.

(** Array.prototype.sort with a comparator: the sort is stable, so for
    a consistent comparator its result is the one a stable insertion
    sort gives. [insert_sorted x l] puts [x], which came before the
    elements of [l], in front of the first element it does not follow. *)
Fixpoint insert_sorted {A} (compare : A -> A -> Z) (x : A) (l : list A)
  : list A :=
  match l with
  | [] => [x]
  | y :: rest =>
      if (compare x y <=? 0)%Z then x :: l
      else y :: insert_sorted compare x rest
  end.

Definition sort {A} (compare : A -> A -> Z) (l : list A) : list A :=
  foldr (insert_sorted compare) [] l.

Definition riskOrder (r : RiskLevel) : Z :=
  match r with HIGH => 0 | MEDIUM => 1 | LOW => 2 end.

Section WithCollation.

(** String.prototype.localeCompare, the comparison of the platform's
    collation: negative, zero or positive. *)
Variable localeCompare : string -> string -> Z.

(** The comparator of the tools: by risk, then by name. *)
Definition compare_tools (a b : Tool.t) : Z :=
  let riskDiff := (riskOrder (Tool.risk a) - riskOrder (Tool.risk b))%Z in
  if negb (riskDiff =? 0)%Z then riskDiff
  else localeCompare (Tool.name a) (Tool.name b).

Definition compare_agents (a b : Agent.t) : Z :=
  localeCompare (Agent.name a) (Agent.name b).

Definition compare_servers (a b : McpServer.t) : Z :=
  localeCompare (McpServer.name a) (McpServer.name b).

(** createManifest; [now] is the text of the clock at the call. *)
Definition createManifest (now : string) (result : DetectorResult)
  (scannedPath : string) (filesScanned : nat) (durationMs : Z) : Manifest :=
  let sortedTools := sort compare_tools (tools result) in
  let sortedAgents := sort compare_agents (agents result) in
  let sortedServers := sort compare_servers (mcpServers result) in
  {| version := MANIFEST_VERSION;
     scanned_at := now;
     scanned_path := scannedPath;
     scan_duration_ms := durationMs;
     summary := createSummary result filesScanned;
     manifest_tools := sortedTools;
     manifest_agents := sortedAgents;
     mcp_servers := sortedServers |}.

End WithCollation.

(** filterByFramework *)
Definition filterByFramework (tools : list Tool.t) (framework : string)
  : list Tool.t :=
  List.filter (fun t => String.eqb (framework_name (Tool.framework t)) framework)
    tools.

(** filterByRisk; the level is the text the caller passes. *)
Definition filterByRisk (tools : list Tool.t) (risk : string) : list Tool.t :=
  List.filter (fun t => String.eqb (risk_name (Tool.risk t)) risk) tools.

(** getHighRiskTools *)
Definition getHighRiskTools (tools : list Tool.t) : list Tool.t :=
  List.filter (fun t => bool_decide (Tool.risk t = HIGH)) tools.

(** The loop shared by the three deduplications: [seen] is the Set of
    keys met, [unique] the array of the first entity of each key. *)
Definition dedup_step {A} (key : A -> string)
  (st : gset string * list A) (x : A) : gset string * list A :=
  let '(seen, unique) := st in
  if bool_decide (key x ∈ seen) then st
  else ({[ key x ]} ∪ seen, unique ++ [x]).

Definition deduplicate {A} (key : A -> string) (l : list A) : list A :=
  snd (fold_left (dedup_step key) l (∅, [])).

(** The same loop read as a recursion: the entities of [l] whose key is
    neither in [seen] nor carried by an earlier entity of [l]. *)
Fixpoint first_occurrences {A} (key : A -> string) (seen : gset string)
  (l : list A) : list A :=
  match l with
  | [] => []
  | x :: rest =>
      if bool_decide (key x ∈ seen) then first_occurrences key seen rest
      else x :: first_occurrences key ({[ key x ]} ∪ seen) rest
  end.

Definition tool_key (tool : Tool.t) : string :=
  Tool.name tool +:+ ":" +:+ Tool.source tool.

Definition agent_key (agent : Agent.t) : string :=
  Agent.name agent +:+ ":" +:+ Agent.source agent.

(** deduplicateTools *)
Definition deduplicateTools (tools : list Tool.t) : list Tool.t :=
  deduplicate tool_key tools.

(** deduplicateAgents *)
Definition deduplicateAgents (agents : list Agent.t) : list Agent.t :=
  deduplicate agent_key agents.

(** deduplicateMcpServers *)
Definition deduplicateMcpServers (servers : list McpServer.t)
  : list McpServer.t :=
  deduplicate McpServer.name servers.

End Manifest.

(** ** The scan command (commands/scan.ts) *)

Module Scan.

Record ScanOptions := {
  output : option string;
  framework : option string;
  risk : option string;
  json : bool
}.

(** createRouter *)
Definition createRouter : Router.ExtensionRouter :=
  let router := Router.empty_router in
  let router := Router.register router Router.McpConfigDetector
                  (Router.extensions Router.McpConfigDetector) in
  let router := Router.register router Router.PythonDetector
                  (Router.extensions Router.PythonDetector) in
  let router := Router.register router Router.TypeScriptDetector
                  (Router.extensions Router.TypeScriptDetector) in
  Router.register router Router.GoDetector
    (Router.extensions Router.GoDetector).

Definition given (o : option string) : option string :=
  match o with
  | Some s => if Js.nonempty s then Some s else None
  | None => None
  end.

(** The tools of the result after the deduplication and the filters
    that the options ask for. *)
Definition assembled_tools (options : ScanOptions) (tools : list Tool.t)
  : list Tool.t :=
  let tools := Manifest.deduplicateTools tools in
  let tools :=
    match given (framework options) with
    | Some fw => Manifest.filterByFramework tools fw
    | None => tools
    end in
  match given (risk options) with
  | Some r => Manifest.filterByRisk tools (Js.toUpperCase r)
  | None => tools
  end.

(** The steps of scanCommand between the detection and the output:
    deduplicate, filter, create the manifest. *)
Definition assemble (localeCompare : string -> string -> Z) (now : string)
  (result : DetectorResult) (absolutePath : string) (filesScanned : nat)
  (duration : Z) (options : ScanOptions) : Manifest :=
  let tools := assembled_tools options (tools result) in
  let agents := Manifest.deduplicateAgents (agents result) in
  let mcpServers := Manifest.deduplicateMcpServers (mcpServers result) in
  Manifest.createManifest localeCompare now
    {| tools := tools; agents := agents; mcpServers := mcpServers |}
    absolutePath filesScanned duration.

(** scanCommand, from the files the walk returned to the manifest that
    is printed and written. *)
Definition scanCommand (localeCompare : string -> string -> Z) (now : string)
  (w : Router.world) (files : list FileInfo) (absolutePath : string)
  (duration : Z) (options : ScanOptions) : option Manifest :=
  let router := createRouter in
  match Router.processFiles router w files with
  | Some (result, _) =>
      Some (assemble localeCompare now result absolutePath (length files)
              duration options)
  | None => None
  end.

End Scan.


(** ** The specification's reading of the inference engine

    These definitions follow the words of the specification, not the
    code; the theorems of Part II compare the two. *)

Module Spec.

(** A token matches a stem if it equals, starts with, or ends with it. *)
Definition token_matches (token stem : string) : Prop :=
  token = stem
  \/ (exists rest, token = stem +:+ rest)
  \/ (exists front, token = front +:+ stem).

(** A table matches if any token matches any of its stems. *)
Definition table_matches (tokens table : list string) : Prop :=
  exists token stem,
    token ∈ tokens /\ stem ∈ table /\ token_matches token stem.

(** The five tables in their fixed order of priority. *)
Definition PRIORITY : list (Permission * list string) :=
  [ (DELETE, Inference.DELETE_KEYWORDS);
    (EXECUTE, Inference.EXECUTE_KEYWORDS);
    (WRITE, Inference.WRITE_KEYWORDS);
    (OUTPUT, Inference.OUTPUT_KEYWORDS);
    (READ, Inference.READ_KEYWORDS) ].

(** The first table with any matching token determines the permission;
    no match in any table yields UNKNOWN. *)
Inductive classifies (tokens : list string)
  : list (Permission * list string) -> Permission -> Prop :=
| classifies_first p table rest :
    table_matches tokens table ->
    classifies tokens ((p, table) :: rest) p
| classifies_later p table rest q :
    ~ table_matches tokens table ->
    classifies tokens rest q ->
    classifies tokens ((p, table) :: rest) q
| classifies_none :
    classifies tokens [] UNKNOWN.

(** The tokens of an optional description. *)
Definition description_tokens (description : option string) : list string :=
  match description with
  | Some d => Inference.tokenize d
  | None => []
  end.

(** A boundary character: underscore, hyphen or white space. *)
Definition is_boundary (c : ascii) : bool :=
  Inference.is_snake_or_kebab c || Js.is_space c.

Definition flush (cur : string) : list string :=
  if Js.nonempty cur then [cur] else [].

(** The words of an identifier, read in one pass: a boundary character
    ends the word being read and is dropped; a capital that follows a
    small letter ends the word and starts the next; every character
    kept is put in lower case. [prev_lower] tells that the previous
    character was a small letter, [cur] is the word being read. *)
Fixpoint words (prev_lower : bool) (cur : string) (s : string) : list string :=
  match s with
  | EmptyString => flush cur
  | String c rest =>
      if is_boundary c then flush cur ++ words false EmptyString rest
      else if prev_lower && Js.is_upper c then
        flush cur ++ words (Js.is_lower c) (String (Js.lower_char c) EmptyString) rest
      else words (Js.is_lower c) (cur +:+ String (Js.lower_char c) EmptyString) rest
  end.

Definition tokenize (text : string) : list string :=
  words false EmptyString text.

(** Two notions for the comparison with the code: does the text start
    with a capital, and the text as the code prepares it for the split,
    with a space in front when a small letter came before a capital. *)
Definition starts_upper (s : string) : bool :=
  match s with
  | String b _ => Js.is_upper b
  | EmptyString => false
  end.

Definition prepared (prev_lower : bool) (s : string) : string :=
  Js.toLowerCase
    (Inference.replace_separators
       (if prev_lower && starts_upper s
        then String Js.space (Inference.replace_camel s)
        else Inference.replace_camel s)).

(** The risk of a tool is the one the table gives for its permission. *)
Definition risk_follows_permission (t : Tool.t) : Prop :=
  Tool.risk t = Inference.PERMISSION_RISK_MAP (Tool.permission t).

Definition tools_ok (r : DetectorResult) : Prop :=
  Forall risk_follows_permission (tools r).

(** A detector whose every result holds only such tools. *)
Definition sound_detector (d : Router.Detector) : Prop :=
  forall (w : Router.world) (file : FileInfo) (r : DetectorResult)
    (w' : Router.world),
    Router.detect d w file = (Router.Returned r, w') -> tools_ok r.

(** A router that holds only such detectors. *)
Definition sound_router (router : Router.ExtensionRouter) : Prop :=
  (forall ext ds, Router.detectors router !! ext = Some ds ->
                  Forall sound_detector ds)
  /\ Forall sound_detector (Router.globalDetectors router).

(** HIGH comes before MEDIUM, which comes before LOW. *)
Inductive risk_before : RiskLevel -> RiskLevel -> Prop :=
| high_before_medium : risk_before HIGH MEDIUM
| high_before_low : risk_before HIGH LOW
| medium_before_low : risk_before MEDIUM LOW.

Section WithCollation.

Variable localeCompare : string -> string -> Z.

(** [a] does not come after [b] by name. *)
Definition name_order (a b : string) : Prop := (localeCompare a b <= 0)%Z.

(** The order of the tools: by risk, and by name for the same risk. *)
Definition tool_order (a b : Tool.t) : Prop :=
  risk_before (Tool.risk a) (Tool.risk b)
  \/ (Tool.risk a = Tool.risk b /\ name_order (Tool.name a) (Tool.name b)).

(** What the platform's comparison is taken to satisfy, as every
    consistent comparator does: swapping the arguments flips the sign,
    and not coming after is transitive. *)
Definition consistent : Prop :=
  (forall a b, Z.sgn (localeCompare b a) = (- Z.sgn (localeCompare a b))%Z)
  /\ (forall a b c, name_order a b -> name_order b c -> name_order a c).

End WithCollation.

(** One consistent comparison, for the examples: the order of the
    character codes. *)
Definition ordinal_compare (a b : string) : Z :=
  match String.compare a b with
  | Lt => (-1)%Z
  | Eq => 0%Z
  | Gt => 1%Z
  end.

(** The shape the configuration detector declares for a configuration
    (the interfaces McpConfigContent and McpServerConfig). *)
Definition is_record (v : Json.json) : bool :=
  match v with Json.JObject _ => true | _ => false end.

Definition is_string (v : Json.json) : bool :=
  match v with Json.JString _ => true | _ => false end.

Definition is_string_array (v : Json.json) : bool :=
  match v with
  | Json.JArray items => forallb is_string items
  | _ => false
  end.

Definition is_string_record (v : Json.json) : bool :=
  match v with
  | Json.JObject fields => forallb (fun kv => is_string (snd kv)) fields
  | _ => false
  end.

Definition optional (v : Json.json) (k : string) (shape : Json.json -> bool)
  : bool :=
  match Json.get v k with
  | Some x => shape x
  | None => true
  end.

Definition McpServerConfig_shape (v : Json.json) : bool :=
  is_record v
  && optional v "command" is_string
  && optional v "args" is_string_array
  && optional v "env" is_string_record
  && optional v "url" is_string
  && optional v "transport" is_string.

Definition server_record (v : Json.json) : bool :=
  match v with
  | Json.JObject fields => forallb (fun kv => McpServerConfig_shape (snd kv)) fields
  | _ => false
  end.

Definition McpConfigContent_shape (v : Json.json) : bool :=
  is_record v
  && optional v "mcpServers" server_record
  && optional v "servers" server_record.

(** An entry that stands for a server: an object that gives a truthy
    command or a truthy url. *)
Definition is_server_entry (v : Json.json) : bool :=
  match v with
  | Json.JObject _ =>
      Json.truthy (Json.get v "command") || Json.truthy (Json.get v "url")
  | _ => false
  end.

(** The values a server map holds: those of its keys when it is an
    object, its elements when it is an array, none otherwise. *)
Definition values_of (servers : Json.json) : list Json.json :=
  match servers with
  | Json.JObject fields => snd <$> fields
  | Json.JArray items => items
  | _ => []
  end.

(** A value that lists no server: no value of its server map (the one
    under mcpServers, else the one under servers, else none) stands for
    a server. So it is with null, a number, a string, a boolean and an
    array, with a server map that is missing, falsy, empty or a scalar,
    and with entries that are null, scalars, arrays, or objects without
    a command and a url. *)
Definition lists_no_server (v : Json.json) : bool :=
  forallb (fun entry => negb (is_server_entry entry))
    (values_of (McpConfig.server_map v)).

(** A content that is not valid JSON, or that lists no server. *)
Definition unusable (text : string) : Prop :=
  Json.JSON_parse text = Json.SyntaxError
  \/ exists v, Json.JSON_parse text = Json.Value v /\ lists_no_server v = true.

(** A content that is not valid JSON, or not of the expected shape. *)
Definition malformed (text : string) : Prop :=
  Json.JSON_parse text = Json.SyntaxError
  \/ exists v, Json.JSON_parse text = Json.Value v
               /\ McpConfigContent_shape v = false.

End Spec.


(** The patterns that the detectors run in a loop of exec. *)
Definition LOOP_PATTERNS : list Regex.RegExp :=
  [ TypeScript.PATTERNS.serverTool; TypeScript.PATTERNS.mcpServerClass;
    TypeScript.PATTERNS.langchainTool; TypeScript.PATTERNS.langchainToolFunc;
    TypeScript.PATTERNS.createTool; TypeScript.PATTERNS.jsdocTool;
    Python.PATTERNS.funcWithDocstring; Python.PATTERNS.toolDecorator;
    Python.PATTERNS.mcpToolDecorator; Python.PATTERNS.fastMcpInstance;
    Python.PATTERNS.toolArray; Python.PATTERNS.toolCapability;
    Python.PATTERNS.toolClass; Python.PATTERNS.langGraphNode;
    Python.PATTERNS.crewAiAgent; Python.PATTERNS.autoGenAgent;
    Go.PATTERNS.capabilityType; Go.PATTERNS.capabilityVersion;
    Go.PATTERNS.inputStruct; Go.PATTERNS.structField;
    Go.PATTERNS.toolRegister; Go.PATTERNS.toolFunction ].

(** ** Concrete inputs for the examples *)

Module Examples.

Definition file (rel ext text : string) : FileInfo :=
  {| path := "/repo/" +:+ rel; relativePath := rel; extension := ext;
     content := text |}.

(** Scenario B of the specification. *)
Definition scenario_B : string :=
  Js.dq "{'mcpServers': {'fs': {'command': 'npx', 'args': ['x']}}}".

(** A configuration whose server map is an array. *)
Definition array_config : FileInfo :=
  file "mcp.json" ".json" (Js.dq "{'mcpServers': [{'command': 'npx'}]}").

(** A text that is not JSON. *)
Definition broken_config : FileInfo :=
  file "mcp.json" ".json" (Js.dq "{'mcpServers': {'fs': ").

(** A configuration whose server map is an empty array. *)
Definition empty_array_config : FileInfo :=
  file "mcp.json" ".json" (Js.dq "{'mcpServers': []}").

(** A configuration none of whose entries stands for a server: a
    number, null, a string, an object with args alone, and an array. *)
Definition guarded_config : FileInfo :=
  file "mcp.json" ".json"
    (Js.dq "{'mcpServers': {'a': 5, 'b': null, 'c': 'npx', 'd': {'args': 'x'}, 'e': [1]}}").

(** A configuration with a launch entry, an endpoint entry and an
    entry that gives neither. *)
Definition mixed_config : FileInfo :=
  file "conf/mcp_settings.json" ".json"
    (Js.dq "{'servers': {'a': {'command': 'node', 'args': ['s.js']}, 'b': {'url': 'http://localhost:1'}, 'c': {'transport': 'sse'}}}").

(** A TypeScript file that imports the MCP kit and marks one function
    as a tool in its comment. *)
Definition ts_source : string :=
  Js.dq "import { x } from 'mcp';
/** @tool */
function getUser() {}".

Definition ts_a : FileInfo := file "src/a.ts" ".ts" ts_source.
Definition ts_b : FileInfo := file "src/b.ts" ".ts" ts_source.

(** A Python file that imports mcp and lists one tool. *)
Definition py_a : FileInfo :=
  file "app/a.py" ".py" "import mcp
TOOLS = [get_user]".

Definition tool (name : string) (line : nat) : Tool.t :=
  TypeScript.createToolFromName name ts_a line fw_mcp None.

(** A detector that fails on every file and changes nothing. *)
Definition failing_detector : Router.Detector :=
  {| Router.name := "failing";
     Router.extensions := [".ts"];
     Router.detect := fun w _ => (Router.Threw, w) |}.

(** Two tools that differ in name and in source and have one key. *)
Definition colon_in_name : Tool.t :=
  TypeScript.createToolFromName "fs:read" (file "src/a.ts" ".ts" "") 1 fw_mcp None.
Definition colon_in_path : Tool.t :=
  TypeScript.createToolFromName "fs" (file "read:src/a.ts" ".ts" "") 1 fw_mcp None.

Definition some_tools : DetectorResult :=
  {| tools := [tool "get_user" 1; tool "add_user" 2; tool "delete_user" 3;
               tool "drop_table" 4];
     agents := []; mcpServers := [] |}.

End Examples.

(** ** Notions used to state the further properties of Part III *)

Module Notions.

(** The place of a permission in the order in which inferPermission
    tries the tables; UNKNOWN, which no table gives, comes last. *)
Definition priority (p : Permission) : nat :=
  match p with
  | DELETE => 0 | EXECUTE => 1 | WRITE => 2 | OUTPUT => 3 | READ => 4
  | UNKNOWN => 5
  end.

(** Every character of [s] passes the test [p]. *)
Fixpoint all_chars (p : ascii -> bool) (s : string) : bool :=
  match s with
  | EmptyString => true
  | String c rest => p c && all_chars p rest
  end.

(** A character that a token can hold: no white space, no underscore,
    no hyphen, no capital of A to Z. *)
Definition token_char (c : ascii) : bool :=
  negb (Js.is_space c) && negb (Inference.is_snake_or_kebab c)
  && negb (Js.is_upper c).

(** The tokens that inferPermission joins. *)
Definition allTokens (name : string) (description : option string)
  : list string :=
  Inference.tokenize name ++ Spec.description_tokens description.

(** The number of lines of a text: one more than its line feeds. *)
Definition line_count (content : string) : nat :=
  Base.count_newlines content + 1.

(** The extension under which register files a detector. *)
Definition normalizedExt (ext : string) : string :=
  if Js.startsWith ext "." then ext else "." +:+ ext.

(** The loop of processFile over a list of detectors. *)
Definition run_detectors (file : FileInfo) (ds : list Router.Detector)
  (acc : option (DetectorResult * Router.world))
  : option (DetectorResult * Router.world) :=
  fold_left (fun acc detector =>
    match acc with
    | None => None
    | Some (result, w) =>
        match Router.detect detector w file with
        | (Router.Returned detectorResult, w') =>
            Some (Router.merge result detectorResult, w')
        | (Router.Threw, w') => Some (result, w')
        | (Router.OutsideModel, _) => None
        end
    end) ds acc.

(** How many elements of a list pass a test. *)
Definition count {A} (p : A -> bool) (l : list A) : nat :=
  length (List.filter p l).

(** A text without a colon. *)
Definition no_colon (s : string) : bool :=
  all_chars (fun c => negb (Ascii.eqb c ":")) s.

(** [x] is the first entity of [l] that carries its key: it stands at
    some place of [l] and no entity before that place has its key. *)
Definition first_of_its_key {A} (key : A -> string) (l : list A) (x : A)
  : Prop :=
  exists i : nat,
    l !! i = Some x
    /\ forall (j : nat) (z : A), j < i -> l !! j = Some z -> key z <> key x.

End Notions.
(* ================================================================== *)
(** * Part II: the properties *)
(* ================================================================== *)

(** ** Strings *)

Section StringFacts.

Lemma append_nil_r (s : string) : s +:+ EmptyString = s.
Proof. induction s as [|c s IH]; simpl; [reflexivity | now rewrite IH]. Qed.

Lemma append_assoc (a b c : string) : (a +:+ b) +:+ c = a +:+ (b +:+ c).
Proof. induction a as [|x a IH]; simpl; [reflexivity | now rewrite IH]. Qed.

Lemma length_append (a b : string) :
  String.length (a +:+ b) = String.length a + String.length b.
Proof. induction a as [|x a IH]; simpl; [reflexivity | now rewrite IH]. Qed.

Lemma prefix_spec (k t : string) :
  String.prefix k t = true <-> exists rest, t = k +:+ rest.
Proof.
  revert t. induction k as [|c k IH]; intros t.
  - split; [intros _; now exists t | intros _; now destruct t].
  - destruct t as [|d t]; simpl.
    + split; [discriminate | intros [rest H]; discriminate].
    + destruct (ascii_dec c d) as [->|Hne].
      * rewrite IH. split; intros [rest H]; exists rest; [now subst | now inversion H].
      * split; [discriminate | intros [rest H]; inversion H; congruence].
Qed.

Lemma substring_skip (a b : string) :
  String.substring (String.length a) (String.length b) (a +:+ b) = b.
Proof.
  induction a as [|x a IH]; simpl; [|exact IH].
  induction b as [|y b IHb]; simpl; [reflexivity | now rewrite IHb].
Qed.

Lemma take_drop (n : nat) (s : string) :
  s = String.substring 0 n s +:+ Js.drop n s.
Proof.
  revert s. induction n as [|n IH]; intros [|c s]; simpl; try reflexivity.
  now rewrite <- IH.
Qed.

Lemma substring_drop (n m : nat) (s : string) :
  String.substring n m s = String.substring 0 m (Js.drop n s).
Proof.
  revert s. induction n as [|n IH]; intros [|c s]; simpl; try reflexivity.
  - now destruct m.
  - apply IH.
Qed.

Lemma length_drop (n : nat) (s : string) :
  String.length (Js.drop n s) = String.length s - n.
Proof.
  revert s. induction n as [|n IH]; intros [|c s]; simpl; try reflexivity.
  apply IH.
Qed.

Lemma substring_all (s : string) : String.substring 0 (String.length s) s = s.
Proof. induction s as [|c s IH]; simpl; [reflexivity | now rewrite IH]. Qed.

(** endsWith tells that the text ends with the searched one. *)
Lemma endsWith_spec (t k : string) :
  Js.endsWith t k = true <-> exists front, t = front +:+ k.
Proof.
  unfold Js.endsWith. split.
  - destruct (Nat.leb_spec (String.length k) (String.length t)) as [Hle|Hlt];
      [|discriminate].
    intros H. apply String.eqb_eq in H.
    exists (String.substring 0 (String.length t - String.length k) t).
    rewrite substring_drop in H.
    assert (Hl : String.length (Js.drop (String.length t - String.length k) t)
                 = String.length k) by (rewrite length_drop; lia).
    rewrite (take_drop (String.length t - String.length k) t) at 1.
    f_equal. remember (Js.drop (String.length t - String.length k) t) as d.
    rewrite <- H, <- Hl. symmetry. apply substring_all.
  - intros [front ->]. rewrite length_append.
    destruct (Nat.leb_spec (String.length k) (String.length front + String.length k))
      as [_|Hlt]; [|lia].
    replace (String.length front + String.length k - String.length k)
      with (String.length front) by lia.
    rewrite substring_skip. apply String.eqb_refl.
Qed.

End StringFacts.

(** ** The parser never runs out of fuel *)

Section ParserFuel.
Import Json.

Lemma skip_ws_length (s : string) :
  String.length (skip_ws s) <= String.length s.
Proof.
  induction s as [|c s IH]; simpl; [lia|].
  destruct (is_json_ws c); simpl; lia.
Qed.

Lemma starts_with_length (c : ascii) (s rest : string) :
  starts_with c s = Some rest -> String.length s = S (String.length rest).
Proof.
  destruct s as [|x s]; simpl; [discriminate|].
  destruct (Ascii.eqb x c); [|discriminate]. now intros [= <-].
Qed.

Lemma parse_string_body_length (n : nat) :
  forall (s acc : string) (w : bool),
    String.length s <= n ->
    parse_string_body s acc w <> PFuel
    /\ forall a w' rest, parse_string_body s acc w = POk a w' rest ->
                         String.length rest < String.length s.
Proof.
  induction n as [|n IH]; intros s acc w Hn.
  - destruct s; [|simpl in Hn; lia]. simpl. split; [discriminate | discriminate].
  - destruct s as [|c s]; [simpl; split; discriminate|].
    simpl in Hn. cbn [parse_string_body].
    destruct (Ascii.eqb c Js.dquote).
    { split; [discriminate|]. intros a w' rest [= <- <- <-]. simpl. lia. }
    destruct (Ascii.eqb c Js.backslash).
    2:{ destruct (Js.code c <? 32)%N; [split; discriminate|].
        destruct (IH s (snoc acc c) w ltac:(lia)) as [H1 H2].
        split; [assumption|]. intros a w' rest H. apply H2 in H. simpl. lia. }
    destruct s as [|e s]; [split; discriminate|]. simpl in Hn.
    assert (Hstep : forall acc' w0,
               parse_string_body s acc' w0 <> PFuel
               /\ forall a w' rest, parse_string_body s acc' w0 = POk a w' rest ->
                                    String.length rest < String.length (String c (String e s))).
    { intros acc' w0. destruct (IH s acc' w0 ltac:(lia)) as [H1 H2].
      split; [assumption|]. intros a w' rest H. apply H2 in H. simpl. lia. }
    repeat (match goal with
            | |- context [if Ascii.eqb e ?x then _ else _] =>
                destruct (Ascii.eqb e x); [apply Hstep|]
            end).
    destruct (Ascii.eqb e "u"); [|split; discriminate].
    destruct s as [|h1 [|h2 [|h3 [|h4 s]]]]; try (split; discriminate).
    simpl in Hn.
    destruct (hex4 h1 h2 h3 h4) as [x|]; [|split; discriminate].
    destruct (x <? 256)%N.
    + destruct (IH s (snoc acc (Js.chr x)) w ltac:(lia)) as [H1 H2].
      split; [assumption|]. intros a w' rest H. apply H2 in H. simpl. lia.
    + destruct (IH s (snoc acc "?"%char) true ltac:(lia)) as [H1 H2].
      split; [assumption|]. intros a w' rest H. apply H2 in H. simpl. lia.
Qed.

Lemma take_digits_length (s : string) :
  forall (acc : N) (count : nat) (n : N) (k : nat) (rest : string),
    take_digits s acc count = (n, k, rest) ->
    String.length rest <= String.length s.
Proof.
  induction s as [|c s IH]; intros acc count n k rest; simpl.
  - intros [= <- <- <-]. simpl. lia.
  - destruct (Js.is_digit c).
    + intros H. apply IH in H. lia.
    + intros [= <- <- <-]. simpl. lia.
Qed.

Lemma parse_number_length (s : string) :
  parse_number s <> PFuel
  /\ forall a w rest, parse_number s = POk a w rest ->
                      String.length rest <= String.length s.
Proof.
  unfold parse_number.
  destruct (parse_sign s) as [neg s1] eqn:Hsign.
  assert (H1 : String.length s1 <= String.length s).
  { unfold parse_sign in Hsign.
    destruct (starts_with "-" s) as [r|] eqn:Hs; injection Hsign as <- <-;
      [apply starts_with_length in Hs|]; lia. }
  destruct (parse_int s1) as [[n s2]|] eqn:Hint; [|split; discriminate].
  assert (H2 : String.length s2 <= String.length s1).
  { unfold parse_int in Hint.
    destruct (starts_with "0" s1) as [r|] eqn:Hs.
    - injection Hint as <- <-. apply starts_with_length in Hs. lia.
    - destruct s1 as [|c s1']; [discriminate|].
      destruct (Js.is_digit c); [|discriminate].
      destruct (take_digits (String c s1') 0%N 0) as [[n0 k0] r0] eqn:Ht.
      injection Hint as <- <-. exact (take_digits_length _ _ _ _ _ _ Ht). }
  destruct (parse_frac n s2) as [[[m fcount] s3]|] eqn:Hfrac; [|split; discriminate].
  assert (H3 : String.length s3 <= String.length s2).
  { unfold parse_frac in Hfrac.
    destruct (starts_with "." s2) as [r|] eqn:Hs.
    - destruct (take_digits r n 0) as [[m0 k0] r0] eqn:Ht.
      destruct (Nat.eqb k0 0); [discriminate|]. injection Hfrac as <- <- <-.
      apply take_digits_length in Ht. apply starts_with_length in Hs. lia.
    - injection Hfrac as <- <- <-. lia. }
  destruct (parse_exp s3) as [[x s4]|] eqn:Hexp; [|split; discriminate].
  assert (H4 : String.length s4 <= String.length s3).
  { unfold parse_exp in Hexp. destruct s3 as [|e r]; [injection Hexp as <- <-; lia|].
    destruct (Ascii.eqb e "e" || Ascii.eqb e "E");
      [|injection Hexp as <- <-; lia].
    assert (Hsgn : forall eneg rest1,
               match starts_with "-" r with
               | Some r0 => (true, r0)
               | None => match starts_with "+" r with
                         | Some r0 => (false, r0)
                         | None => (false, r)
                         end
               end = (eneg, rest1) -> String.length rest1 <= String.length r).
    { intros eneg rest1.
      destruct (starts_with "-" r) as [r0|] eqn:Hm.
      - intros [= <- <-]. apply starts_with_length in Hm. lia.
      - destruct (starts_with "+" r) as [r0|] eqn:Hp; intros [= <- <-];
          [apply starts_with_length in Hp|]; lia. }
    destruct (match starts_with "-" r with
              | Some r0 => (true, r0)
              | None => match starts_with "+" r with
                        | Some r0 => (false, r0)
                        | None => (false, r)
                        end
              end) as [eneg rest1] eqn:Hs.
    specialize (Hsgn _ _ eq_refl).
    destruct (take_digits rest1 0%N 0) as [[x0 k0] rest2] eqn:Ht.
    destruct (Nat.eqb k0 0); [discriminate|]. injection Hexp as <- <-.
    apply take_digits_length in Ht. simpl. lia. }
  split; [discriminate|]. intros a w rest [= <- <- <-]. lia.
Qed.

Lemma parse_keyword_length (word : string) (v : json) (s : string) :
  parse_keyword word v s <> PFuel
  /\ forall a w rest, parse_keyword word v s = POk a w rest ->
                      String.length rest <= String.length s.
Proof.
  unfold parse_keyword. destruct (String.prefix word s); split; try discriminate.
  intros a w rest [= <- <- <-]. rewrite length_drop. lia.
Qed.

Lemma enough_fuel (fuel : nat) :
  enough_for_value fuel /\ enough_for_members fuel /\ enough_for_elements fuel.
Proof.
  induction fuel as [|fuel (IHv & IHm & IHe)].
  - repeat split; intros; simpl in *; first [lia | discriminate].
  - assert (Hv : enough_for_value (S fuel)).
    { intros s. cbn [parse_value]. destruct s as [|c rest].
      { split; [discriminate | discriminate]. }
      pose proof (skip_ws_length rest) as Hws. simpl.
      destruct (Ascii.eqb c "{").
      { destruct (starts_with "}" (skip_ws rest)) as [r|] eqn:Hs.
        - apply starts_with_length in Hs.
          split; [discriminate|]. intros a w r0 [= <- <- <-]. lia.
        - destruct (IHm (skip_ws rest) [] false) as [H1 H2].
          split; [intros; apply H1; lia|].
          intros a w r0 H. apply H2 in H. lia. }
      destruct (Ascii.eqb c "[").
      { destruct (starts_with "]" (skip_ws rest)) as [r|] eqn:Hs.
        - apply starts_with_length in Hs.
          split; [discriminate|]. intros a w r0 [= <- <- <-]. lia.
        - destruct (IHe (skip_ws rest) [] false) as [H1 H2].
          split; [intros; apply H1; lia|].
          intros a w r0 H. apply H2 in H. lia. }
      destruct (Ascii.eqb c Js.dquote).
      { destruct (parse_string_body_length (String.length rest) rest
                    EmptyString false (Nat.le_refl _)) as [H1 H2].
        destruct (parse_string_body rest EmptyString false) as [str w0 r| |];
          try (split; [discriminate | discriminate]).
        - split; [discriminate|]. intros a w r0 [= <- <- <-].
          specialize (H2 _ _ _ eq_refl). lia.
        - contradiction. }
      destruct (Ascii.eqb c "t");
        [destruct (parse_keyword_length "true" (JBool true) (String c rest));
         split; [auto | assumption]|].
      destruct (Ascii.eqb c "f");
        [destruct (parse_keyword_length "false" (JBool false) (String c rest));
         split; [auto | assumption]|].
      destruct (Ascii.eqb c "n");
        [destruct (parse_keyword_length "null" JNull (String c rest));
         split; [auto | assumption]|].
      destruct (parse_number_length (String c rest)) as [H1 H2].
      destruct (parse_number (String c rest)) as [n w0 r| |];
        try (split; [discriminate | discriminate]).
      - split; [discriminate|]. intros a w r0 [= <- <- <-].
        exact (H2 _ _ _ eq_refl).
      - contradiction. }
    split; [exact Hv|]. split.
    + intros s acc wide. cbn [parse_members].
      destruct (starts_with Js.dquote s) as [rest|] eqn:Hq;
        [|split; [discriminate | discriminate]].
      apply starts_with_length in Hq.
      destruct (parse_string_body_length (String.length rest) rest
                  EmptyString false (Nat.le_refl _)) as [Hb1 Hb2].
      destruct (parse_string_body rest EmptyString false) as [key w1 rest1| |];
        [|split; discriminate | contradiction].
      specialize (Hb2 _ _ _ eq_refl).
      pose proof (skip_ws_length rest1) as Hws1.
      destruct (starts_with ":" (skip_ws rest1)) as [rest2|] eqn:Hc;
        [|split; discriminate].
      apply starts_with_length in Hc.
      pose proof (skip_ws_length rest2) as Hws2.
      destruct (IHv (skip_ws rest2)) as [Hv1 Hv2].
      destruct (parse_value fuel (skip_ws rest2)) as [v w2 rest3| |] eqn:Hpv.
      * specialize (Hv2 _ _ _ eq_refl). cbv zeta.
        pose proof (skip_ws_length rest3) as Hws3.
        destruct (starts_with "," (skip_ws rest3)) as [rest4|] eqn:Hcomma.
        -- apply starts_with_length in Hcomma.
           pose proof (skip_ws_length rest4) as Hws4.
           destruct (IHm (skip_ws rest4) (obj_set acc key v) (wide || w1 || w2))
             as [H1 H2].
           split; [intros; apply H1; lia|].
           intros a w r0 H. apply H2 in H. lia.
        -- destruct (starts_with "}" (skip_ws rest3)) as [rest4|] eqn:Hclose;
             [|split; discriminate].
           apply starts_with_length in Hclose.
           split; [discriminate|]. intros a w r0 [= <- <- <-]. lia.
      * split; discriminate.
      * split; [|discriminate]. intros Hfuel. exfalso. apply Hv1; [lia | reflexivity].
    + intros s acc wide. cbn [parse_elements].
      destruct (IHv s) as [Hv1 Hv2].
      destruct (parse_value fuel s) as [v w1 rest1| |] eqn:Hpv.
      * specialize (Hv2 _ _ _ eq_refl). cbv zeta.
        pose proof (skip_ws_length rest1) as Hws1.
        destruct (starts_with "," (skip_ws rest1)) as [rest2|] eqn:Hcomma.
        -- apply starts_with_length in Hcomma.
           pose proof (skip_ws_length rest2) as Hws2.
           destruct (IHe (skip_ws rest2) (acc ++ [v]) (wide || w1)) as [H1 H2].
           split; [intros; apply H1; lia|].
           intros a w r0 H. apply H2 in H. lia.
        -- destruct (starts_with "]" (skip_ws rest1)) as [rest2|] eqn:Hclose;
             [|split; discriminate].
           apply starts_with_length in Hclose.
           split; [discriminate|]. intros a w r0 [= <- <- <-]. lia.
      * split; discriminate.
      * split; [|discriminate]. intros Hfuel. exfalso. apply Hv1; [lia | reflexivity].
Qed.

(** JSON.parse never stops for lack of fuel: a SyntaxError of the model
    is an error of the text. *)
Lemma JSON_parse_fuel (text : string) :
  parse_value (2 * String.length text + 2) (skip_ws text) <> PFuel.
Proof.
  destruct (enough_fuel (2 * String.length text + 2)) as [Hv _].
  apply Hv. pose proof (skip_ws_length text). lia.
Qed.

End ParserFuel.

(** ** The loops over the matches of a pattern end *)

Section RegexFuel.
Import Regex.

(** A match hands over to its continuation a text that is no longer,
    and shorter when the pattern cannot match the empty text. *)
Lemma run_shrinks (ic : bool) (r : regex) :
  forall prev s caps (k : cont) res,
    run ic r prev s caps k = Some res ->
    exists prev' s' caps',
      k prev' s' caps' = Some res
      /\ String.length s' <= String.length s
      /\ (nullable r = false -> String.length s' < String.length s).
Proof.
  induction r as [| c | | negated items | r1 IH1 r2 IH2 | r1 IH1 r2 IH2
                  | greedy r1 IH1 | n r1 IH1 | | r1 IH1 |];
    intros prev s caps k res; cbn [run nullable].
  - intros H. exists prev, s, caps. split; [assumption|]. split; [lia | discriminate].
  - destruct s as [|x rest]; [discriminate|].
    destruct (char_eq ic c x); [|discriminate].
    intros H. exists (Some x), rest, caps. simpl. repeat split; [assumption | lia | lia].
  - destruct s as [|x rest]; [discriminate|].
    destruct (is_line_end x); [discriminate|].
    intros H. exists (Some x), rest, caps. simpl. repeat split; [assumption | lia | lia].
  - destruct s as [|x rest]; [discriminate|].
    destruct (class_match ic negated items x); [|discriminate].
    intros H. exists (Some x), rest, caps. simpl. repeat split; [assumption | lia | lia].
  - intros H. apply IH1 in H as (p1 & s1 & c1 & H & Hle1 & Hlt1).
    apply IH2 in H as (p2 & s2 & c2 & H & Hle2 & Hlt2).
    exists p2, s2, c2. split; [assumption|]. split; [lia|].
    intros Hn. apply andb_false_iff in Hn as [Hn|Hn];
      [specialize (Hlt1 Hn) | specialize (Hlt2 Hn)]; lia.
  - intros H.
    destruct (run ic r1 prev s caps k) as [res1|] eqn:H1.
    + injection H as ->. apply IH1 in H1 as (p1 & s1 & c1 & H & Hle & Hlt).
      exists p1, s1, c1. split; [assumption|]. split; [assumption|].
      intros Hn. apply orb_false_iff in Hn as [Hn _]. auto.
    + apply IH2 in H as (p1 & s1 & c1 & H & Hle & Hlt).
      exists p1, s1, c1. split; [assumption|]. split; [assumption|].
      intros Hn. apply orb_false_iff in Hn as [_ Hn]. auto.
  - generalize (S (String.length s)). intros fuel. revert prev s caps res.
    induction fuel as [|fuel IHf]; intros prev s caps res H.
    + exists prev, s, caps. split; [exact H|]. split; [lia | discriminate].
    + cbn [repeat_match] in H. cbv zeta in H. destruct greedy.
      * destruct (run ic r1 prev s caps _) as [res1|] eqn:H1.
        -- injection H as ->.
           apply IH1 in H1 as (p1 & s1 & c1 & H & Hle & _).
           destruct (String.length s1 <? String.length s)%nat; [|discriminate].
           apply IHf in H as (p2 & s2 & c2 & H & Hle2 & _).
           exists p2, s2, c2. split; [assumption|]. split; [lia | discriminate].
        -- exists prev, s, caps. split; [assumption|]. split; [lia | discriminate].
      * destruct (k prev s caps) as [res1|] eqn:Hk.
        -- injection H as ->. exists prev, s, caps.
           split; [assumption|]. split; [lia | discriminate].
        -- apply IH1 in H as (p1 & s1 & c1 & H & Hle & _).
           destruct (String.length s1 <? String.length s)%nat; [|discriminate].
           apply IHf in H as (p2 & s2 & c2 & H & Hle2 & _).
           exists p2, s2, c2. split; [assumption|]. split; [lia | discriminate].
  - intros H. apply IH1 in H as (p1 & s1 & c1 & H & Hle & Hlt).
    eexists p1, s1, _. split; [exact H|]. split; assumption.
  - destruct (xorb _ _); [|discriminate].
    intros H. exists prev, s, caps. split; [assumption|]. split; [lia | discriminate].
  - destruct (run ic r1 prev s caps _); [discriminate|].
    intros H. exists prev, s, caps. split; [assumption|]. split; [lia | discriminate].
  - destruct s; [|discriminate].
    intros H. exists prev, EmptyString, caps.
    split; [assumption|]. split; [lia | discriminate].
Qed.

Lemma search_bounds (ic : bool) (r : regex) (s : string) :
  forall prev idx m,
    search ic r prev s idx = Some m ->
    idx <= index m /\ index m <= last m /\ last m <= idx + String.length s
    /\ (nullable r = false -> index m < last m).
Proof.
  induction s as [|x rest IH]; intros prev idx m; cbn [search].
  - destruct (run ic r prev EmptyString [] _) as [[s' caps']|] eqn:Hrun;
      [|discriminate].
    apply run_shrinks in Hrun as (p1 & s1 & c1 & [= <- <-] & Hle & Hlt).
    intros [= <-]. cbn [index last String.length] in *.
    split; [lia|]. split; [lia|]. split; [lia|].
    intros Hn. specialize (Hlt Hn). lia.
  - destruct (run ic r prev (String x rest) [] _) as [[s' caps']|] eqn:Hrun.
    + apply run_shrinks in Hrun as (p1 & s1 & c1 & [= <- <-] & Hle & Hlt).
      intros [= <-]. cbn [index last String.length] in *.
      split; [lia|]. split; [lia|]. split; [lia|].
      intros Hn. specialize (Hlt Hn). lia.
    + intros H. apply IH in H as (H1 & H2 & H3 & H4).
      cbn [String.length].
      split; [lia|]. split; [lia|]. split; [lia|]. exact H4.
Qed.

(** Each turn of the loop moves lastIndex forward, within the text. *)
Lemma exec_advances (re : RegExp) (lastIndex : nat) (s : string) m lastIndex' :
  global re = true -> nullable (source re) = false ->
  exec re lastIndex s = (Some m, lastIndex') ->
  lastIndex < lastIndex' /\ lastIndex' <= String.length s.
Proof.
  intros Hg Hn. unfold exec. rewrite Hg.
  destruct (String.length s <? lastIndex)%nat eqn:Hlen; [discriminate|].
  apply Nat.ltb_ge in Hlen.
  destruct (search _ _ _ _ _) as [m0|] eqn:Hs; [|discriminate].
  intros [= <- <-].
  apply search_bounds in Hs as (H1 & H2 & H3 & H4). specialize (H4 Hn).
  rewrite length_drop in H3. lia.
Qed.

Lemma exec_loop_fuel (re : RegExp) (s : string) :
  global re = true -> nullable (source re) = false ->
  forall fuel lastIndex extra,
    String.length s < fuel + lastIndex ->
    exec_loop (fuel + extra) re lastIndex s = exec_loop fuel re lastIndex s.
Proof.
  intros Hg Hn. induction fuel as [|fuel IH]; intros lastIndex extra Hlen.
  - simpl. destruct extra as [|extra]; [reflexivity|]. cbn [exec_loop].
    unfold exec. rewrite Hg.
    destruct (Nat.ltb_spec (String.length s) lastIndex); [reflexivity | lia].
  - cbn [exec_loop Nat.add].
    destruct (exec re lastIndex s) as [[m|] lastIndex'] eqn:He; [|reflexivity].
    f_equal. apply IH.
    apply (exec_advances _ _ _ _ _ Hg Hn) in He. lia.
Qed.

(** The loop over all matches ends with the fuel it is given: more
    fuel finds the same matches. *)
Lemma exec_all_fuel (re : RegExp) (i : bool) (s : string) (extra : nat) :
  nullable (source re) = false ->
  exec_loop (S (String.length s) + extra) (fresh re true i) 0 s
  = exec_all (fresh re true i) s.
Proof.
  intros Hn. unfold exec_all. apply exec_loop_fuel; [reflexivity | exact Hn | lia].
Qed.

(** None of the patterns that the detectors loop over matches the empty
    text, nor does the pattern that the Python detector builds from the
    name of an instance. *)
Lemma loop_patterns_consume :
  forallb (fun re => negb (nullable (source re))) LOOP_PATTERNS = true
  /\ forall instance : string,
       nullable (cat [Python.chr "@"; lit instance; lit ".tool";
                      Python.call_args; Python.def_name]) = false.
Proof. split; [reflexivity | intros; reflexivity]. Qed.

End RegexFuel.

(** ** The inference engine *)

Ltac each_char c :=
  destruct c as [[|] [|] [|] [|] [|] [|] [|] [|]]; vm_compute;
  try reflexivity; try discriminate; auto.

Lemma upper_is_not_lower (c : ascii) :
  Js.is_upper c = true -> Js.is_lower c = false.
Proof. each_char c. Qed.

Lemma upper_is_no_boundary (c : ascii) :
  Js.is_upper c = true -> Spec.is_boundary c = false.
Proof. each_char c. Qed.

Lemma boundary_is_not_lower (c : ascii) :
  Spec.is_boundary c = true -> Js.is_lower c = false.
Proof. each_char c. Qed.

Lemma boundary_becomes_space (c : ascii) :
  Spec.is_boundary c = true ->
  Js.is_space (Js.lower_char (Inference.separator_to_space c)) = true.
Proof. each_char c. Qed.

Lemma other_is_kept (c : ascii) :
  Spec.is_boundary c = false ->
  Js.lower_char (Inference.separator_to_space c) = Js.lower_char c.
Proof. each_char c. Qed.

Lemma other_is_no_space (c : ascii) :
  Spec.is_boundary c = false -> Js.is_space (Js.lower_char c) = false.
Proof. each_char c. Qed.

Lemma replace_upper_head (sep b : ascii) (rest : string) :
  Js.is_upper b = true ->
  Js.replace_lower_upper sep (String b rest)
  = String b (Js.replace_lower_upper sep rest).
Proof.
  intros Hb. apply upper_is_not_lower in Hb. simpl.
  destruct rest as [|c rest']; [reflexivity|]. now rewrite Hb.
Qed.

(** The replacement seen one character at a time. *)
Lemma replace_lower_upper_cons (sep a : ascii) (t : string) :
  Js.replace_lower_upper sep (String a t)
  = String a (if Js.is_lower a && Spec.starts_upper t
              then String sep (Js.replace_lower_upper sep t)
              else Js.replace_lower_upper sep t).
Proof.
  destruct t as [|b rest]; simpl.
  - now rewrite andb_false_r.
  - destruct (Js.is_lower a); simpl; [|reflexivity].
    destruct (Js.is_upper b) eqn:Hb; [|reflexivity].
    f_equal. f_equal. symmetry.
    change (Js.replace_lower_upper sep (String b rest)
            = String b (Js.replace_lower_upper sep rest)).
    now apply replace_upper_head.
Qed.

Lemma prepared_cons (pl : bool) (c : ascii) (rest : string) :
  Spec.prepared pl (String c rest)
  = if pl && Js.is_upper c
    then String Js.space
           (String (Js.lower_char (Inference.separator_to_space c))
              (Spec.prepared (Js.is_lower c) rest))
    else String (Js.lower_char (Inference.separator_to_space c))
           (Spec.prepared (Js.is_lower c) rest).
Proof.
  unfold Spec.prepared, Inference.replace_camel.
  rewrite replace_lower_upper_cons. cbn [Spec.starts_upper].
  destruct (pl && Js.is_upper c);
    destruct (Js.is_lower c && Spec.starts_upper rest); reflexivity.
Qed.

Lemma filter_flush (cur : string) (l : list string) :
  List.filter Js.nonempty (cur :: l) = Spec.flush cur ++ List.filter Js.nonempty l.
Proof. unfold Spec.flush. simpl. now destruct (Js.nonempty cur). Qed.

(** The split of the prepared text gives the words of the one-pass
    reading, whatever word is being read. *)
Lemma split_prepared (s : string) :
  forall (pl : bool) (cur : string) (in_sep : bool),
    (in_sep = true -> cur = EmptyString) ->
    List.filter Js.nonempty (Inference.split_ws_go cur in_sep (Spec.prepared pl s))
    = Spec.words pl cur s.
Proof.
  induction s as [|c rest IH]; intros pl cur in_sep Hsep.
  - unfold Spec.prepared. rewrite andb_false_r. simpl.
    unfold Spec.flush. now destruct (Js.nonempty cur).
  - rewrite prepared_cons. cbn [Spec.words].
    destruct (Spec.is_boundary c) eqn:Hb.
    + assert (Hup : Js.is_upper c = false).
      { destruct (Js.is_upper c) eqn:Hu; [|reflexivity].
        apply upper_is_no_boundary in Hu. congruence. }
      rewrite Hup, andb_false_r. cbn [Inference.split_ws_go].
      rewrite (boundary_becomes_space c Hb), (boundary_is_not_lower c Hb).
      destruct in_sep.
      * rewrite (Hsep eq_refl). apply (IH false EmptyString true). reflexivity.
      * rewrite filter_flush. f_equal.
        apply (IH false EmptyString true). reflexivity.
    + rewrite (other_is_kept c Hb).
      destruct (pl && Js.is_upper c) eqn:Hcut.
      * cbn [Inference.split_ws_go].
        replace (Js.is_space Js.space) with true by reflexivity.
        rewrite (other_is_no_space c Hb).
        destruct in_sep.
        -- rewrite (Hsep eq_refl). cbn [Spec.flush Js.nonempty app].
           apply (IH _ _ false). discriminate.
        -- rewrite filter_flush. f_equal. apply (IH _ _ false). discriminate.
      * cbn [Inference.split_ws_go]. rewrite (other_is_no_space c Hb).
        apply (IH _ _ false). discriminate.
Qed.

(** C9. Tokenization splits an identifier into lowercase words, with a
    boundary at every transition from a small letter to a capital and at
    every underscore, hyphen and white space: the code's chain of
    replacements, lowering, split and filter gives exactly the words of
    the one-pass reading of the specification; and the two examples hold:
    getUserData gives get, user, data, and LIST_FILES gives list, files. *)
Theorem tokenize_splits_into_lowercase_words :
  (forall text : string, Inference.tokenize text = Spec.tokenize text)
  /\ Inference.tokenize "getUserData" = ["get"; "user"; "data"]
  /\ Inference.tokenize "LIST_FILES" = ["list"; "files"].
Proof.
  split; [|split; reflexivity].
  intros text. unfold Inference.tokenize, Spec.tokenize, Inference.split_ws.
  rewrite <- (split_prepared text false EmptyString false) by discriminate.
  reflexivity.
Qed.

Lemma token_matches_spec (token stem : string) :
  String.eqb token stem || Js.startsWith token stem || Js.endsWith token stem = true
  <-> Spec.token_matches token stem.
Proof.
  unfold Spec.token_matches, Js.startsWith.
  rewrite !orb_true_iff, String.eqb_eq, prefix_spec, endsWith_spec. tauto.
Qed.

Lemma matchesKeywords_spec (tokens table : list string) :
  Inference.matchesKeywords tokens table = true
  <-> Spec.table_matches tokens table.
Proof.
  unfold Inference.matchesKeywords, Spec.table_matches.
  rewrite existsb_exists. split.
  - intros [token [Ht H]]. apply existsb_exists in H as [stem [Hs H]].
    exists token, stem. rewrite <- !list_elem_of_In in *.
    split; [assumption|]. split; [assumption|]. now apply token_matches_spec.
  - intros [token [stem [Ht [Hs H]]]]. exists token.
    rewrite list_elem_of_In in Ht. split; [assumption|].
    apply existsb_exists. exists stem. rewrite list_elem_of_In in Hs.
    split; [assumption|]. now apply token_matches_spec.
Qed.

Lemma classifies_functional (tokens : list string)
  (tables : list (Permission * list string)) (p q : Permission) :
  Spec.classifies tokens tables p -> Spec.classifies tokens tables q -> p = q.
Proof.
  intros Hp. revert q.
  induction Hp as [p table rest Hm | p table rest r Hn Hr IH |]; intros q Hq;
    inversion Hq; subst; try reflexivity; try contradiction.
  now apply IH.
Qed.

(** What the code joins: the tokens of the name, then those of the
    description, an absent or empty description giving none. *)
Lemma allTokens_spec (name : string) (description : option string) :
  Inference.tokenize name ++
    match description with
    | Some d => if Js.nonempty d then Inference.tokenize d else []
    | None => []
    end
  = Inference.tokenize name ++ Spec.description_tokens description.
Proof. destruct description as [[|c d]|]; reflexivity. Qed.

Lemma inferPermission_classifies (name : string) (description : option string) :
  Spec.classifies
    (Inference.tokenize name ++ Spec.description_tokens description)
    Spec.PRIORITY (Inference.inferPermission name description).
Proof.
  unfold Inference.inferPermission. cbv zeta. rewrite allTokens_spec.
  set (tokens := Inference.tokenize name ++ Spec.description_tokens description).
  unfold Spec.PRIORITY.
  destruct (Inference.matchesKeywords tokens Inference.DELETE_KEYWORDS) eqn:H1;
    [apply Spec.classifies_first; now apply matchesKeywords_spec|].
  apply Spec.classifies_later;
    [rewrite <- matchesKeywords_spec; congruence|].
  destruct (Inference.matchesKeywords tokens Inference.EXECUTE_KEYWORDS) eqn:H2;
    [apply Spec.classifies_first; now apply matchesKeywords_spec|].
  apply Spec.classifies_later;
    [rewrite <- matchesKeywords_spec; congruence|].
  destruct (Inference.matchesKeywords tokens Inference.WRITE_KEYWORDS) eqn:H3;
    [apply Spec.classifies_first; now apply matchesKeywords_spec|].
  apply Spec.classifies_later;
    [rewrite <- matchesKeywords_spec; congruence|].
  destruct (Inference.matchesKeywords tokens Inference.OUTPUT_KEYWORDS) eqn:H4;
    [apply Spec.classifies_first; now apply matchesKeywords_spec|].
  apply Spec.classifies_later;
    [rewrite <- matchesKeywords_spec; congruence|].
  destruct (Inference.matchesKeywords tokens Inference.READ_KEYWORDS) eqn:H5;
    [apply Spec.classifies_first; now apply matchesKeywords_spec|].
  apply Spec.classifies_later;
    [rewrite <- matchesKeywords_spec; congruence|].
  apply Spec.classifies_none.
Qed.

(** C1. inferPermission tokenizes the name and the optional description;
    a token matches a table if it equals, starts with, or ends with one
    of its stems; the tables are tried in the order DELETE, EXECUTE,
    WRITE, OUTPUT, READ, the first table with a matching token gives the
    permission, and UNKNOWN is the result when no table matches. The
    name update_and_delete matches a WRITE stem and a DELETE stem, and
    classifies as DELETE. *)
Theorem inferPermission_first_matching_table :
  (forall tokens table : list string,
      Inference.matchesKeywords tokens table = true
      <-> Spec.table_matches tokens table)
  /\ (forall (name : string) (description : option string) (p : Permission),
         Inference.inferPermission name description = p
         <-> Spec.classifies
               (Inference.tokenize name ++ Spec.description_tokens description)
               Spec.PRIORITY p)
  /\ Spec.table_matches (Inference.tokenize "update_and_delete")
       Inference.WRITE_KEYWORDS
  /\ Spec.table_matches (Inference.tokenize "update_and_delete")
       Inference.DELETE_KEYWORDS
  /\ Inference.inferPermission "update_and_delete" None = DELETE.
Proof.
  split; [exact matchesKeywords_spec|].
  split.
  - intros name description p. split.
    + intros <-. apply inferPermission_classifies.
    + intros H.
      exact (classifies_functional _ _ _ _
               (inferPermission_classifies name description) H).
  - repeat split; try (apply matchesKeywords_spec); reflexivity.
Qed.

(** ** The risk of every tool follows its permission *)

Section Invariants.

Lemma fold_left_preserves {A B : Type} (P : A -> Prop) (f : A -> B -> A)
  (l : list B) (a : A) :
  P a -> (forall a b, P a -> P (f a b)) -> P (fold_left f l a).
Proof.
  intros Ha Hf. revert a Ha. induction l as [|b l IH]; intros a Ha; simpl.
  - exact Ha.
  - apply IH. now apply Hf.
Qed.

Lemma empty_ok : Spec.tools_ok Base.emptyResult.
Proof. constructor. Qed.

Lemma push_tool_ok (r : DetectorResult) (t : Tool.t) :
  Spec.tools_ok r -> Spec.risk_follows_permission t -> Spec.tools_ok (Base.push_tool r t).
Proof.
  unfold Spec.tools_ok. simpl. intros Hr Ht. apply Forall_app. split; [assumption|].
  now constructor.
Qed.

Lemma push_agent_ok (r : DetectorResult) (a : Agent.t) :
  Spec.tools_ok r -> Spec.tools_ok (Base.push_agent r a).
Proof. trivial. Qed.

Lemma push_server_ok (r : DetectorResult) (x : McpServer.t) :
  Spec.tools_ok r -> Spec.tools_ok (Base.push_server r x).
Proof. trivial. Qed.

Lemma merge_ok (r1 r2 : DetectorResult) :
  Spec.tools_ok r1 -> Spec.tools_ok r2 -> Spec.tools_ok (Router.merge r1 r2).
Proof. unfold Spec.tools_ok. simpl. intros H1 H2. apply Forall_app. now split. Qed.

End Invariants.

(** *** TypeScript *)

Lemma ts_createToolFromName_ok name file line framework description :
  Spec.risk_follows_permission
    (TypeScript.createToolFromName name file line framework description).
Proof. reflexivity. Qed.

Lemma ts_tools_of_matches_ok pattern framework content file r :
  Spec.tools_ok r ->
  Spec.tools_ok (TypeScript.tools_of_matches pattern framework content file r).
Proof.
  intros Hr. unfold TypeScript.tools_of_matches.
  apply fold_left_preserves; [assumption|]. intros a m Ha.
  apply push_tool_ok; [assumption | apply ts_createToolFromName_ok].
Qed.

Lemma ts_detect_ok st file : Spec.tools_ok (fst (TypeScript.detect st file)).
Proof.
  unfold TypeScript.detect.
  destruct (TypeScript.detectFramework st (content file)) as [fw st1]. simpl.
  unfold TypeScript.detectJsDocTools, TypeScript.detectCreateToolPatterns,
    TypeScript.detectLangChainTools.
  repeat apply ts_tools_of_matches_ok.
  unfold TypeScript.detectMcpServers.
  apply fold_left_preserves; [|intros; now apply push_server_ok].
  unfold TypeScript.detectServerTools.
  apply fold_left_preserves; [apply empty_ok|]. intros a m Ha.
  apply push_tool_ok; [assumption | apply ts_createToolFromName_ok].
Qed.

(** *** Python *)

Lemma py_createToolFromName_ok st name file line framework :
  Spec.risk_follows_permission
    (Python.createToolFromName st name file line framework).
Proof. reflexivity. Qed.

Lemma py_tools_of_matches_ok st pattern i framework content file r :
  Spec.tools_ok r ->
  Spec.tools_ok (Python.tools_of_matches st pattern i framework content file r).
Proof.
  intros Hr. unfold Python.tools_of_matches.
  apply fold_left_preserves; [assumption|]. intros a m Ha.
  apply push_tool_ok; [assumption | apply py_createToolFromName_ok].
Qed.

Lemma py_detectToolCollections_ok st content file r :
  Spec.tools_ok r -> Spec.tools_ok (Python.detectToolCollections st content file r).
Proof.
  intros Hr. unfold Python.detectToolCollections.
  repeat apply py_tools_of_matches_ok.
  apply fold_left_preserves; [assumption|]. intros a m Ha.
  apply fold_left_preserves; [assumption|]. intros a' funcName Ha'.
  destruct (existsb (String.eqb funcName) Python.NOT_FUNCTIONS); [assumption|].
  apply push_tool_ok; [assumption | apply py_createToolFromName_ok].
Qed.

Lemma py_detectLangGraphNodes_ok st content file r :
  Spec.tools_ok r -> Spec.tools_ok (fst (Python.detectLangGraphNodes st content file r)).
Proof.
  intros Hr. unfold Python.detectLangGraphNodes.
  destruct (Regex.test _ _ _) as [found i].
  destruct found; simpl; [|assumption].
  apply fold_left_preserves; [assumption|]. intros; now apply push_agent_ok.
Qed.

Lemma py_detect_ok st file : Spec.tools_ok (fst (Python.detect st file)).
Proof.
  unfold Python.detect.
  destruct (Python.detectFramework st (content file)) as [fw st1].
  match goal with
  | |- context [Python.detectLangGraphNodes ?s ?c ?f ?r] =>
      pose proof (py_detectLangGraphNodes_ok s c f r) as Hg;
      destruct (Python.detectLangGraphNodes s c f r) as [r1 st2]
  end.
  simpl in *.
  unfold Python.detectAutoGenAgents.
  apply fold_left_preserves; [|intros; now apply push_agent_ok].
  unfold Python.detectCrewAiAgents.
  apply fold_left_preserves; [|intros; now apply push_agent_ok].
  apply Hg. apply py_detectToolCollections_ok.
  unfold Python.detectFastMcpTools.
  apply fold_left_preserves; [|intros; now apply py_tools_of_matches_ok].
  unfold Python.detectToolDecorators.
  repeat apply py_tools_of_matches_ok. apply empty_ok.
Qed.

(** *** Go *)

Lemma go_tool_of_ok name file line version parameters :
  Spec.risk_follows_permission (Go.tool_of name file line version parameters).
Proof. reflexivity. Qed.

Lemma go_detect_ok st file : Spec.tools_ok (fst (Go.detect st file)).
Proof.
  unfold Go.detect. destruct (Regex.test _ _ _) as [imported i]. simpl.
  unfold Go.detectToolFunctions.
  apply fold_left_preserves.
  2:{ intros a m Ha. destruct (existsb _ _); [assumption|].
      apply push_tool_ok; [assumption | apply go_tool_of_ok]. }
  unfold Go.detectToolRegistrations.
  apply fold_left_preserves.
  2:{ intros a m Ha. destruct (existsb _ _); [assumption|].
      apply push_tool_ok; [assumption | apply go_tool_of_ok]. }
  destruct (_ || _ || _); [|apply empty_ok].
  unfold Go.detectCapabilities.
  apply fold_left_preserves; [apply empty_ok|]. intros a m Ha.
  apply push_tool_ok; [assumption | apply go_tool_of_ok].
Qed.

(** *** The configuration detector emits no tool and no agent *)

Lemma visit_entry_tools file r entry :
  tools (McpConfig.visit_entry file r entry) = tools r
  /\ agents (McpConfig.visit_entry file r entry) = agents r.
Proof.
  unfold McpConfig.visit_entry. destruct entry as [serverName serverConfig].
  destruct (_ || _); [now split|].
  destruct (McpConfig.parseServerConfig _ _ _); now split.
Qed.

Lemma mcp_detect_no_tools file r :
  McpConfig.detect file = Some r -> tools r = [] /\ agents r = [].
Proof.
  unfold McpConfig.detect.
  destruct (McpConfig.isMcpConfigFile file); simpl;
    [|intros [= <-]; now split].
  assert (Hbody : forall r0 c, McpConfig.try_block file Base.emptyResult = Some (r0, c) ->
                          tools r0 = [] /\ agents r0 = []).
  { unfold McpConfig.try_block. intros r0 c.
    destruct (Json.JSON_parse (content file)) as [v| |];
      [|intros [= <- <-]; now split | discriminate].
    assert (Hfold : forall l r1,
               tools (fold_left (McpConfig.visit_entry file) l r1) = tools r1
               /\ agents (fold_left (McpConfig.visit_entry file) l r1) = agents r1).
    { induction l as [|e l IH]; intros r1; simpl; [now split|].
      destruct (IH (McpConfig.visit_entry file r1 e)) as [-> ->].
      apply visit_entry_tools. }
    destruct v; intros [= <- <-]; try (now split); apply Hfold. }
  destruct (McpConfig.try_block file Base.emptyResult) as [[r0 c]|] eqn:Hb;
    [|discriminate].
  destruct c; intros [= <-]; eapply Hbody; reflexivity.
Qed.

(** *** The router and the assembly keep the invariant *)

Lemma McpConfigDetector_sound : Spec.sound_detector Router.McpConfigDetector.
Proof.
  intros w file r w'. simpl.
  destruct (McpConfig.detect file) as [r0|] eqn:Hd; [|discriminate].
  intros [= <- <-]. unfold Spec.tools_ok.
  destruct (mcp_detect_no_tools _ _ Hd) as [-> _]. constructor.
Qed.

Lemma PythonDetector_sound : Spec.sound_detector Router.PythonDetector.
Proof.
  intros w file r w'. simpl.
  pose proof (py_detect_ok (Router.python w) file) as H.
  destruct (Python.detect (Router.python w) file) as [r0 st].
  intros [= <- <-]. exact H.
Qed.

Lemma TypeScriptDetector_sound : Spec.sound_detector Router.TypeScriptDetector.
Proof.
  intros w file r w'. simpl.
  pose proof (ts_detect_ok (Router.typescript w) file) as H.
  destruct (TypeScript.detect (Router.typescript w) file) as [r0 st].
  intros [= <- <-]. exact H.
Qed.

Lemma GoDetector_sound : Spec.sound_detector Router.GoDetector.
Proof.
  intros w file r w'. simpl.
  pose proof (go_detect_ok (Router.go w) file) as H.
  destruct (Go.detect (Router.go w) file) as [r0 st].
  intros [= <- <-]. exact H.
Qed.

Lemma register_sound router detector extensions :
  Spec.sound_router router -> Spec.sound_detector detector ->
  Spec.sound_router (Router.register router detector extensions).
Proof.
  intros Hr Hd. unfold Router.register.
  apply fold_left_preserves; [assumption|].
  clear router Hr. intros router ext [Hmap Hglobal]. split; [|assumption].
  intros e ds. cbn [Router.detectors].
  set (key := if Js.startsWith ext "." then ext else "." +:+ ext).
  destruct (decide (key = e)) as [<-|Hne].
  - rewrite lookup_insert_eq. intros [= <-]. apply Forall_app. split.
    + destruct (Router.detectors router !! key) as [existing|] eqn:He; simpl.
      * now apply (Hmap key).
      * constructor.
    + constructor; [assumption | constructor].
  - rewrite lookup_insert_ne by assumption. apply Hmap.
Qed.

Lemma createRouter_sound : Spec.sound_router Scan.createRouter.
Proof.
  unfold Scan.createRouter.
  repeat apply register_sound;
    auto using McpConfigDetector_sound, PythonDetector_sound,
      TypeScriptDetector_sound, GoDetector_sound.
  split; [|constructor]. simpl. intros e ds. now rewrite lookup_empty.
Qed.

Lemma processFile_ok router w file r w' :
  Spec.sound_router router ->
  Router.processFile router w file = Some (r, w') -> Spec.tools_ok r.
Proof.
  intros [Hmap Hglobal]. unfold Router.processFile.
  assert (Hds : Forall Spec.sound_detector (Router.getDetectorsForFile router file)).
  { unfold Router.getDetectorsForFile. apply Forall_app. split; [assumption|].
    destruct (Router.detectors router !! extension file) as [ds|] eqn:He; simpl.
    - now apply (Hmap (extension file)).
    - constructor. }
  revert Hds. generalize (Router.getDetectorsForFile router file). intros ds Hds.
  assert (Hgen : forall acc,
             match acc with Some (r0, _) => Spec.tools_ok r0 | None => True end ->
             match fold_left (fun acc detector =>
                     match acc with
                     | None => None
                     | Some (result, w0) =>
                         match Router.detect detector w0 file with
                         | (Router.Returned detectorResult, w1) =>
                             Some (Router.merge result detectorResult, w1)
                         | (Router.Threw, w1) => Some (result, w1)
                         | (Router.OutsideModel, _) => None
                         end
                     end) ds acc
             with Some (r0, _) => Spec.tools_ok r0 | None => True end).
  { induction Hds as [|d ds Hd Hds IH]; intros acc Hacc; simpl; [assumption|].
    apply IH. destruct acc as [[r0 w0]|]; [|exact I].
    destruct (Router.detect d w0 file) as [[r1| |] w1] eqn:Hdet; try exact I.
    - apply merge_ok; [assumption|]. exact (Hd _ _ _ _ Hdet).
    - assumption. }
  intros Heq. specialize (Hgen (Some (Base.emptyResult, w)) empty_ok).
  now rewrite Heq in Hgen.
Qed.

Lemma processFiles_ok router w files r w' :
  Spec.sound_router router ->
  Router.processFiles router w files = Some (r, w') -> Spec.tools_ok r.
Proof.
  intros Hrouter. unfold Router.processFiles.
  assert (Hgen : forall acc,
             match acc with Some (r0, _) => Spec.tools_ok r0 | None => True end ->
             match fold_left (fun acc file =>
                     match acc with
                     | None => None
                     | Some (result, w0) =>
                         match Router.processFile router w0 file with
                         | Some (fileResult, w1) =>
                             Some (Router.merge result fileResult, w1)
                         | None => None
                         end
                     end) files acc
             with Some (r0, _) => Spec.tools_ok r0 | None => True end).
  { induction files as [|f files IH]; intros acc Hacc; simpl; [assumption|].
    apply IH. destruct acc as [[r0 w0]|]; [|exact I].
    destruct (Router.processFile router w0 f) as [[r1 w1]|] eqn:Hf; [|exact I].
    apply merge_ok; [assumption|]. exact (processFile_ok _ _ _ _ _ Hrouter Hf). }
  intros Heq. specialize (Hgen (Some (Base.emptyResult, w)) empty_ok).
  now rewrite Heq in Hgen.
Qed.

(** *** Deduplication, read as a recursion *)

Lemma dedup_fold {A} (key : A -> string) (l : list A) :
  forall (seen : gset string) (unique : list A),
    snd (fold_left (Manifest.dedup_step key) l (seen, unique))
    = unique ++ Manifest.first_occurrences key seen l.
Proof.
  induction l as [|x l IH]; intros seen unique; simpl.
  - now rewrite app_nil_r.
  - case_bool_decide.
    + apply IH.
    + rewrite IH, <- app_assoc. reflexivity.
Qed.

Lemma deduplicate_first_occurrences {A} (key : A -> string) (l : list A) :
  Manifest.deduplicate key l = Manifest.first_occurrences key ∅ l.
Proof. unfold Manifest.deduplicate. now rewrite dedup_fold. Qed.

Lemma first_occurrences_Forall {A} (P : A -> Prop) (key : A -> string)
  (l : list A) :
  forall seen, Forall P l -> Forall P (Manifest.first_occurrences key seen l).
Proof.
  induction l as [|x l IH]; intros seen Hl; simpl; [constructor|].
  inversion Hl; subst. case_bool_decide; [now apply IH|].
  constructor; [assumption | now apply IH].
Qed.

Lemma filter_Forall {A} (P : A -> Prop) (f : A -> bool) (l : list A) :
  Forall P l -> Forall P (List.filter f l).
Proof.
  induction 1 as [|x l Hx Hl IH]; simpl; [constructor|].
  destruct (f x); [now constructor | assumption].
Qed.

(** *** The sort rearranges its input *)

Lemma insert_sorted_perm {A} (compare : A -> A -> Z) (x : A) (l : list A) :
  Permutation (Manifest.insert_sorted compare x l) (x :: l).
Proof.
  induction l as [|y l IH]; simpl; [reflexivity|].
  destruct (compare x y <=? 0)%Z; [reflexivity|].
  etransitivity; [apply perm_skip, IH | apply perm_swap].
Qed.

Lemma sort_perm {A} (compare : A -> A -> Z) (l : list A) :
  Permutation (Manifest.sort compare l) l.
Proof.
  induction l as [|x l IH]; [reflexivity|].
  change (Manifest.sort compare (x :: l))
    with (Manifest.insert_sorted compare x (Manifest.sort compare l)).
  etransitivity; [apply insert_sorted_perm|]. now constructor.
Qed.

Lemma sort_length {A} (compare : A -> A -> Z) (l : list A) :
  length (Manifest.sort compare l) = length l.
Proof. apply Permutation_length, sort_perm. Qed.

Lemma sort_Forall {A} (P : A -> Prop) (compare : A -> A -> Z) (l : list A) :
  Forall P l -> Forall P (Manifest.sort compare l).
Proof.
  intros H. rewrite Forall_forall in *. intros x Hx. apply H.
  now rewrite (sort_perm compare l) in Hx.
Qed.

Lemma assembled_tools_Forall (P : Tool.t -> Prop) options l :
  Forall P l -> Forall P (Scan.assembled_tools options l).
Proof.
  intros H. unfold Scan.assembled_tools.
  assert (Hd : Forall P (Manifest.deduplicateTools l)).
  { unfold Manifest.deduplicateTools. rewrite deduplicate_first_occurrences.
    now apply first_occurrences_Forall. }
  destruct (Scan.given (Scan.framework options));
    destruct (Scan.given (Scan.risk options));
    unfold Manifest.filterByRisk, Manifest.filterByFramework;
    repeat apply filter_Forall; assumption.
Qed.

Lemma assemble_tools localeCompare now result path n d options :
  manifest_tools (Scan.assemble localeCompare now result path n d options)
  = Manifest.sort (Manifest.compare_tools localeCompare)
      (Scan.assembled_tools options (tools result)).
Proof. reflexivity. Qed.

(** C3. The risk of every tool of the final manifest is the fixed table
    applied to its permission: DELETE and EXECUTE give HIGH, WRITE and
    UNKNOWN give MEDIUM, READ and OUTPUT give LOW; each of the four
    detectors returns only tools whose risk follows their permission,
    and so does every manifest that the scan command assembles, from any
    files, in any state of the shared patterns, under any filters. *)
Theorem risk_is_table_of_permission :
  (Inference.inferRisk DELETE = HIGH /\ Inference.inferRisk EXECUTE = HIGH
   /\ Inference.inferRisk WRITE = MEDIUM /\ Inference.inferRisk READ = LOW
   /\ Inference.inferRisk OUTPUT = LOW /\ Inference.inferRisk UNKNOWN = MEDIUM)
  /\ Forall Spec.sound_detector
       [Router.McpConfigDetector; Router.PythonDetector;
        Router.TypeScriptDetector; Router.GoDetector]
  /\ forall (localeCompare : string -> string -> Z) (now : string)
       (w : Router.world) (files : list FileInfo) (absolutePath : string)
       (duration : Z) (options : Scan.ScanOptions) (m : Manifest),
       Scan.scanCommand localeCompare now w files absolutePath duration options
       = Some m ->
       forall t : Tool.t,
         t ∈ manifest_tools m ->
         Tool.risk t = Inference.inferRisk (Tool.permission t).
Proof.
  split; [repeat split|]. split.
  - repeat constructor;
      auto using McpConfigDetector_sound, PythonDetector_sound,
        TypeScriptDetector_sound, GoDetector_sound.
  - intros localeCompare now w files absolutePath duration options m.
    unfold Scan.scanCommand.
    destruct (Router.processFiles Scan.createRouter w files) as [[result w']|] eqn:Hp;
      [|discriminate].
    intros [= <-]. rewrite assemble_tools.
    pose proof (processFiles_ok _ _ _ _ _ createRouter_sound Hp) as Hok.
    apply Forall_forall, sort_Forall, assembled_tools_Forall. exact Hok.
Qed.

(** C3, at an instance: the scan of a TypeScript file and a Python
    file gives a manifest, and the risk of each of its tools follows
    its permission. *)
Lemma risk_follows_permission_example :
  match Scan.scanCommand Spec.ordinal_compare "2026-01-01T00:00:00.000Z"
          Router.initial_world [Examples.ts_a; Examples.py_a] "/repo" 3
          {| Scan.output := None; Scan.framework := None;
             Scan.risk := None; Scan.json := true |}
  with
  | Some m =>
      manifest_tools m <> []
      /\ Forall (fun t => Tool.risk t = Inference.inferRisk (Tool.permission t))
           (manifest_tools m)
  | None => False
  end.
Proof.
  destruct (Scan.scanCommand _ _ _ _ _ _ _) as [m|] eqn:Hscan.
  - split.
    + vm_compute in Hscan. injection Hscan as <-. discriminate.
    + apply Forall_forall. intros t Ht.
      exact (proj2 (proj2 risk_is_table_of_permission) _ _ _ _ _ _ _ _ Hscan t Ht).
  - vm_compute in Hscan. discriminate.
Defined.

(** ** The summary counts what the manifest holds *)

Lemma total_insert_fresh (counts : gmap string nat) (key : string) (n : nat) :
  counts !! key = None ->
  Manifest.total (<[key := n]> counts) = n + Manifest.total counts.
Proof.
  intros Hnone. unfold Manifest.total.
  rewrite map_fold_insert_L; [reflexivity | intros; lia | assumption].
Qed.

Lemma total_delete (counts : gmap string nat) (key : string) (n : nat) :
  counts !! key = Some n ->
  Manifest.total counts = n + Manifest.total (delete key counts).
Proof.
  intros Hsome. unfold Manifest.total.
  rewrite (map_fold_delete_L _ _ key n counts); [reflexivity | intros; lia | assumption].
Qed.

(** One more entity counted is one more in the sum of the buckets. *)
Lemma total_bump (counts : gmap string nat) (key : string) :
  Manifest.total (Manifest.bump counts key) = S (Manifest.total counts).
Proof.
  unfold Manifest.bump. destruct (counts !! key) as [n|] eqn:Hk; simpl.
  - rewrite <- insert_delete_eq.
    rewrite total_insert_fresh by apply lookup_delete_eq.
    rewrite (total_delete counts key n Hk). lia.
  - rewrite total_insert_fresh by assumption. lia.
Qed.

Lemma total_count {A} (key : A -> string) (l : list A) :
  forall counts : gmap string nat,
    Manifest.total (fold_left (fun counts x => Manifest.bump counts (key x)) l counts)
    = Manifest.total counts + length l.
Proof.
  induction l as [|x l IH]; intros counts; simpl; [lia|].
  rewrite IH, total_bump. lia.
Qed.

Lemma createSummary_consistent (result : DetectorResult) (filesScanned : nat) :
  let s := Manifest.createSummary result filesScanned in
  total_tools s = length (tools result)
  /\ total_agents s = length (agents result)
  /\ total_mcp_servers s = length (mcpServers result)
  /\ Manifest.total (by_framework s) = length (tools result)
  /\ Manifest.total (by_permission s) = length (tools result)
  /\ Manifest.total (by_risk s) = length (tools result).
Proof.
  cbv zeta. unfold Manifest.createSummary. cbn [total_tools total_agents
    total_mcp_servers by_framework by_permission by_risk].
  repeat split; rewrite total_count; reflexivity.
Qed.

(** C4. In every manifest the counts of the summary are the sizes of
    the final collections: total_tools is the length of the tools list,
    total_agents that of the agents, total_mcp_servers that of the
    servers, and the buckets of by_framework, of by_permission and of
    by_risk each sum to total_tools. This holds of createManifest on any
    result, hence of the manifest the scan assembles after the
    deduplication and the filters. *)
Theorem summary_counts_final_collections :
  forall (localeCompare : string -> string -> Z) (now : string)
    (result : DetectorResult) (absolutePath : string) (filesScanned : nat)
    (duration : Z) (options : Scan.ScanOptions),
    let consistent (m : Manifest) :=
      total_tools (summary m) = length (manifest_tools m)
      /\ total_agents (summary m) = length (manifest_agents m)
      /\ total_mcp_servers (summary m) = length (mcp_servers m)
      /\ Manifest.total (by_framework (summary m)) = total_tools (summary m)
      /\ Manifest.total (by_permission (summary m)) = total_tools (summary m)
      /\ Manifest.total (by_risk (summary m)) = total_tools (summary m) in
    consistent (Manifest.createManifest localeCompare now result absolutePath
                  filesScanned duration)
    /\ consistent (Scan.assemble localeCompare now result absolutePath
                     filesScanned duration options).
Proof.
  intros localeCompare now result absolutePath filesScanned duration options.
  assert (H : forall r,
    let m := Manifest.createManifest localeCompare now r absolutePath
               filesScanned duration in
    total_tools (summary m) = length (manifest_tools m)
    /\ total_agents (summary m) = length (manifest_agents m)
    /\ total_mcp_servers (summary m) = length (mcp_servers m)
    /\ Manifest.total (by_framework (summary m)) = total_tools (summary m)
    /\ Manifest.total (by_permission (summary m)) = total_tools (summary m)
    /\ Manifest.total (by_risk (summary m)) = total_tools (summary m)).
  { intros r. cbv zeta. unfold Manifest.createManifest.
    cbn [summary manifest_tools manifest_agents mcp_servers].
    rewrite !sort_length.
    destruct (createSummary_consistent r filesScanned)
      as (-> & -> & -> & -> & -> & ->).
    repeat split. }
  cbv zeta. split; [apply H|]. unfold Scan.assemble. apply H.
Qed.

(** ** Deduplication *)

Lemma first_occurrences_idempotent {A} (key : A -> string) (l : list A) :
  forall seen : gset string,
    Manifest.first_occurrences key seen (Manifest.first_occurrences key seen l)
    = Manifest.first_occurrences key seen l.
Proof.
  induction l as [|x l IH]; intros seen; simpl; [reflexivity|].
  case_bool_decide as Hx.
  - apply IH.
  - simpl. rewrite bool_decide_eq_false_2 by assumption.
    now rewrite IH.
Qed.

Lemma deduplicate_idempotent {A} (key : A -> string) (l : list A) :
  Manifest.deduplicate key (Manifest.deduplicate key l)
  = Manifest.deduplicate key l.
Proof.
  rewrite !deduplicate_first_occurrences. apply first_occurrences_idempotent.
Qed.

(** The list that deduplication keeps: the first entity of every key,
    in the order of the input. *)
Lemma first_occurrences_keeps {A} (key : A -> string) (l : list A) :
  forall (seen : gset string) (x : A),
    x ∈ Manifest.first_occurrences key seen l -> x ∈ l /\ key x ∉ seen.
Proof.
  induction l as [|y l IH]; intros seen x; simpl.
  - intros H. now apply not_elem_of_nil in H.
  - case_bool_decide as Hy.
    + intros H. pose proof (IH _ _ H) as [Hin Hk]. split; [now right | assumption].
    + intros H. apply elem_of_cons in H as [->|H].
      * split; [now left | assumption].
      * pose proof (IH _ _ H) as [Hin Hk]. split; [now right|].
        intros Hc. apply Hk, elem_of_union. now right.
Qed.

Lemma first_occurrences_NoDup {A} (key : A -> string) (l : list A) :
  forall seen : gset string,
    NoDup (key <$> Manifest.first_occurrences key seen l).
Proof.
  induction l as [|y l IH]; intros seen; simpl; [constructor|].
  case_bool_decide as Hy; [apply IH|].
  rewrite fmap_cons. constructor; [|apply IH].
  intros Hin. apply list_elem_of_fmap in Hin as (z & Hz & Hin).
  apply first_occurrences_keeps in Hin as [_ Hk]. set_solver.
Qed.

(** C5. Deduplication is idempotent: applied twice, each of the three
    deduplications (tools by name and source, agents by name and source,
    servers by name) gives the list it gives when applied once. What it
    gives holds one entity per key. *)
Theorem deduplication_is_idempotent :
  (forall tools : list Tool.t,
      Manifest.deduplicateTools (Manifest.deduplicateTools tools)
      = Manifest.deduplicateTools tools
      /\ NoDup (Manifest.tool_key <$> Manifest.deduplicateTools tools))
  /\ (forall agents : list Agent.t,
         Manifest.deduplicateAgents (Manifest.deduplicateAgents agents)
         = Manifest.deduplicateAgents agents
         /\ NoDup (Manifest.agent_key <$> Manifest.deduplicateAgents agents))
  /\ (forall servers : list McpServer.t,
         Manifest.deduplicateMcpServers (Manifest.deduplicateMcpServers servers)
         = Manifest.deduplicateMcpServers servers
         /\ NoDup (McpServer.name <$> Manifest.deduplicateMcpServers servers)).
Proof.
  unfold Manifest.deduplicateTools, Manifest.deduplicateAgents,
    Manifest.deduplicateMcpServers.
  repeat split; intros;
    try apply deduplicate_idempotent;
    rewrite deduplicate_first_occurrences; apply first_occurrences_NoDup.
Qed.

(** ** The order of the manifest *)

Section SortFacts.

Context {A : Type} (compare : A -> A -> Z).

Let le (a b : A) : Prop := (compare a b <= 0)%Z.

Hypothesis compare_total : forall a b, (0 < compare a b)%Z -> le b a.
Hypothesis compare_trans : forall a b c, le a b -> le b c -> le a c.

Lemma insert_sorted_Forall (P : A -> Prop) (x : A) (l : list A) :
  P x -> Forall P l -> Forall P (Manifest.insert_sorted compare x l).
Proof.
  intros Hx Hl. rewrite Forall_forall in *. intros y Hy.
  rewrite (insert_sorted_perm compare x l) in Hy.
  apply elem_of_cons in Hy as [->|Hy]; auto.
Qed.

Lemma insert_sorted_sorted (x : A) (l : list A) :
  StronglySorted le l -> StronglySorted le (Manifest.insert_sorted compare x l).
Proof.
  induction 1 as [|y l Hl IH Hy]; simpl.
  - repeat constructor.
  - destruct (Z.leb_spec (compare x y) 0) as [Hle|Hgt].
    + constructor; [now constructor|].
      constructor; [exact Hle|].
      eapply Forall_impl; [exact Hy|]. intros z Hz. now apply (compare_trans x y z).
    + constructor; [exact IH|].
      apply insert_sorted_Forall; [now apply compare_total | exact Hy].
Qed.

Lemma sort_sorted (l : list A) : StronglySorted le (Manifest.sort compare l).
Proof.
  induction l as [|x l IH]; [constructor|].
  change (Manifest.sort compare (x :: l))
    with (Manifest.insert_sorted compare x (Manifest.sort compare l)).
  now apply insert_sorted_sorted.
Qed.

(** In a sorted list, what comes later does not come before. *)
Lemma sorted_lookup (l : list A) (i j : nat) (a b : A) :
  StronglySorted le l -> l !! i = Some a -> l !! j = Some b -> i < j -> le a b.
Proof.
  intros Hs. revert i j. induction Hs as [|x l Hl IH Hx]; intros i j Hi Hj Hlt.
  - now rewrite lookup_nil in Hi.
  - destruct j as [|j]; [lia|]. destruct i as [|i]; simpl in *.
    + injection Hi as <-. rewrite Forall_forall in Hx. apply Hx.
      eapply list_elem_of_lookup_2; eassumption.
    + apply (IH i j); [assumption | assumption | lia].
Qed.

(** Two sorted arrangements of the same entities are the same list,
    when entities that compare equal are equal. *)
Lemma sorted_unique (l1 l2 : list A) :
  (forall a b, a ∈ l1 -> b ∈ l1 -> le a b -> le b a -> a = b) ->
  StronglySorted le l1 -> StronglySorted le l2 -> Permutation l1 l2 -> l1 = l2.
Proof.
  intros Heq Hs1. revert l2 Heq.
  induction Hs1 as [|x l1 Hl1 IH Hx]; intros l2 Heq Hs2 Hp.
  - now apply Permutation_nil in Hp.
  - destruct Hs2 as [|y l2 Hl2 Hy].
    + symmetry in Hp. now apply Permutation_nil in Hp.
    + assert (Hxy : x = y).
      { assert (Hin_y : y ∈ x :: l1) by (rewrite Hp; now left).
        assert (Hin_x : x ∈ y :: l2) by (rewrite <- Hp; now left).
        apply elem_of_cons in Hin_y as [->|Hyl1]; [reflexivity|].
        apply elem_of_cons in Hin_x as [->|Hxl2]; [reflexivity|].
        rewrite Forall_forall in Hx, Hy.
        apply Heq; [now left | now right | now apply Hx | now apply Hy]. }
      subst y. f_equal. apply IH; [|assumption|].
      * intros a b Ha Hb. apply Heq; now right.
      * now apply Permutation_cons_inv in Hp.
Qed.

End SortFacts.

Section ToolOrder.

Variable localeCompare : string -> string -> Z.
Hypothesis collation : Spec.consistent localeCompare.

Lemma localeCompare_total (a b : string) :
  (0 < localeCompare a b)%Z -> (localeCompare b a <= 0)%Z.
Proof. destruct collation as [Hflip _]. specialize (Hflip a b). lia. Qed.

Lemma compare_tools_total (a b : Tool.t) :
  (0 < Manifest.compare_tools localeCompare a b)%Z ->
  (Manifest.compare_tools localeCompare b a <= 0)%Z.
Proof.
  unfold Manifest.compare_tools. cbv zeta.
  destruct (Tool.risk a), (Tool.risk b); simpl; try lia;
    apply localeCompare_total.
Qed.

Lemma compare_tools_trans (a b c : Tool.t) :
  (Manifest.compare_tools localeCompare a b <= 0)%Z ->
  (Manifest.compare_tools localeCompare b c <= 0)%Z ->
  (Manifest.compare_tools localeCompare a c <= 0)%Z.
Proof.
  destruct collation as [_ Htrans]. unfold Manifest.compare_tools. cbv zeta.
  destruct (Tool.risk a), (Tool.risk b), (Tool.risk c); simpl; try lia;
    apply Htrans.
Qed.

(** The comparator of the code orders as the specification says. *)
Lemma compare_tools_order (a b : Tool.t) :
  (Manifest.compare_tools localeCompare a b <= 0)%Z
  <-> Spec.tool_order localeCompare a b.
Proof.
  unfold Manifest.compare_tools, Spec.tool_order, Spec.name_order. cbv zeta.
  destruct (Tool.risk a), (Tool.risk b); simpl; split;
    try lia; try (intros _; left; constructor);
    try (intros H; right; split; [reflexivity | exact H]);
    try (intros [H|[H1 H2]]; [inversion H | first [discriminate | exact H2]]).
Qed.

Lemma compare_tools_zero (a b : Tool.t) :
  (Manifest.compare_tools localeCompare a b <= 0)%Z ->
  (Manifest.compare_tools localeCompare b a <= 0)%Z ->
  Manifest.compare_tools localeCompare a b = 0%Z.
Proof.
  destruct collation as [Hflip _]. unfold Manifest.compare_tools. cbv zeta.
  specialize (Hflip (Tool.name a) (Tool.name b)).
  destruct (Tool.risk a), (Tool.risk b); simpl; lia.
Qed.

Lemma sorted_tools (l : list Tool.t) :
  StronglySorted (Spec.tool_order localeCompare)
    (Manifest.sort (Manifest.compare_tools localeCompare) l).
Proof.
  pose proof (sort_sorted (Manifest.compare_tools localeCompare)
                compare_tools_total compare_tools_trans l) as H.
  induction H as [|x l' Hl IH Hx]; constructor; [assumption|].
  eapply Forall_impl; [exact Hx|]. intros y Hy. now apply compare_tools_order.
Qed.

Lemma sorted_by_name {A} (name : A -> string) (l : list A) :
  StronglySorted (fun a b => Spec.name_order localeCompare (name a) (name b))
    (Manifest.sort (fun a b => localeCompare (name a) (name b)) l).
Proof.
  destruct collation as [_ Htrans].
  apply (sort_sorted (fun a b => localeCompare (name a) (name b))).
  - intros a b. apply localeCompare_total.
  - intros a b c. apply Htrans.
Qed.

(** Of two tools of one risk, the one whose name comes first stands
    first, wherever the two stood in the input. *)
Lemma tie_broken_by_name (l : list Tool.t) (a b : Tool.t) (i j : nat) :
  let sorted := Manifest.sort (Manifest.compare_tools localeCompare) l in
  sorted !! i = Some a -> sorted !! j = Some b ->
  Tool.risk a = Tool.risk b ->
  (localeCompare (Tool.name a) (Tool.name b) < 0)%Z ->
  i < j.
Proof.
  cbv zeta. intros Hi Hj Hrisk Hname.
  destruct (Nat.lt_trichotomy i j) as [Hlt|[->|Hgt]]; [assumption| |].
  - rewrite Hi in Hj. injection Hj as ->.
    destruct collation as [Hflip _]. specialize (Hflip (Tool.name b) (Tool.name b)). lia.
  - pose proof (sort_sorted (Manifest.compare_tools localeCompare)
                  compare_tools_total compare_tools_trans l) as Hs.
    pose proof (sorted_lookup _ _ _ _ _ _ Hs Hj Hi Hgt) as Hle. simpl in Hle.
    unfold Manifest.compare_tools in Hle. cbv zeta in Hle.
    rewrite Hrisk, Z.sub_diag in Hle. simpl in Hle.
    destruct collation as [Hflip _]. specialize (Hflip (Tool.name a) (Tool.name b)). lia.
Qed.

(** The sorted list does not depend on the order of the input, when
    no two different tools agree in risk and name. *)
Lemma sort_tools_order_independent (l1 l2 : list Tool.t) :
  Permutation l1 l2 ->
  (forall a b, a ∈ l1 -> b ∈ l1 ->
               Manifest.compare_tools localeCompare a b = 0%Z -> a = b) ->
  Manifest.sort (Manifest.compare_tools localeCompare) l1
  = Manifest.sort (Manifest.compare_tools localeCompare) l2.
Proof.
  intros Hp Hdistinct.
  apply (sorted_unique (Manifest.compare_tools localeCompare)).
  - intros a b Ha Hb Hab Hba.
    rewrite (sort_perm _ l1) in Ha, Hb.
    apply Hdistinct; [assumption | assumption |].
    now apply compare_tools_zero.
  - apply sort_sorted; [apply compare_tools_total | apply compare_tools_trans].
  - apply sort_sorted; [apply compare_tools_total | apply compare_tools_trans].
  - rewrite !sort_perm. exact Hp.
Qed.

End ToolOrder.

Lemma ordinal_compare_consistent : Spec.consistent Spec.ordinal_compare.
Proof.
  split.
  - intros a b. unfold Spec.ordinal_compare.
    rewrite (String.compare_antisym a b).
    now destruct (String.compare b a).
  - intros a b c. unfold Spec.name_order, Spec.ordinal_compare.
    intros Hab Hbc.
    assert (H1 : String.le a b).
    { unfold String.le, String.leb.
      destruct (String.compare a b); simpl; first [exact I | lia]. }
    assert (H2 : String.le b c).
    { unfold String.le, String.leb.
      destruct (String.compare b c); simpl; first [exact I | lia]. }
    assert (H3 : String.le a c) by (etransitivity; eassumption).
    unfold String.le, String.leb in H3.
    destruct (String.compare a c); simpl in *; first [lia | contradiction].
Qed.

(** C6. In every manifest the tools stand sorted by risk, HIGH before
    MEDIUM before LOW, and by name among tools of one risk: the list is
    a rearrangement of the input in which every tool is followed only by
    tools of a later risk or of the same risk and a name that does not
    come before its own; of two tools of one risk the one whose name
    comes first always stands first, wherever they stood in the input,
    and the whole list is the same for every order of the input in which
    no two different tools agree in risk and name. The agents and the
    servers stand sorted by name alone, by the same comparison. The
    comparison of names is the platform's, taken to be consistent. *)
Theorem manifest_sorted_by_risk_then_name :
  forall localeCompare : string -> string -> Z,
    Spec.consistent localeCompare ->
    forall (now : string) (result : DetectorResult) (scannedPath : string)
      (filesScanned : nat) (durationMs : Z),
      let m := Manifest.createManifest localeCompare now result scannedPath
                 filesScanned durationMs in
      (Permutation (manifest_tools m) (tools result)
       /\ StronglySorted (Spec.tool_order localeCompare) (manifest_tools m))
      /\ (forall (a b : Tool.t) (i j : nat),
             manifest_tools m !! i = Some a ->
             manifest_tools m !! j = Some b ->
             Tool.risk a = Tool.risk b ->
             (localeCompare (Tool.name a) (Tool.name b) < 0)%Z ->
             i < j)
      /\ (forall result' : DetectorResult,
             Permutation (tools result') (tools result) ->
             (forall a b, a ∈ tools result -> b ∈ tools result ->
                          Tool.risk a = Tool.risk b ->
                          localeCompare (Tool.name a) (Tool.name b) = 0%Z ->
                          a = b) ->
             manifest_tools
               (Manifest.createManifest localeCompare now result' scannedPath
                  filesScanned durationMs)
             = manifest_tools m)
      /\ (Permutation (manifest_agents m) (agents result)
          /\ StronglySorted
               (fun a b => Spec.name_order localeCompare (Agent.name a) (Agent.name b))
               (manifest_agents m))
      /\ (Permutation (mcp_servers m) (mcpServers result)
          /\ StronglySorted
               (fun a b => Spec.name_order localeCompare
                             (McpServer.name a) (McpServer.name b))
               (mcp_servers m)).
Proof.
  intros localeCompare Hc now result scannedPath filesScanned durationMs.
  cbv zeta. unfold Manifest.createManifest.
  cbn [manifest_tools manifest_agents mcp_servers].
  split; [split; [apply sort_perm | now apply sorted_tools]|].
  split; [intros a b i j; now apply tie_broken_by_name|].
  split.
  - intros result' Hp Hdistinct. symmetry.
    apply sort_tools_order_independent; [assumption | now symmetry |].
    intros a b Ha Hb Hzero. apply Hdistinct; try assumption.
    + unfold Manifest.compare_tools in Hzero. cbv zeta in Hzero.
      destruct (Tool.risk a), (Tool.risk b); simpl in Hzero;
        first [reflexivity | lia].
    + unfold Manifest.compare_tools in Hzero. cbv zeta in Hzero.
      destruct (Tool.risk a), (Tool.risk b); simpl in Hzero;
        first [exact Hzero | lia].
  - split; (split; [apply sort_perm|]).
    + apply (sorted_by_name localeCompare Hc Agent.name).
    + apply (sorted_by_name localeCompare Hc McpServer.name).
Qed.

(** C6, at an instance: the order of the character codes is a
    consistent comparison, and four tools given in another order come
    out sorted. *)
Lemma manifest_sorted_example :
  let m := Manifest.createManifest Spec.ordinal_compare "2026-01-01T00:00:00.000Z"
             Examples.some_tools "/repo" 1 0 in
  Permutation (manifest_tools m) (tools Examples.some_tools)
  /\ StronglySorted (Spec.tool_order Spec.ordinal_compare) (manifest_tools m).
Proof.
  exact (proj1 (manifest_sorted_by_risk_then_name Spec.ordinal_compare
                  ordinal_compare_consistent "2026-01-01T00:00:00.000Z"
                  Examples.some_tools "/repo" 1 0%Z)).
Defined.

(** ** The configuration detector *)

(** C7. A configuration file named mcp.json whose content is the text
    of scenario B yields exactly one server, named fs, with the command
    npx, and no tool and no agent. *)
Theorem mcp_json_yields_one_server (file : FileInfo) :
  McpConfig.last_segment EmptyString (relativePath file) = "mcp.json" ->
  content file = Examples.scenario_B ->
  McpConfig.detect file
  = Some {| tools := []; agents := [];
            mcpServers :=
              [ {| McpServer.name := "fs";
                   McpServer.command := Json.JString "npx";
                   McpServer.args := Some (Json.JArray [Json.JString "x"]);
                   McpServer.env := None;
                   McpServer.source := relativePath file |} ] |}.
Proof.
  intros Hname Hcontent. unfold McpConfig.detect, McpConfig.isMcpConfigFile.
  rewrite Hname. cbn [existsb]. 
  replace (existsb (String.eqb "mcp.json") McpConfig.MCP_CONFIG_FILES)
    with true by reflexivity.
  cbn [negb]. unfold McpConfig.try_block. rewrite Hcontent.
  replace (Json.JSON_parse Examples.scenario_B)
    with (Json.Value
            (Json.JObject
               [("mcpServers",
                 Json.JObject
                   [("fs", Json.JObject
                             [("command", Json.JString "npx");
                              ("args", Json.JArray [Json.JString "x"])])])]))
    by (vm_compute; reflexivity).
  reflexivity.
Qed.

Lemma mcp_json_example :
  mcpServers <$> McpConfig.detect (Examples.file "mcp.json" ".json" Examples.scenario_B)
  = Some [ {| McpServer.name := "fs";
              McpServer.command := Json.JString "npx";
              McpServer.args := Some (Json.JArray [Json.JString "x"]);
              McpServer.env := None;
              McpServer.source := "mcp.json" |} ].
Proof.
  rewrite (mcp_json_yields_one_server
             (Examples.file "mcp.json" ".json" Examples.scenario_B)
             eq_refl eq_refl).
  reflexivity.
Defined.

Lemma visit_entries_result file (entries : list (string * Json.json)) :
  forall result : DetectorResult,
    fold_left (McpConfig.visit_entry file) entries result
    = {| tools := tools result; agents := agents result;
         mcpServers := mcpServers result
                       ++ omap (McpConfig.server_of_entry file) entries |}.
Proof.
  induction entries as [|[name config] entries IH]; intros result; simpl.
  - rewrite app_nil_r. now destruct result.
  - rewrite IH. unfold McpConfig.visit_entry, McpConfig.server_of_entry. simpl.
    destruct (_ || _); [reflexivity|].
    destruct (McpConfig.parseServerConfig name config file); simpl;
      [now rewrite <- app_assoc | reflexivity].
Qed.

(** The enumeration of the own properties rearranges them. *)
Lemma insert_by_index_perm (x : N * (string * Json.json)) l :
  Permutation (McpConfig.insert_by_index x l) (x :: l).
Proof.
  induction l as [|y l IH]; simpl; [reflexivity|].
  destruct (_ <? _)%N; [reflexivity|].
  etransitivity; [apply perm_skip, IH | apply perm_swap].
Qed.

Lemma sorted_by_index_perm (l : list (N * (string * Json.json))) :
  Permutation (foldr McpConfig.insert_by_index [] l) l.
Proof.
  induction l as [|x l IH]; simpl; [reflexivity|].
  etransitivity; [apply insert_by_index_perm | apply perm_skip, IH].
Qed.

Lemma own_properties_elem (fields : list (string * Json.json)) kv :
  kv ∈ McpConfig.own_properties fields <-> kv ∈ fields.
Proof.
  unfold McpConfig.own_properties. rewrite elem_of_app.
  rewrite sorted_by_index_perm, list_elem_of_fmap.
  rewrite (list_elem_of_In (List.filter _ _)), filter_In, <- list_elem_of_In.
  split.
  - intros [((n & kv') & -> & H) | [H _]]; [|exact H].
    apply list_elem_of_omap in H as (kv'' & Hin & H).
    destruct (McpConfig.array_index (fst kv'')); simpl in H; [|discriminate].
    injection H as _ <-. exact Hin.
  - intros Hin. destruct (McpConfig.array_index (fst kv)) as [n|] eqn:Hn.
    + left. exists (n, kv). split; [reflexivity|].
      apply list_elem_of_omap. exists kv. split; [exact Hin|].
      now rewrite Hn.
    + right. split; [exact Hin|].
      apply negb_true_iff, bool_decide_eq_false. now intros [? [=]].
Qed.

(** An entry adds a server exactly when its value stands for one. *)
Lemma server_of_entry_None file (entry : string * Json.json) :
  McpConfig.server_of_entry file entry = None
  <-> Spec.is_server_entry (snd entry) = false.
Proof.
  destruct entry as [name config]. unfold McpConfig.server_of_entry.
  cbn [fst snd].
  destruct config as [|b|n|s|items|fields].
  1-5: cbn.
  - split; reflexivity.
  - destruct b; split; reflexivity.
  - destruct (negb _); split; reflexivity.
  - destruct (Js.nonempty s); split; reflexivity.
  - split; reflexivity.
  - cbn [Json.truthy Json.is_object_type negb orb Spec.is_server_entry].
    unfold McpConfig.parseServerConfig.
    destruct (Json.truthy (Json.get (Json.JObject fields) "command"));
      cbn [orb]; [split; intros [=]|].
    destruct (Json.truthy (Json.get (Json.JObject fields) "url"));
      split; first [reflexivity | intros [=]].
Qed.

Lemma omap_nil_iff {A B} (f : A -> option B) (l : list A) :
  omap f l = [] <-> forall x, x ∈ l -> f x = None.
Proof.
  induction l as [|x l IH]; simpl.
  - split; [intros _ y Hy; now apply not_elem_of_nil in Hy | reflexivity].
  - destruct (f x) eqn:Hx.
    + split; [discriminate|]. intros H.
      specialize (H x (list_elem_of_here _ _)). congruence.
    + rewrite IH. split.
      * intros H y Hy. apply elem_of_cons in Hy as [-> | Hy]; auto.
      * intros H y Hy. apply H. now apply list_elem_of_further.
Qed.

(** The entries of a server map add no server exactly when none of its
    values stands for one. *)
Lemma no_server_iff file (servers : Json.json) :
  omap (McpConfig.server_of_entry file) (McpConfig.Object_entries servers) = []
  <-> forallb (fun entry => negb (Spec.is_server_entry entry))
        (Spec.values_of servers) = true.
Proof.
  rewrite omap_nil_iff, forallb_forall.
  setoid_rewrite server_of_entry_None.
  setoid_rewrite negb_true_iff. setoid_rewrite <- list_elem_of_In.
  destruct servers as [|b|n|s|items|fields]; cbn [McpConfig.Object_entries
    Spec.values_of];
    try (split; intros _ x Hx; now apply not_elem_of_nil in Hx).
  - split; [intros _ x Hx; now apply not_elem_of_nil in Hx|].
    intros _ [k v] Hx. cbn [snd].
    assert (H : forall i, (k, v) ∈ McpConfig.chars_from i s ->
                          Spec.is_server_entry v = false).
    { clear Hx. induction s as [|c s IH]; intros i Hx; simpl in Hx.
      - now apply not_elem_of_nil in Hx.
      - apply elem_of_cons in Hx as [[= _ ->] | Hx]; [reflexivity|].
        now apply (IH (S i)). }
    now apply (H 0).
  - split.
    + intros H x Hx. apply list_elem_of_lookup in Hx as [i Hi].
      apply (H (Js.of_nat i, x)).
      now apply (elem_of_lookup_imap_2 (fun i x => (Js.of_nat i, x))).
    + intros H [k v] Hx.
      apply elem_of_lookup_imap_1 in Hx as (i & y & [= _ ->] & Hy).
      cbn [snd]. apply H. now apply list_elem_of_lookup_2 in Hy.
  - split.
    + intros H x Hx. apply list_elem_of_fmap in Hx as ([k v] & -> & Hx).
      apply (H (k, v)). now apply (proj2 (own_properties_elem fields (k, v))).
    + intros H [k v] Hx.
      apply (proj1 (own_properties_elem fields (k, v))) in Hx. cbn [snd].
      apply H. apply list_elem_of_fmap. exists (k, v).
      split; [reflexivity | exact Hx].
Qed.

(** What the detector makes of a recognized file whose content parses
    to a value. *)
Lemma detect_value file (v : Json.json) :
  McpConfig.isMcpConfigFile file = true ->
  Json.JSON_parse (content file) = Json.Value v ->
  McpConfig.detect file
  = Some {| tools := []; agents := [];
            mcpServers :=
              omap (McpConfig.server_of_entry file)
                (McpConfig.Object_entries (McpConfig.server_map v)) |}.
Proof.
  intros Hfile Hparse. unfold McpConfig.detect, McpConfig.try_block.
  rewrite Hfile, Hparse. cbn [negb].
  destruct v; try (now rewrite visit_entries_result); reflexivity.
Qed.

(** C8, as the code has it. For every file whose content is not valid
    JSON, or is JSON none of whose server entries stands for a server
    (no value of the map under mcpServers, else under servers, is an
    object with a truthy command or url), the configuration detector
    throws nothing and returns the empty batch: so it is with null, with
    JSON that is no object, with a server map that is missing, falsy,
    empty or a scalar, and with entries that are null, scalars, arrays
    or objects without a command and a url. For a recognized file these
    are the only contents that give the empty batch. *)
Theorem unusable_config_gives_empty_batch (file : FileInfo) :
  (Spec.unusable (content file) ->
   McpConfig.detect file = Some Base.emptyResult)
  /\ (McpConfig.isMcpConfigFile file = true ->
      McpConfig.detect file = Some Base.emptyResult ->
      Spec.unusable (content file)).
Proof.
  split.
  - intros H.
    destruct (McpConfig.isMcpConfigFile file) eqn:Hfile.
    2:{ unfold McpConfig.detect. now rewrite Hfile. }
    destruct H as [H | (v & H & Hv)].
    + unfold McpConfig.detect, McpConfig.try_block. now rewrite Hfile, H.
    + rewrite (detect_value file v Hfile H).
      apply (no_server_iff file) in Hv. now rewrite Hv.
  - intros Hfile Hdetect.
    destruct (Json.JSON_parse (content file)) as [v| |] eqn:Hparse.
    + right. exists v. split; [exact Hparse|].
      rewrite (detect_value file v Hfile Hparse) in Hdetect.
      apply (no_server_iff file). now injection Hdetect.
    + left. exact Hparse.
    + unfold McpConfig.detect, McpConfig.try_block in Hdetect.
      rewrite Hfile, Hparse in Hdetect. discriminate.
Qed.

(** C8, at three instances: a text that is not JSON, a server map that
    is an empty array, and a server map none of whose entries stands
    for a server. *)
Lemma broken_config_example :
  (McpConfig.isMcpConfigFile Examples.broken_config = true
   /\ McpConfig.detect Examples.broken_config = Some Base.emptyResult)
  /\ (McpConfig.isMcpConfigFile Examples.empty_array_config = true
      /\ McpConfig.detect Examples.empty_array_config = Some Base.emptyResult)
  /\ (McpConfig.isMcpConfigFile Examples.guarded_config = true
      /\ McpConfig.detect Examples.guarded_config = Some Base.emptyResult).
Proof.
  split; [|split]; (split; [reflexivity|]).
  - apply (proj1 (unusable_config_gives_empty_batch Examples.broken_config)).
    left. vm_compute. reflexivity.
  - apply (proj1 (unusable_config_gives_empty_batch Examples.empty_array_config)).
    right. eexists. split; [vm_compute; reflexivity | reflexivity].
  - apply (proj1 (unusable_config_gives_empty_batch Examples.guarded_config)).
    right. eexists. split; [vm_compute; reflexivity | reflexivity].
Defined.

(** C8, as stated, fails: a configuration whose server map is an array
    is not of the declared shape, and the detector returns a server for
    it, named by its index. *)
Lemma array_config_yields_a_server :
  extension Examples.array_config = ".json"
  /\ Spec.malformed (content Examples.array_config)
  /\ McpConfig.detect Examples.array_config
     = Some {| tools := []; agents := [];
               mcpServers :=
                 [ {| McpServer.name := "0";
                      McpServer.command := Json.JString "npx";
                      McpServer.args := None;
                      McpServer.env := None;
                      McpServer.source := "mcp.json" |} ] |}
  /\ McpConfig.detect Examples.array_config <> Some Base.emptyResult.
Proof.
  split; [reflexivity|]. split.
  - right. eexists. split; [vm_compute; reflexivity | reflexivity].
  - split; [vm_compute; reflexivity | vm_compute; discriminate].
Qed.

Lemma visit_entries_servers file (entries : list (string * Json.json)) :
  forall result : DetectorResult,
    mcpServers (fold_left (McpConfig.visit_entry file) entries result)
    = mcpServers result ++ omap (McpConfig.server_of_entry file) entries.
Proof.
  induction entries as [|[name config] entries IH]; intros result; simpl.
  - now rewrite app_nil_r.
  - rewrite IH. unfold McpConfig.visit_entry, McpConfig.server_of_entry. simpl.
    destruct (_ || _); [reflexivity|].
    destruct (McpConfig.parseServerConfig name config file); simpl;
      [now rewrite <- app_assoc | reflexivity].
Qed.

Lemma parseServerConfig_command name config file (s : McpServer.t) :
  McpConfig.parseServerConfig name config file = Some s ->
  Json.truthy (Some (McpServer.command s)) = true
  /\ McpServer.name s = name
  /\ McpServer.source s = relativePath file
  /\ (Json.get config "command" = Some (McpServer.command s)
      \/ (Json.truthy (Json.get config "command") = false
          /\ Json.get config "url" = Some (McpServer.command s)
          /\ McpServer.args s = None /\ McpServer.env s = None)).
Proof.
  unfold McpConfig.parseServerConfig.
  destruct (Json.truthy (Json.get config "command")) eqn:Hc.
  - intros [= <-]. simpl.
    destruct (Json.get config "command") as [c|]; [|discriminate].
    simpl. auto.
  - destruct (Json.truthy (Json.get config "url")) eqn:Hu; [|discriminate].
    intros [= <-]. simpl.
    destruct (Json.get config "url") as [u|]; [|discriminate].
    simpl. split; [assumption|]. split; [reflexivity|]. split; [reflexivity|].
    right. auto.
Qed.

Lemma detect_servers file (r : DetectorResult) (s : McpServer.t) :
  McpConfig.detect file = Some r -> s ∈ mcpServers r ->
  exists name config, McpConfig.parseServerConfig name config file = Some s.
Proof.
  unfold McpConfig.detect.
  destruct (McpConfig.isMcpConfigFile file); simpl.
  2:{ intros [= <-] Hs. now apply not_elem_of_nil in Hs. }
  unfold McpConfig.try_block.
  destruct (Json.JSON_parse (content file)) as [v| |]; [| |discriminate].
  2:{ intros [= <-] Hs. now apply not_elem_of_nil in Hs. }
  assert (Hgen : forall entries,
             s ∈ mcpServers (fold_left (McpConfig.visit_entry file) entries
                               Base.emptyResult) ->
             exists name config,
               McpConfig.parseServerConfig name config file = Some s).
  { intros entries. rewrite visit_entries_servers. simpl.
    intros Hs. apply list_elem_of_omap in Hs as ([name config] & _ & Hs).
    unfold McpConfig.server_of_entry in Hs. simpl in Hs.
    destruct (_ || _); [discriminate|]. now exists name, config. }
  destruct v; intros [= <-] Hs; try (now apply not_elem_of_nil in Hs);
    now apply (Hgen _ Hs).
Qed.

(** C10. A server entry that gives neither a command nor a url is left
    out: parseServerConfig returns nothing for it. An entry without a
    usable command and with a url becomes a server whose command is the
    url, without args and env. The servers of a recognized file are
    those that parseServerConfig makes of the entries of its server
    map, in their order, the entries that are no objects being passed
    over. Every server of every batch that the detector returns has a
    truthy command: it is not the empty string. *)
Theorem emitted_servers_have_a_command :
  (forall (name : string) (config : Json.json) (file : FileInfo),
      Json.get config "command" = None -> Json.get config "url" = None ->
      McpConfig.parseServerConfig name config file = None)
  /\ (forall (name : string) (config url : Json.json) (file : FileInfo),
         Json.truthy (Json.get config "command") = false ->
         Json.get config "url" = Some url ->
         Json.truthy (Some url) = true ->
         McpConfig.parseServerConfig name config file
         = Some {| McpServer.name := name;
                   McpServer.command := url;
                   McpServer.args := None;
                   McpServer.env := None;
                   McpServer.source := relativePath file |})
  /\ (forall (file : FileInfo) (config : Json.json),
         McpConfig.isMcpConfigFile file = true ->
         Json.JSON_parse (content file) = Json.Value config ->
         config <> Json.JNull ->
         McpConfig.detect file
         = Some {| tools := []; agents := [];
                   mcpServers :=
                     omap (McpConfig.server_of_entry file)
                       (McpConfig.Object_entries (McpConfig.server_map config)) |})
  /\ (forall (file : FileInfo) (r : DetectorResult) (s : McpServer.t),
         McpConfig.detect file = Some r ->
         s ∈ mcpServers r ->
         (exists name config,
             McpConfig.parseServerConfig name config file = Some s)
         /\ Json.truthy (Some (McpServer.command s)) = true
         /\ McpServer.command s <> Json.JString EmptyString).
Proof.
  split; [|split; [|split]].
  - intros name config file Hc Hu. unfold McpConfig.parseServerConfig.
    now rewrite Hc, Hu.
  - intros name config url file Hc Hu Ht. unfold McpConfig.parseServerConfig.
    now rewrite Hc, Hu, Ht.
  - intros file config Hfile Hparse Hnull.
    unfold McpConfig.detect, McpConfig.try_block. rewrite Hfile, Hparse. simpl.
    destruct config; first [contradiction | now rewrite visit_entries_result].
  - intros file r s Hd Hs.
    destruct (detect_servers _ _ _ Hd Hs) as (name & config & Hp).
    split; [now exists name, config|].
    destruct (parseServerConfig_command _ _ _ _ Hp) as (Ht & _).
    split; [assumption|]. intros Heq. rewrite Heq in Ht. discriminate.
Qed.

(** C10, at an instance: of three entries, a launch entry, an endpoint
    entry and one that gives neither, the first two become servers, the
    second with its url as the command. *)
Lemma mixed_config_example :
  let endpoint := {| McpServer.name := "b";
                     McpServer.command := Json.JString "http://localhost:1";
                     McpServer.args := None;
                     McpServer.env := None;
                     McpServer.source := "conf/mcp_settings.json" |} in
  (fun r => McpServer.name <$> mcpServers r)
    <$> McpConfig.detect Examples.mixed_config
  = Some ["a"; "b"]
  /\ Json.truthy (Some (McpServer.command endpoint)) = true.
Proof.
  split; [vm_compute; reflexivity|].
  refine (proj1 (proj2 (proj2 (proj2 (proj2 emitted_servers_have_a_command))
                          Examples.mixed_config _ _ _ _))).
  - vm_compute. reflexivity.
  - right. left.
Defined.

(** ** The detectors and the state of the shared patterns *)

(** C2 does not hold of the code: detectFramework runs patterns that
    carry the g flag with test, so each success leaves the pattern's
    lastIndex behind and the next call starts its search there. Run
    twice in a row on the same TypeScript file, detect first gives the
    tool the framework mcp and then the framework unknown; two files of
    the same content, scanned in one run, get different frameworks; the
    Python detector does the same. The passes that loop with exec make
    a fresh pattern at each call and are not affected. *)
Theorem detect_depends_on_earlier_calls :
  (let '(r1, st1) := TypeScript.detect TypeScript.initial Examples.ts_a in
   let '(r2, _) := TypeScript.detect st1 Examples.ts_a in
   Tool.framework <$> tools r1 = [fw_mcp]
   /\ Tool.framework <$> tools r2 = [fw_unknown]
   /\ r1 <> r2)
  /\ (let '(r1, st1) := Python.detect Python.initial Examples.py_a in
      let '(r2, _) := Python.detect st1 Examples.py_a in
      Tool.framework <$> tools r1 = [fw_mcp]
      /\ Tool.framework <$> tools r2 = [fw_unknown]
      /\ r1 <> r2)
  /\ (content Examples.ts_a = content Examples.ts_b
      /\ (fun rw => (fun t => (Tool.source t, Tool.framework t)) <$> tools (fst rw))
           <$> Router.processFiles Scan.createRouter Router.initial_world
                 [Examples.ts_a; Examples.ts_b]
         = Some [("src/a.ts:2", fw_mcp); ("src/b.ts:2", fw_unknown)])
  /\ ~ (forall (st1 st2 : TypeScript.state) (file : FileInfo),
           fst (TypeScript.detect st1 file) = fst (TypeScript.detect st2 file)).
Proof.
  split; [vm_compute; repeat split; discriminate|].
  split; [vm_compute; repeat split; discriminate|].
  split; [split; [reflexivity | vm_compute; reflexivity]|].
  intros H.
  specialize (H TypeScript.initial
                (snd (TypeScript.detect TypeScript.initial Examples.ts_a))
                Examples.ts_a).
  vm_compute in H. discriminate.
Qed.

(* ================================================================== *)
(** * Part III: further properties of the code *)
(* ================================================================== *)

(** ** The inference engine *)

(** X1. isHighRisk and the risk table agree: a permission is high risk
    exactly when inferRisk gives HIGH for it, and so the pair that
    inferPermissionAndRisk returns holds the risk HIGH exactly when its
    permission is high risk. *)
Theorem isHighRisk_agrees_with_inferRisk :
  (forall p : Permission,
      Inference.isHighRisk p = true <-> Inference.inferRisk p = HIGH)
  /\ (forall (name : string) (description : option string),
         let pr := Inference.inferPermissionAndRisk name description in
         fst pr = Inference.inferPermission name description
         /\ (snd pr = HIGH <-> Inference.isHighRisk (fst pr) = true)).
Proof.
  assert (H : forall p : Permission,
             Inference.isHighRisk p = true <-> Inference.inferRisk p = HIGH).
  { intros p. destruct p; vm_compute; split; congruence. }
  split; [exact H|]. intros name description. cbv zeta.
  unfold Inference.inferPermissionAndRisk. cbn [fst snd].
  split; [reflexivity|]. symmetry. apply H.
Qed.

Lemma matchesKeywords_app (a b keywords : list string) :
  Inference.matchesKeywords (a ++ b) keywords
  = Inference.matchesKeywords a keywords || Inference.matchesKeywords b keywords.
Proof. unfold Inference.matchesKeywords. apply existsb_app. Qed.

Lemma inferPermission_allTokens (name : string) (description : option string) :
  Inference.inferPermission name description
  = let allTokens := Notions.allTokens name description in
    if Inference.matchesKeywords allTokens Inference.DELETE_KEYWORDS then DELETE
    else if Inference.matchesKeywords allTokens Inference.EXECUTE_KEYWORDS then EXECUTE
    else if Inference.matchesKeywords allTokens Inference.WRITE_KEYWORDS then WRITE
    else if Inference.matchesKeywords allTokens Inference.OUTPUT_KEYWORDS then OUTPUT
    else if Inference.matchesKeywords allTokens Inference.READ_KEYWORDS then READ
    else UNKNOWN.
Proof.
  unfold Inference.inferPermission, Notions.allTokens. cbv zeta.
  now rewrite allTokens_spec.
Qed.

(** X2. A description can only raise the class of a tool in the order
    in which the tables are tried (DELETE, EXECUTE, WRITE, OUTPUT, READ,
    then UNKNOWN): whatever description is added to a name, the
    permission inferred does not come later in that order than the one
    inferred from the name alone; a name that gives DELETE gives DELETE
    with every description. *)
Theorem description_only_raises_permission :
  forall (name description : string),
    Notions.priority (Inference.inferPermission name (Some description))
    <= Notions.priority (Inference.inferPermission name None)
    /\ (Inference.inferPermission name None = DELETE ->
        Inference.inferPermission name (Some description) = DELETE).
Proof.
  intros name description.
  rewrite !inferPermission_allTokens. unfold Notions.allTokens. cbv zeta.
  cbn [Spec.description_tokens]. rewrite app_nil_r, !matchesKeywords_app.
  destruct (Inference.matchesKeywords (Inference.tokenize name)
              Inference.DELETE_KEYWORDS); cbn [orb];
    [split; [apply Nat.le_refl | reflexivity]|].
  split; [|repeat (destruct (Inference.matchesKeywords
                              (Inference.tokenize name) _); cbn [orb];
                   try discriminate)].
  destruct (Inference.matchesKeywords (Inference.tokenize description)
              Inference.DELETE_KEYWORDS); cbn [orb Notions.priority]; [lia|].
  destruct (Inference.matchesKeywords (Inference.tokenize name)
              Inference.EXECUTE_KEYWORDS); cbn [orb Notions.priority]; [lia|].
  destruct (Inference.matchesKeywords (Inference.tokenize description)
              Inference.EXECUTE_KEYWORDS); cbn [orb Notions.priority];
    [repeat (destruct (Inference.matchesKeywords _ _); cbn; try lia)|].
  destruct (Inference.matchesKeywords (Inference.tokenize name)
              Inference.WRITE_KEYWORDS); cbn [orb Notions.priority]; [lia|].
  destruct (Inference.matchesKeywords (Inference.tokenize description)
              Inference.WRITE_KEYWORDS); cbn [orb Notions.priority];
    [repeat (destruct (Inference.matchesKeywords _ _); cbn; try lia)|].
  destruct (Inference.matchesKeywords (Inference.tokenize name)
              Inference.OUTPUT_KEYWORDS); cbn [orb Notions.priority]; [lia|].
  destruct (Inference.matchesKeywords (Inference.tokenize description)
              Inference.OUTPUT_KEYWORDS); cbn [orb Notions.priority];
    [repeat (destruct (Inference.matchesKeywords _ _); cbn; try lia)|].
  destruct (Inference.matchesKeywords (Inference.tokenize name)
              Inference.READ_KEYWORDS); cbn [orb Notions.priority]; [lia|].
  destruct (Inference.matchesKeywords (Inference.tokenize description)
              Inference.READ_KEYWORDS); cbn [orb Notions.priority]; lia.
Qed.

(** X3. getKeywordsForPermission and inferPermission agree: when the
    permission inferred is not UNKNOWN, one of the keywords that
    getKeywordsForPermission lists for it matches a token of the name
    or of the description; when it is UNKNOWN, no keyword of any
    permission matches any token. *)
Theorem inferred_permission_has_a_matching_keyword :
  forall (name : string) (description : option string),
    let p := Inference.inferPermission name description in
    let allTokens := Notions.allTokens name description in
    (p <> UNKNOWN ->
     Inference.matchesKeywords allTokens (Inference.getKeywordsForPermission p)
     = true)
    /\ (p = UNKNOWN ->
        forall q : Permission,
          Inference.matchesKeywords allTokens
            (Inference.getKeywordsForPermission q) = false).
Proof.
  intros name description. cbv zeta.
  rewrite inferPermission_allTokens. cbv zeta.
  set (allTokens := Notions.allTokens name description).
  destruct (Inference.matchesKeywords allTokens Inference.DELETE_KEYWORDS) eqn:H1;
    [split; [intros _; exact H1 | discriminate]|].
  destruct (Inference.matchesKeywords allTokens Inference.EXECUTE_KEYWORDS) eqn:H2;
    [split; [intros _; exact H2 | discriminate]|].
  destruct (Inference.matchesKeywords allTokens Inference.WRITE_KEYWORDS) eqn:H3;
    [split; [intros _; exact H3 | discriminate]|].
  destruct (Inference.matchesKeywords allTokens Inference.OUTPUT_KEYWORDS) eqn:H4;
    [split; [intros _; exact H4 | discriminate]|].
  destruct (Inference.matchesKeywords allTokens Inference.READ_KEYWORDS) eqn:H5;
    [split; [intros _; exact H5 | discriminate]|].
  split; [congruence|]. intros _ q.
  destruct q; cbn [Inference.getKeywordsForPermission]; try assumption.
  unfold Inference.matchesKeywords. clear.
  induction allTokens as [|t l IH]; [reflexivity | exact IH].
Qed.

Lemma tokenize_words (text : string) :
  Inference.tokenize text = Spec.words false EmptyString text.
Proof.
  unfold Inference.tokenize, Inference.split_ws.
  rewrite <- (split_prepared text false EmptyString false) by discriminate.
  reflexivity.
Qed.

Lemma kept_char_is_token_char (c : ascii) :
  Spec.is_boundary c = false ->
  Notions.token_char (Js.lower_char c) = true
  /\ Js.lower_char (Js.lower_char c) = Js.lower_char c.
Proof. each_char c; intros H; try discriminate H; split; reflexivity. Qed.

Lemma all_chars_snoc (p : ascii -> bool) (s : string) (c : ascii) :
  Notions.all_chars p (s +:+ String c EmptyString)
  = Notions.all_chars p s && p c.
Proof.
  induction s as [|x s IH]; simpl; [now rewrite andb_true_r|].
  now rewrite IH, andb_assoc.
Qed.

Lemma toLowerCase_snoc (s : string) (c : ascii) :
  Js.toLowerCase (s +:+ String c EmptyString)
  = Js.toLowerCase s +:+ String (Js.lower_char c) EmptyString.
Proof.
  unfold Js.toLowerCase. induction s as [|x s IH]; simpl; [reflexivity|].
  now rewrite IH.
Qed.

Lemma words_are_tokens (s : string) :
  forall (pl : bool) (cur : string),
    Notions.all_chars Notions.token_char cur = true ->
    Js.toLowerCase cur = cur ->
    Forall (fun t => Js.nonempty t = true
                     /\ Notions.all_chars Notions.token_char t = true
                     /\ Js.toLowerCase t = t)
      (Spec.words pl cur s).
Proof.
  assert (Hflush : forall cur,
             Notions.all_chars Notions.token_char cur = true ->
             Js.toLowerCase cur = cur ->
             Forall (fun t => Js.nonempty t = true
                              /\ Notions.all_chars Notions.token_char t = true
                              /\ Js.toLowerCase t = t) (Spec.flush cur)).
  { intros cur H1 H2. unfold Spec.flush.
    destruct (Js.nonempty cur) eqn:Hn; repeat constructor; assumption. }
  induction s as [|c rest IH]; intros pl cur H1 H2; cbn [Spec.words].
  - now apply Hflush.
  - destruct (Spec.is_boundary c) eqn:Hb.
    + apply Forall_app. split; [now apply Hflush | now apply IH].
    + destruct (kept_char_is_token_char c Hb) as [Hc Hl].
      destruct (pl && Js.is_upper c).
      * apply Forall_app. split; [now apply Hflush|].
        apply IH; cbn; [now rewrite Hc | now rewrite Hl].
      * apply IH.
        -- now rewrite all_chars_snoc, H1, Hc.
        -- now rewrite toLowerCase_snoc, H2, Hl.
Qed.

(** X4. Every token that tokenize returns is a clean lowercase word:
    it is not empty, it holds no white space, no underscore, no hyphen
    and no capital of A to Z, and putting it in lower case changes
    nothing. *)
Theorem tokens_are_lowercase_words :
  forall (text token : string),
    token ∈ Inference.tokenize text ->
    Js.nonempty token = true
    /\ Notions.all_chars Notions.token_char token = true
    /\ Js.toLowerCase token = token.
Proof.
  intros text token Hin. rewrite tokenize_words in Hin.
  pose proof (words_are_tokens text false EmptyString eq_refl eq_refl) as H.
  rewrite Forall_forall in H. now apply H.
Qed.

(** X4, at an instance. *)
Lemma tokens_are_lowercase_words_example :
  "user" ∈ Inference.tokenize "getUser_Data"
  /\ Js.nonempty "user" = true
  /\ Notions.all_chars Notions.token_char "user" = true
  /\ Js.toLowerCase "user" = "user".
Proof.
  assert (H : "user" ∈ Inference.tokenize "getUser_Data").
  { vm_compute. apply list_elem_of_further, list_elem_of_here. }
  split; [exact H|].
  exact (tokens_are_lowercase_words "getUser_Data" "user" H).
Defined.

Lemma existsb_same_elements {A} (f : A -> bool) (l1 l2 : list A) :
  (forall x, x ∈ l1 <-> x ∈ l2) -> existsb f l1 = existsb f l2.
Proof.
  intros H. apply eq_true_iff_eq. rewrite !existsb_exists.
  setoid_rewrite <- list_elem_of_In. split; intros (x & Hx & Hf); exists x;
    (split; [now apply H | assumption]).
Qed.

(** X5. The permission depends on the words alone, not on their order,
    their number of occurrences, or on which of them stand in the name
    and which in the description: two tools whose tokens are the same
    words get the same permission. *)
Theorem permission_depends_on_the_set_of_tokens :
  forall (name1 name2 : string) (description1 description2 : option string),
    (forall token : string,
        token ∈ Notions.allTokens name1 description1
        <-> token ∈ Notions.allTokens name2 description2) ->
    Inference.inferPermission name1 description1
    = Inference.inferPermission name2 description2.
Proof.
  intros name1 name2 description1 description2 H.
  rewrite !inferPermission_allTokens. cbv zeta.
  unfold Inference.matchesKeywords.
  now rewrite !(existsb_same_elements _ _ _ H).
Qed.

(** X5, at an instance: the words of a name in another order, one of
    them moved to the description. *)
Lemma permission_depends_on_the_set_of_tokens_example :
  Inference.inferPermission "fetchUserRecord" None
  = Inference.inferPermission "record_user" (Some "Fetch user").
Proof.
  apply (permission_depends_on_the_set_of_tokens
           "fetchUserRecord" "record_user" None (Some "Fetch user")).
  intros token. vm_compute Notions.allTokens.
  rewrite !elem_of_cons, !elem_of_nil. tauto.
Defined.

(** ** Line numbers (detectors/base.ts) *)

Lemma count_newlines_take (s : string) :
  forall i j : nat,
    i <= j ->
    Base.count_newlines (Js.take i s) <= Base.count_newlines (Js.take j s)
    /\ Base.count_newlines (Js.take j s) <= Base.count_newlines s.
Proof.
  unfold Js.take. induction s as [|c s IH]; intros i j Hij.
  - destruct i, j; simpl; lia.
  - destruct j as [|j].
    + assert (i = 0) as -> by lia. simpl. lia.
    + destruct i as [|i]; simpl.
      * destruct (IH 0 j ltac:(lia)) as [_ H]. lia.
      * destruct (IH i j ltac:(lia)) as [H1 H2]. lia.
Qed.

(** X6. getLineNumber counts lines from 1: the line of index 0 is 1,
    the line number does not decrease when the index grows, it never
    exceeds the number of lines of the content, and an index at or past
    the end of the content is on the last line. *)
Theorem getLineNumber_counts_from_one :
  forall content : string,
    Base.getLineNumber content 0 = 1
    /\ (forall i j : nat,
           i <= j ->
           Base.getLineNumber content i <= Base.getLineNumber content j)
    /\ (forall i : nat,
           1 <= Base.getLineNumber content i <= Notions.line_count content)
    /\ (forall i : nat,
           String.length content <= i ->
           Base.getLineNumber content i = Notions.line_count content).
Proof.
  intros content. unfold Base.getLineNumber, Notions.line_count. cbv zeta.
  split; [now destruct content|]. split; [|split].
  - intros i j Hij. destruct (count_newlines_take content i j Hij). lia.
  - intros i. destruct (count_newlines_take content i i (Nat.le_refl i)). lia.
  - intros i Hi. f_equal. f_equal. unfold Js.take.
    revert i Hi. induction content as [|c s IH]; intros i Hi.
    + now destruct i.
    + destruct i as [|i]; simpl in *; [lia|]. rewrite IH by lia. reflexivity.
Qed.

(** ** The router (scanner/router.ts) *)

Lemma normalizedExt_starts_with_dot (ext : string) :
  Js.startsWith (Notions.normalizedExt ext) "." = true.
Proof.
  unfold Notions.normalizedExt.
  destruct (Js.startsWith ext ".") eqn:H; [exact H|].
  unfold Js.startsWith. simpl. now destruct ext.
Qed.

Lemma normalizedExt_idempotent (ext : string) :
  Notions.normalizedExt (Notions.normalizedExt ext) = Notions.normalizedExt ext.
Proof.
  unfold Notions.normalizedExt at 1.
  now rewrite normalizedExt_starts_with_dot.
Qed.

Lemma register_cons router detector ext extensions :
  Router.register router detector (ext :: extensions)
  = Router.register
      {| Router.detectors :=
           <[Notions.normalizedExt ext :=
               default [] (Router.detectors router !! Notions.normalizedExt ext)
               ++ [detector]]> (Router.detectors router);
         Router.globalDetectors := Router.globalDetectors router |}
      detector extensions.
Proof. reflexivity. Qed.

Lemma getDetectorsForFile_register_one router detector ext file :
  Router.getDetectorsForFile (Router.register router detector [ext]) file
  = if String.eqb (extension file) (Notions.normalizedExt ext)
    then Router.getDetectorsForFile router file ++ [detector]
    else Router.getDetectorsForFile router file.
Proof.
  rewrite register_cons. unfold Router.getDetectorsForFile. cbn.
  destruct (String.eqb_spec (extension file) (Notions.normalizedExt ext))
    as [->|Hne].
  - rewrite lookup_insert_eq. cbn. now rewrite app_assoc.
  - rewrite lookup_insert_ne by congruence. reflexivity.
Qed.

(** X7. register files a detector under the extension with its leading
    dot, adding the dot when it is missing: registering py and
    registering .py are the same. After a registration the detector
    stands last among the detectors of the files of that extension, and
    the detectors of the other files are as before. After a
    registration for several extensions, a file gets the detector
    exactly if it had it before or its extension is one of them.
    Global detectors run before those of the extension. *)
Theorem register_files_by_dotted_extension :
  (forall (router : Router.ExtensionRouter) (detector : Router.Detector)
      (ext : string),
      Router.register router detector [ext]
      = Router.register router detector [Notions.normalizedExt ext])
  /\ (forall (router : Router.ExtensionRouter) (detector : Router.Detector)
        (ext : string) (file : FileInfo),
        Router.getDetectorsForFile (Router.register router detector [ext]) file
        = if String.eqb (extension file) (Notions.normalizedExt ext)
          then Router.getDetectorsForFile router file ++ [detector]
          else Router.getDetectorsForFile router file)
  /\ (forall (router : Router.ExtensionRouter) (detector : Router.Detector)
        (extensions : list string) (file : FileInfo),
        detector ∈ Router.getDetectorsForFile
                     (Router.register router detector extensions) file
        <-> detector ∈ Router.getDetectorsForFile router file
            \/ extension file ∈ Notions.normalizedExt <$> extensions)
  /\ (forall (router : Router.ExtensionRouter) (detector : Router.Detector)
        (file : FileInfo),
        Router.getDetectorsForFile (Router.registerGlobal router detector) file
        = Router.globalDetectors router ++ [detector]
          ++ default [] (Router.detectors router !! extension file)).
Proof.
  split; [|split; [|split]].
  - intros router detector ext. rewrite !register_cons.
    now rewrite normalizedExt_idempotent.
  - apply getDetectorsForFile_register_one.
  - intros router detector extensions file. revert router.
    induction extensions as [|ext extensions IH]; intros router.
    + cbn. rewrite elem_of_nil. tauto.
    + change (Router.register router detector (ext :: extensions))
        with (Router.register (Router.register router detector [ext])
                detector extensions).
      rewrite IH, getDetectorsForFile_register_one, fmap_cons, elem_of_cons.
      destruct (String.eqb_spec (extension file) (Notions.normalizedExt ext))
        as [Heq|Hne].
      * rewrite elem_of_app, list_elem_of_singleton. tauto.
      * tauto.
  - intros router detector file. unfold Router.getDetectorsForFile. cbn.
    now rewrite <- app_assoc.
Qed.

Lemma merge_empty_l (r : DetectorResult) : Router.merge Base.emptyResult r = r.
Proof. now destruct r. Qed.

Lemma merge_empty_r (r : DetectorResult) : Router.merge r Base.emptyResult = r.
Proof. destruct r. unfold Router.merge. cbn. now rewrite !app_nil_r. Qed.

Lemma merge_assoc (a b c : DetectorResult) :
  Router.merge (Router.merge a b) c = Router.merge a (Router.merge b c).
Proof. unfold Router.merge. cbn. now rewrite !app_assoc. Qed.

(** The loop of processFiles, started from any result. *)
Lemma processFiles_from router (files : list FileInfo) :
  forall (acc : DetectorResult) (w : Router.world),
    fold_left (fun acc file =>
      match acc with
      | None => None
      | Some (result, w) =>
          match Router.processFile router w file with
          | Some (fileResult, w') => Some (Router.merge result fileResult, w')
          | None => None
          end
      end) files (Some (acc, w))
    = (fun rw => (Router.merge acc (fst rw), snd rw))
        <$> Router.processFiles router w files.
Proof.
  unfold Router.processFiles.
  induction files as [|file files IH]; intros acc w.
  - cbn. now rewrite merge_empty_r.
  - cbn [fold_left].
    destruct (Router.processFile router w file) as [[fileResult w']|].
    + rewrite IH. rewrite (IH (Router.merge Base.emptyResult fileResult)).
      destruct (fold_left _ files (Some (Base.emptyResult, w')))
        as [[r w'']|]; cbn; [|reflexivity].
      now rewrite merge_empty_l, merge_assoc.
    + clear. induction files as [|f files IH]; [reflexivity | exact IH].
Qed.

(** X8. processFiles composes: the files of a list are processed one
    after the other, each from the state the one before left, and the
    results are joined in that order. So the result for two lists in a
    row is the result for the first joined with the result for the
    second, started in the state the first left; no file gives the
    empty result and leaves the state; one file gives what processFile
    gives. *)
Theorem processFiles_composes :
  forall (router : Router.ExtensionRouter) (w : Router.world),
    Router.processFiles router w [] = Some (Base.emptyResult, w)
    /\ (forall file : FileInfo,
           Router.processFiles router w [file] = Router.processFile router w file)
    /\ (forall files1 files2 : list FileInfo,
           Router.processFiles router w (files1 ++ files2)
           = match Router.processFiles router w files1 with
             | Some (result1, w1) =>
                 match Router.processFiles router w1 files2 with
                 | Some (result2, w2) => Some (Router.merge result1 result2, w2)
                 | None => None
                 end
             | None => None
             end).
Proof.
  intros router w. split; [reflexivity|]. split.
  - intros file. unfold Router.processFiles. cbn.
    destruct (Router.processFile router w file) as [[r w']|]; [|reflexivity].
    now rewrite merge_empty_l.
  - intros files1 files2. unfold Router.processFiles at 1.
    rewrite fold_left_app. fold (Router.processFiles router w files1).
    destruct (Router.processFiles router w files1) as [[result1 w1]|].
    + rewrite processFiles_from.
      now destruct (Router.processFiles router w1 files2) as [[r2 w2]|].
    + clear. induction files2 as [|f files IH]; [reflexivity | exact IH].
Qed.

Lemma run_detectors_skips_failing file (bad : Router.Detector)
  (ds1 ds2 : list Router.Detector) acc :
  (forall w, Router.detect bad w file = (Router.Threw, w)) ->
  Notions.run_detectors file (ds1 ++ bad :: ds2) acc
  = Notions.run_detectors file (ds1 ++ ds2) acc.
Proof.
  intros Hbad. unfold Notions.run_detectors.
  rewrite !fold_left_app. cbn [fold_left]. f_equal.
  destruct (fold_left _ ds1 acc) as [[result w]|]; [|reflexivity].
  now rewrite Hbad.
Qed.

(** X9. A detector that throws on a file costs nothing but its own
    results: with such a detector registered, for all files or for the
    extension of the file, processFile returns what it returns without
    it, the results of the detectors before and after it included. *)
Theorem failing_detector_is_passed_over :
  forall (bad : Router.Detector) (file : FileInfo),
    (forall w : Router.world, Router.detect bad w file = (Router.Threw, w)) ->
    forall (router : Router.ExtensionRouter) (w : Router.world),
      Router.processFile (Router.registerGlobal router bad) w file
      = Router.processFile router w file
      /\ forall ext : string,
           Router.processFile (Router.register router bad [ext]) w file
           = Router.processFile router w file.
Proof.
  intros bad file Hbad router w. split.
  - change (Notions.run_detectors file
              (Router.getDetectorsForFile (Router.registerGlobal router bad) file)
              (Some (Base.emptyResult, w))
            = Notions.run_detectors file
                (Router.getDetectorsForFile router file)
                (Some (Base.emptyResult, w))).
    unfold Router.getDetectorsForFile. cbn [Router.registerGlobal
      Router.globalDetectors Router.detectors].
    rewrite <- app_assoc. cbn [app].
    now apply run_detectors_skips_failing.
  - intros ext.
    change (Notions.run_detectors file
              (Router.getDetectorsForFile (Router.register router bad [ext]) file)
              (Some (Base.emptyResult, w))
            = Notions.run_detectors file
                (Router.getDetectorsForFile router file)
                (Some (Base.emptyResult, w))).
    rewrite getDetectorsForFile_register_one.
    destruct (String.eqb _ _); [|reflexivity].
    rewrite <- (app_nil_r (Router.getDetectorsForFile router file)) at 2.
    now apply run_detectors_skips_failing.
Qed.

(** X9, at an instance: a failing detector registered for TypeScript
    files beside the four detectors of the scan. *)
Lemma failing_detector_example :
  Router.processFile
    (Router.register Scan.createRouter Examples.failing_detector [".ts"])
    Router.initial_world Examples.ts_a
  = Router.processFile Scan.createRouter Router.initial_world Examples.ts_a.
Proof.
  apply (failing_detector_is_passed_over Examples.failing_detector Examples.ts_a
           (fun w => eq_refl) Scan.createRouter Router.initial_world).
Defined.

(** ** The manifest (output/manifest.ts) *)

Lemma lookup_bump (counts : gmap string nat) (key k : string) :
  Manifest.bump counts key !! k
  = if String.eqb key k then Some (default 0 (counts !! k) + 1)
    else counts !! k.
Proof.
  unfold Manifest.bump. destruct (String.eqb_spec key k) as [->|Hne].
  - now rewrite lookup_insert_eq.
  - now rewrite lookup_insert_ne.
Qed.

(** A bucket after the counting loop: what it held before, and one more
    for every entity of its key. *)
Lemma lookup_counted {A} (key : A -> string) (k : string) (l : list A) :
  forall counts : gmap string nat,
    fold_left (fun counts x => Manifest.bump counts (key x)) l counts !! k
    = match Notions.count (fun x => String.eqb (key x) k) l with
      | 0 => counts !! k
      | S n => Some (default 0 (counts !! k) + S n)
      end.
Proof.
  unfold Notions.count.
  induction l as [|x l IH]; intros counts; cbn [fold_left List.filter];
    [reflexivity|].
  rewrite IH, lookup_bump.
  destruct (String.eqb (key x) k); cbn [length];
    destruct (length (List.filter _ l)); cbn; try reflexivity; f_equal; lia.
Qed.

(** X10. Every bucket of the summary holds the number of the tools it
    stands for: by_risk has an entry for each of the three levels and
    by_permission one for each of the six permissions, zero included,
    each the number of the tools of that level or permission;
    by_framework has an entry for a framework exactly when some tool
    has it, and the entry is the number of those tools. *)
Theorem summary_buckets_count_the_tools :
  forall (result : DetectorResult) (filesScanned : nat),
    let s := Manifest.createSummary result filesScanned in
    (forall r : RiskLevel,
        by_risk s !! risk_name r
        = Some (Notions.count (fun t => bool_decide (Tool.risk t = r))
                  (tools result)))
    /\ (forall p : Permission,
           by_permission s !! permission_name p
           = Some (Notions.count (fun t => bool_decide (Tool.permission t = p))
                     (tools result)))
    /\ (forall f : Framework,
           by_framework s !! framework_name f
           = match Notions.count (fun t => bool_decide (Tool.framework t = f))
                     (tools result) with
             | 0 => None
             | S n => Some (S n)
             end).
Proof.
  intros result filesScanned. cbv zeta. unfold Manifest.createSummary.
  cbn [by_risk by_permission by_framework].
  assert (Hext : forall (p q : Tool.t -> bool) l,
             (forall t, p t = q t) ->
             Notions.count p l = Notions.count q l).
  { intros p q l H. unfold Notions.count. f_equal.
    induction l as [|t l IH]; cbn; [reflexivity|]. now rewrite H, IH. }
  split; [|split].
  - intros r. rewrite lookup_counted.
    rewrite (Hext _ (fun t => bool_decide (Tool.risk t = r))).
    2:{ intros t. destruct (Tool.risk t), r; reflexivity. }
    destruct (Notions.count _ _); destruct r; reflexivity.
  - intros p. rewrite lookup_counted.
    rewrite (Hext _ (fun t => bool_decide (Tool.permission t = p))).
    2:{ intros t. destruct (Tool.permission t), p; reflexivity. }
    destruct (Notions.count _ _); destruct p; reflexivity.
  - intros f. rewrite lookup_counted.
    rewrite (Hext _ (fun t => bool_decide (Tool.framework t = f))).
    2:{ intros t. destruct (Tool.framework t), f; reflexivity. }
    destruct (Notions.count _ _); reflexivity.
Qed.

Lemma first_occurrences_sublist {A} (key : A -> string) (l : list A) :
  forall seen : gset string,
    sublist (Manifest.first_occurrences key seen l) l.
Proof.
  induction l as [|x l IH]; intros seen; cbn; [constructor|].
  case_bool_decide; [apply sublist_cons | apply sublist_skip]; apply IH.
Qed.

Lemma first_occurrences_elem {A} (key : A -> string) (l : list A) :
  forall (seen : gset string) (y : A),
    y ∈ Manifest.first_occurrences key seen l
    <-> (key y ∉ seen) /\ Notions.first_of_its_key key l y.
Proof.
  unfold Notions.first_of_its_key.
  induction l as [|x l IH]; intros seen y; cbn [Manifest.first_occurrences].
  - rewrite elem_of_nil. split; [tauto|]. intros [_ (i & Hi & _)].
    now rewrite lookup_nil in Hi.
  - case_bool_decide as Hx.
    + rewrite IH. split.
      * intros [Hy (i & Hi & Hfirst)]. split; [exact Hy|].
        exists (S i). split; [exact Hi|].
        intros [|j] z Hj Hz.
        -- injection Hz as <-. intros Heq. apply Hy. now rewrite <- Heq.
        -- apply (Hfirst j z); [lia | exact Hz].
      * intros [Hy (i & Hi & Hfirst)]. split; [exact Hy|].
        destruct i as [|i].
        -- injection Hi as <-. contradiction.
        -- exists i. split; [exact Hi|].
           intros j z Hj Hz. apply (Hfirst (S j) z); [lia | exact Hz].
    + rewrite elem_of_cons, IH. split.
      * intros [-> | [Hy (i & Hi & Hfirst)]].
        -- split; [exact Hx|]. exists 0. split; [reflexivity|]. lia.
        -- rewrite elem_of_union, elem_of_singleton in Hy.
           split; [tauto|]. exists (S i). split; [exact Hi|].
           intros [|j] z Hj Hz.
           ++ injection Hz as <-. intros Heq. apply Hy. now left.
           ++ apply (Hfirst j z); [lia | exact Hz].
      * intros [Hy (i & Hi & Hfirst)]. destruct i as [|i].
        -- left. now injection Hi.
        -- right. split.
           ++ pose proof (Hfirst 0 x ltac:(lia) eq_refl) as Hne.
              rewrite elem_of_union, elem_of_singleton.
              intros [Heq | Hin]; [now apply Hne | now apply Hy].
           ++ exists i. split; [exact Hi|].
              intros j z Hj Hz. apply (Hfirst (S j) z); [lia | exact Hz].
Qed.

(** X11. Deduplication keeps, in the order of the input, exactly the
    entities that are the first of their key: what it returns is the
    input with some entities left out, and an entity is returned
    exactly when it stands in the input with no entity of its key
    before it. So no key of the input is lost. This holds for the
    tools and the agents, by name and source, and for the servers, by
    name. *)
Theorem deduplication_keeps_the_first_of_each_key :
  (forall tools : list Tool.t,
      sublist (Manifest.deduplicateTools tools) tools
      /\ forall t : Tool.t,
           t ∈ Manifest.deduplicateTools tools
           <-> Notions.first_of_its_key Manifest.tool_key tools t)
  /\ (forall agents : list Agent.t,
         sublist (Manifest.deduplicateAgents agents) agents
         /\ forall a : Agent.t,
              a ∈ Manifest.deduplicateAgents agents
              <-> Notions.first_of_its_key Manifest.agent_key agents a)
  /\ (forall servers : list McpServer.t,
         sublist (Manifest.deduplicateMcpServers servers) servers
         /\ forall s : McpServer.t,
              s ∈ Manifest.deduplicateMcpServers servers
              <-> Notions.first_of_its_key McpServer.name servers s).
Proof.
  assert (H : forall {A} (key : A -> string) (l : list A),
             sublist (Manifest.deduplicate key l) l
             /\ forall x, x ∈ Manifest.deduplicate key l
                          <-> Notions.first_of_its_key key l x).
  { intros A key l. rewrite deduplicate_first_occurrences. split.
    - apply first_occurrences_sublist.
    - intros x. rewrite first_occurrences_elem. split; [tauto|].
      intros Hx. split; [apply not_elem_of_empty | exact Hx]. }
  split; [|split]; intros l; apply H.
Qed.

Lemma key_parts (n1 n2 s1 s2 : string) :
  Notions.no_colon n1 = true -> Notions.no_colon n2 = true ->
  n1 +:+ ":" +:+ s1 = n2 +:+ ":" +:+ s2 -> n1 = n2 /\ s1 = s2.
Proof.
  unfold Notions.no_colon. revert n2.
  induction n1 as [|c n1 IH]; intros [|d n2] H1 H2 Heq; cbn in *.
  - now injection Heq.
  - injection Heq as <- _. discriminate.
  - injection Heq as -> _. discriminate.
  - injection Heq as -> Heq.
    apply andb_true_iff in H1 as [_ H1]. apply andb_true_iff in H2 as [_ H2].
    destruct (IH n2 H1 H2 Heq) as [-> ->]. split; reflexivity.
Qed.

(** X12. The key of the deduplication joins name and source with a
    colon. For names without a colon it tells apart every two tools,
    and every two agents, that differ in name or in source; for names
    with a colon it does not: a tool fs:read of src/a.ts and a tool fs
    of read:src/a.ts, on one line, have one key, and deduplicateTools
    keeps only the first of the two. *)
Theorem dedup_key_separates_names_without_colon :
  (forall t1 t2 : Tool.t,
      Notions.no_colon (Tool.name t1) = true ->
      Notions.no_colon (Tool.name t2) = true ->
      Manifest.tool_key t1 = Manifest.tool_key t2 ->
      Tool.name t1 = Tool.name t2 /\ Tool.source t1 = Tool.source t2)
  /\ (forall a1 a2 : Agent.t,
         Notions.no_colon (Agent.name a1) = true ->
         Notions.no_colon (Agent.name a2) = true ->
         Manifest.agent_key a1 = Manifest.agent_key a2 ->
         Agent.name a1 = Agent.name a2 /\ Agent.source a1 = Agent.source a2)
  /\ (Tool.name Examples.colon_in_name <> Tool.name Examples.colon_in_path
      /\ Tool.source Examples.colon_in_name <> Tool.source Examples.colon_in_path
      /\ Manifest.deduplicateTools
           [Examples.colon_in_name; Examples.colon_in_path]
         = [Examples.colon_in_name]).
Proof.
  split; [|split].
  - intros t1 t2. apply key_parts.
  - intros a1 a2. apply key_parts.
  - split; [discriminate|]. split; [discriminate|]. reflexivity.
Qed.

(** ** The assembly of the manifest (commands/scan.ts) *)

Lemma elem_of_sort {A} (compare : A -> A -> Z) (l : list A) (x : A) :
  x ∈ Manifest.sort compare l <-> x ∈ l.
Proof. now rewrite (sort_perm compare l). Qed.

Lemma elem_of_List_filter {A} (p : A -> bool) (l : list A) (x : A) :
  x ∈ List.filter p l <-> x ∈ l /\ p x = true.
Proof. now rewrite !list_elem_of_In, filter_In. Qed.

(** X13. The options framework and risk filter the tools and nothing
    else. A tool stands in the manifest exactly when it stands in the
    manifest made without the two options, its framework is the one
    asked for, if one is, and its risk is the level asked for, put in
    upper case, if one is; an option given as the empty text asks for
    nothing. The agents and the servers are those of the manifest made
    without the options. A level that is, in upper case, none of LOW,
    MEDIUM and HIGH leaves no tool. *)
Theorem options_filter_the_tools_only :
  forall (localeCompare : string -> string -> Z) (now : string)
    (result : DetectorResult) (absolutePath : string) (filesScanned : nat)
    (duration : Z) (options : Scan.ScanOptions),
    let m := Scan.assemble localeCompare now result absolutePath filesScanned
               duration options in
    let unfiltered :=
      Scan.assemble localeCompare now result absolutePath filesScanned duration
        {| Scan.output := Scan.output options; Scan.framework := None;
           Scan.risk := None; Scan.json := Scan.json options |} in
    (forall t : Tool.t,
        t ∈ manifest_tools m
        <-> t ∈ manifest_tools unfiltered
            /\ (forall f : string,
                   Scan.given (Scan.framework options) = Some f ->
                   framework_name (Tool.framework t) = f)
            /\ (forall r : string,
                   Scan.given (Scan.risk options) = Some r ->
                   risk_name (Tool.risk t) = Js.toUpperCase r))
    /\ manifest_agents m = manifest_agents unfiltered
    /\ mcp_servers m = mcp_servers unfiltered
    /\ (forall r : string,
           Scan.given (Scan.risk options) = Some r ->
           Js.toUpperCase r <> "LOW" -> Js.toUpperCase r <> "MEDIUM" ->
           Js.toUpperCase r <> "HIGH" ->
           manifest_tools m = []).
Proof.
  intros localeCompare now result absolutePath filesScanned duration options.
  cbv zeta.
  assert (Htools : forall t : Tool.t,
    t ∈ manifest_tools (Scan.assemble localeCompare now result absolutePath
                          filesScanned duration options)
    <-> t ∈ Manifest.deduplicateTools (tools result)
        /\ (forall f : string,
               Scan.given (Scan.framework options) = Some f ->
               framework_name (Tool.framework t) = f)
        /\ (forall r : string,
               Scan.given (Scan.risk options) = Some r ->
               risk_name (Tool.risk t) = Js.toUpperCase r)).
  { intros t. rewrite assemble_tools, elem_of_sort.
    unfold Scan.assembled_tools, Manifest.filterByRisk,
      Manifest.filterByFramework.
    destruct (Scan.given (Scan.framework options)) as [f|];
      destruct (Scan.given (Scan.risk options)) as [r|];
      rewrite ?elem_of_List_filter, ?String.eqb_eq.
    - split.
      + intros [[H1 H2] H3]. split; [exact H1|].
        split; [now intros ? [= <-] | now intros ? [= <-]].
      + intros (H1 & H2 & H3). split; [split|]; auto.
    - split.
      + intros [H1 H2]. split; [exact H1|].
        split; [now intros ? [= <-] | discriminate].
      + intros (H1 & H2 & H3). split; auto.
    - split.
      + intros [H1 H2]. split; [exact H1|].
        split; [discriminate | now intros ? [= <-]].
      + intros (H1 & H2 & H3). split; auto.
    - split.
      + intros H1. split; [exact H1|]. split; discriminate.
      + intros (H1 & _). exact H1. }
  split; [|split; [|split]].
  - intros t. rewrite Htools, (assemble_tools _ _ _ _ _ _ _), elem_of_sort.
    reflexivity.
  - reflexivity.
  - reflexivity.
  - intros r Hr H1 H2 H3.
    destruct (manifest_tools _) as [|t l] eqn:Hm; [reflexivity|].
    destruct (proj1 (Htools t) (list_elem_of_here _ _)) as (_ & _ & Ht).
    specialize (Ht r Hr).
    destruct (Tool.risk t); cbn in Ht; congruence.
Qed.

Lemma sort_of_sorted {A} (compare : A -> A -> Z) (l : list A) :
  StronglySorted (fun a b => (compare a b <= 0)%Z) l ->
  Manifest.sort compare l = l.
Proof.
  induction 1 as [|x l Hl IH Hx]; [reflexivity|].
  change (Manifest.sort compare (x :: l))
    with (Manifest.insert_sorted compare x (Manifest.sort compare l)).
  rewrite IH. destruct l as [|y l]; [reflexivity|]. cbn.
  inversion Hx as [|? ? Hxy _]; subst.
  now rewrite (proj2 (Z.leb_le _ _) Hxy).
Qed.

Lemma count_Permutation {A} (p : A -> bool) (l1 l2 : list A) :
  Permutation l1 l2 -> Notions.count p l1 = Notions.count p l2.
Proof.
  unfold Notions.count.
  induction 1 as [|x l1 l2 _ IH|x y l|l1 l2 l3 _ IH1 _ IH2]; cbn.
  - reflexivity.
  - destruct (p x); cbn; now rewrite IH.
  - destruct (p x), (p y); reflexivity.
  - now rewrite IH1.
Qed.

Lemma createSummary_Permutation (r1 r2 : DetectorResult) (n : nat) :
  Permutation (tools r1) (tools r2) ->
  length (agents r1) = length (agents r2) ->
  length (mcpServers r1) = length (mcpServers r2) ->
  Manifest.createSummary r1 n = Manifest.createSummary r2 n.
Proof.
  intros Ht Ha Hs. unfold Manifest.createSummary.
  rewrite (Permutation_length Ht), Ha, Hs.
  f_equal; apply map_eq; intros k; rewrite !lookup_counted;
    now rewrite (count_Permutation _ _ _ Ht).
Qed.

(** X14. createManifest is idempotent on its own output: made again
    from the tools, agents and servers of a manifest, with the same
    path, count of files, duration and clock, the manifest is the same,
    lists and summary; sorting the sorted lists changes nothing. The
    comparison of names is taken to be consistent. *)
Theorem createManifest_of_a_manifest_is_the_manifest :
  forall localeCompare : string -> string -> Z,
    Spec.consistent localeCompare ->
    forall (now : string) (result : DetectorResult) (scannedPath : string)
      (filesScanned : nat) (durationMs : Z),
      let m := Manifest.createManifest localeCompare now result scannedPath
                 filesScanned durationMs in
      Manifest.createManifest localeCompare now
        {| tools := manifest_tools m; agents := manifest_agents m;
           mcpServers := mcp_servers m |}
        scannedPath filesScanned durationMs
      = m.
Proof.
  intros localeCompare collation now result scannedPath filesScanned durationMs.
  cbv zeta. unfold Manifest.createManifest at 1. cbn [tools agents mcpServers].
  unfold Manifest.createManifest.
  cbn [manifest_tools manifest_agents mcp_servers].
  destruct collation as [Hflip Htrans].
  assert (Htotal : forall a b, (0 < localeCompare a b)%Z ->
                               (localeCompare b a <= 0)%Z).
  { intros a b. specialize (Hflip a b). lia. }
  f_equal.
  - apply createSummary_Permutation; cbn [tools agents mcpServers].
    + apply sort_perm.
    + apply sort_length.
    + apply sort_length.
  - apply sort_of_sorted, sort_sorted.
    + apply compare_tools_total. now split.
    + apply compare_tools_trans. now split.
  - apply sort_of_sorted, sort_sorted.
    + intros a b. apply Htotal.
    + intros a b c. apply Htrans.
  - apply sort_of_sorted, sort_sorted.
    + intros a b. apply Htotal.
    + intros a b c. apply Htrans.
Qed.

(** X14, at an instance: the order of the character codes. *)
Lemma createManifest_of_a_manifest_example :
  let m := Manifest.createManifest Spec.ordinal_compare "now"
             Examples.some_tools "/repo" 1 5%Z in
  Manifest.createManifest Spec.ordinal_compare "now"
    {| tools := manifest_tools m; agents := manifest_agents m;
       mcpServers := mcp_servers m |} "/repo" 1 5%Z
  = m.
Proof.
  apply (createManifest_of_a_manifest_is_the_manifest Spec.ordinal_compare
           ordinal_compare_consistent).
Defined.

Lemma NoDup_fmap_filter {A B} (f : A -> B) (p : A -> bool) (l : list A) :
  NoDup (f <$> l) -> NoDup (f <$> List.filter p l).
Proof.
  induction l as [|x l IH]; cbn; [trivial|].
  rewrite NoDup_cons. intros [Hx Hl]. destruct (p x); [|now apply IH].
  rewrite fmap_cons. apply NoDup_cons. split; [|now apply IH].
  intros Hin. apply Hx. apply list_elem_of_fmap in Hin as (y & -> & Hy).
  apply elem_of_List_filter in Hy as [Hy _]. now apply list_elem_of_fmap_2.
Qed.

Lemma NoDup_fmap_sort {A B} (f : A -> B) (compare : A -> A -> Z) (l : list A) :
  NoDup (f <$> l) -> NoDup (f <$> Manifest.sort compare l).
Proof. now rewrite (sort_perm compare l). Qed.

(** X15. The manifest that the scan assembles names every entity once:
    no two of its tools have the same name and source, no two of its
    agents have the same name and source, and no two of its servers
    have the same name, whatever the detectors returned and whatever
    the options. *)
Theorem manifest_holds_no_duplicates :
  forall (localeCompare : string -> string -> Z) (now : string)
    (result : DetectorResult) (absolutePath : string) (filesScanned : nat)
    (duration : Z) (options : Scan.ScanOptions),
    let m := Scan.assemble localeCompare now result absolutePath filesScanned
               duration options in
    NoDup (Manifest.tool_key <$> manifest_tools m)
    /\ NoDup (Manifest.agent_key <$> manifest_agents m)
    /\ NoDup (McpServer.name <$> mcp_servers m).
Proof.
  intros localeCompare now result absolutePath filesScanned duration options.
  cbv zeta. unfold Scan.assemble, Manifest.createManifest.
  cbn [manifest_tools manifest_agents mcp_servers tools agents mcpServers].
  assert (H : forall {A} (key : A -> string) (l : list A),
             NoDup (key <$> Manifest.deduplicate key l)).
  { intros A key l. rewrite deduplicate_first_occurrences.
    apply first_occurrences_NoDup. }
  split; [|split]; apply NoDup_fmap_sort; [|apply H..].
  unfold Scan.assembled_tools, Manifest.filterByRisk,
    Manifest.filterByFramework.
  destruct (Scan.given (Scan.framework options));
    destruct (Scan.given (Scan.risk options));
    repeat apply NoDup_fmap_filter; apply H.
Qed.
